(** * TestOps Copilot: a shallow embedding of the back end and its properties

    The development follows the Python sources under [backend/src]:
    - [utils/helpers.py] and [utils/validators.py] (module [Helpers],
      module [Validators]);
    - [models/enums.py] and [models/dto.py] (module [Models]);
    - [agents/optimization_agent.py] with the part of the standard
      [difflib] it calls (modules [Difflib], [OptimizationAgent]);
    - [agents/manual_to_ui_tests.py] with the client of
      [services/llm_client.py] (modules [LLM], [ManualToUITests]);
    - [agents/testplan_agent.py] (module [TestPlanAgent]);
    - [services/job_manager.py] on top of [storage/job_storage.py]
      (module [JobManager]).
    Module [Py] holds the built-ins of Python that the code uses, module
    [Inputs] the concrete inputs of the examples.

    Conventions.  A Python [str] is a list of Unicode code points
    ([pystr]).  A Python [int] is a [Z].  A Python [float] that the code
    only multiplies, divides and adds is a rational ([Q]): rounding of
    binary floating point is outside the embedding.  A [dict] is a [gmap].
    A function that may raise returns a [result]. *)

From Stdlib Require Import ZArith NArith QArith List String Ascii Lia Bool.
From Stdlib Require Import Decimal DecimalString Sorted Lqa.
From stdpp Require Import base option list gmap strings.

Local Open Scope Z_scope.
#[local] Set Warnings "-register-all".

(** ** Python values and built-ins *)

Module Py.

(** A [str]: the sequence of its code points. *)
Definition pystr : Type := list N.

(** A [UUID]: its 128-bit integer. *)
Definition UUID : Type := N.

(** A point in time ([datetime]): seconds since the epoch. *)
Definition datetime : Type := Z.


(** Decoding of UTF-8: the source files are UTF-8 text, and a literal
    of the source denotes the code points that its bytes encode. *)
Fixpoint utf8_decode (bytes : list N) : pystr :=
  match bytes with
  | [] => []
  | b0 :: r0 =>
      if (b0 <? 128)%N then b0 :: utf8_decode r0
      else
        match r0 with
        | [] => []
        | b1 :: r1 =>
            if (b0 <? 224)%N
            then ((b0 - 192) * 64 + (b1 - 128))%N :: utf8_decode r1
            else
              match r1 with
              | [] => []
              | b2 :: r2 =>
                  if (b0 <? 240)%N
                  then ((b0 - 224) * 4096 + (b1 - 128) * 64
                        + (b2 - 128))%N :: utf8_decode r2
                  else
                    match r2 with
                    | [] => []
                    | b3 :: r3 =>
                        ((b0 - 240) * 262144 + (b1 - 128) * 4096
                         + (b2 - 128) * 64 + (b3 - 128))%N
                          :: utf8_decode r3
                    end
              end
        end
  end.

(** A string literal of the source. *)
Definition lit (s : string) : pystr :=
  utf8_decode (map N_of_ascii (list_ascii_of_string s)).

(** Code points that the sources name. *)
Definition underscore : N := 95.
Definition space : N := 32.

(** [str.isspace] on one code point: the white-space table of CPython
    (tab to carriage return, the four separators 0x1C..0x1F, space,
    NEL, no-break space and the Unicode space separators). *)
Definition isspace (c : N) : bool :=
  ((9 <=? c) && (c <=? 13) || (28 <=? c) && (c <=? 32)
   || (c =? 133) || (c =? 160) || (c =? 5760)
   || (8192 <=? c) && (c <=? 8202)
   || (c =? 8232) || (c =? 8233) || (c =? 8239) || (c =? 8287)
   || (c =? 12288))%N.

(** [s.lstrip()], [s.rstrip()] and [s.strip()] with the set of
    characters to remove given as a predicate. *)
Fixpoint lstrip_with (p : N -> bool) (s : pystr) : pystr :=
  match s with
  | [] => []
  | c :: r => if p c then lstrip_with p r else s
  end.

Fixpoint rstrip_with (p : N -> bool) (s : pystr) : pystr :=
  match s with
  | [] => []
  | c :: r =>
      match rstrip_with p r with
      | [] => if p c then [] else [c]
      | r' => c :: r'
      end
  end.

Definition strip_with (p : N -> bool) (s : pystr) : pystr :=
  rstrip_with p (lstrip_with p s).

(** [s.strip()] *)
Definition strip (s : pystr) : pystr := strip_with isspace s.

(** [s.strip(c)] for a one-character argument. *)
Definition strip_char (c : N) (s : pystr) : pystr :=
  strip_with (N.eqb c) s.

(** [len(s)] for a string and for a list. *)
Definition len (s : pystr) : Z := Z.of_nat (length s).
Definition len_list {A : Type} (l : list A) : Z := Z.of_nat (length l).

(** [prefix.startswith], as a test on lists. *)
Fixpoint startswith (s prefix : pystr) : bool :=
  match prefix, s with
  | [], _ => true
  | p :: prefix', c :: s' => (p =? c)%N && startswith s' prefix'
  | _ :: _, [] => false
  end.

(** [s.endswith(suffix)] *)
Definition endswith (s suffix : pystr) : bool :=
  startswith (rev s) (rev suffix).

(** [needle in s] for two strings: [needle] starts at some position. *)
Fixpoint contains (s needle : pystr) : bool :=
  startswith s needle
  || match s with
     | [] => false
     | _ :: s' => contains s' needle
     end.

(** [sep.join(parts)] *)
Fixpoint join (sep : pystr) (parts : list pystr) : pystr :=
  match parts with
  | [] => []
  | [x] => x
  | x :: rest => x ++ sep ++ join sep rest
  end.

(** [s.splitlines()]: the line boundaries are line feed, carriage
    return (with a following line feed as one boundary), vertical tab,
    form feed, the separators 0x1C..0x1E, NEL and the Unicode line and
    paragraph separators; no empty last line is produced. *)
Definition is_linebreak (c : N) : bool :=
  ((10 <=? c) && (c <=? 13) || (28 <=? c) && (c <=? 30)
   || (c =? 133) || (c =? 8232) || (c =? 8233))%N.

Fixpoint splitlines_from (current : pystr) (s : pystr) : list pystr :=
  match s with
  | [] =>
      match current with
      | [] => []
      | _ => [rev current]
      end
  | c :: r =>
      if is_linebreak c then
        rev current ::
          match r with
          | d :: r' =>
              if ((c =? 13) && (d =? 10))%N then splitlines_from [] r'
              else splitlines_from [] r
          | [] => splitlines_from [] r
          end
      else splitlines_from (c :: current) r
  end.

Definition splitlines (s : pystr) : list pystr := splitlines_from [] s.

(** [s[:n]] for a non-negative [n]. *)
Definition slice_to (n : nat) (s : pystr) : pystr := firstn n s.

(** Lexicographic comparison of strings by code point: [s <= t] and
    [s >= t]. *)
Fixpoint str_le (s t : pystr) : bool :=
  match s, t with
  | [], _ => true
  | _ :: _, [] => false
  | c :: s', d :: t' =>
      if (c <? d)%N then true
      else if (d <? c)%N then false
      else str_le s' t'
  end.

Definition str_ge (s t : pystr) : bool := str_le t s.

(** A decimal digit. *)
Definition is_digit (c : N) : Prop := (48 <= c <= 57)%N.

(** [str(u)] for a [UUID]: 32 hexadecimal digits in groups of 8, 4, 4, 4
    and 12. *)
Definition hex_digit (d : N) : N :=
  if (d <? 10)%N then (48 + d)%N else (87 + d)%N.

Definition hex_digits (count : nat) (n : N) : pystr :=
  map (fun i => hex_digit ((n / 16 ^ N.of_nat (count - 1 - i)) mod 16)%N)
      (seq 0 count).

Definition str_of_uuid (u : UUID) : pystr :=
  let h := hex_digits 32 u in
  firstn 8 h ++ [45%N] ++ firstn 4 (skipn 8 h) ++ [45%N]
  ++ firstn 4 (skipn 12 h) ++ [45%N] ++ firstn 4 (skipn 16 h) ++ [45%N]
  ++ skipn 20 h.

(** [str(n)] for an [int]. *)
Definition str_of_int (n : Z) : pystr :=
  lit (NilZero.string_of_int (Z.to_int n)).

(** Values of type [Any]: what JSON text and [model_dump] produce. *)
Inductive pyval : Type :=
| PNone
| PBool (b : bool)
| PInt (n : Z)
| PFloat (x : Q)
| PStr (s : pystr)
| PList (items : list pyval)
| PDict (entries : list (pystr * pyval)).

(** Exceptions (all of them subclasses of [Exception]).
    [JobNotFoundException] carries the id that its message names, the
    others the text that [str(exc)] gives. *)
Inductive exn : Type :=
| ValueError (msg : pystr)
| KeyError (key : pystr)
| JobNotFoundException (job_id : UUID)
| JSONDecodeError (msg : pystr)
| OtherError (msg : pystr).

Inductive result (A : Type) : Type :=
| Return (a : A)
| Raise (e : exn).
Arguments Return {A} a.
Arguments Raise {A} e.

(** Sequencing of computations that may raise. *)
Definition bind {A B : Type} (c : result A) (k : A -> result B)
  : result B :=
  match c with
  | Return a => k a
  | Raise e => Raise e
  end.

(** [int(x)] for a float [x]: truncation toward zero. *)
Definition int_of_float (x : Q) : Z := Z.quot (Qnum x) (Zpos (Qden x)).

(** [s.split()]: the maximal runs of characters that are not white
    space. *)
Fixpoint split_from (current : pystr) (s : pystr) : list pystr :=
  match s with
  | [] =>
      match current with
      | [] => []
      | _ => [rev current]
      end
  | c :: r =>
      if isspace c then
        match current with
        | [] => split_from [] r
        | _ => rev current :: split_from [] r
        end
      else split_from (c :: current) r
  end.

Definition split (s : pystr) : list pystr := split_from [] s.

(** Line feed and double quote. *)
Definition nl : pystr := [10%N].
Definition dq : pystr := [34%N].

(** [str(exc)] *)
Definition str_of_exn (e : exn) : pystr :=
  match e with
  | ValueError msg => msg
  | KeyError key => [39%N] ++ key ++ [39%N]
  | JobNotFoundException id => lit "Job " ++ str_of_uuid id ++ lit " not found"
  | JSONDecodeError msg => msg
  | OtherError msg => msg
  end.

(** [bool(v)] *)
Definition truthy (v : pyval) : bool :=
  match v with
  | PNone => false
  | PBool b => b
  | PInt n => negb (n =? 0)
  | PFloat x => negb (Qnum x =? 0)
  | PStr [] | PList [] | PDict [] => false
  | PStr _ | PList _ | PDict _ => true
  end.

(** [d.get(key, default)] on the entries of a dictionary; of two
    entries with one key, the later one counts. *)
Fixpoint dict_get (entries : list (pystr * pyval)) (key : pystr)
    (default : pyval) : pyval :=
  match entries with
  | [] => default
  | (k, v) :: rest =>
      dict_get rest key (if bool_decide (k = key) then v else default)
  end.

(** [key in d] *)
Definition dict_has (entries : list (pystr * pyval)) (key : pystr) : bool :=
  bool_decide (key ∈ map fst entries).

(** The items that [for x in v] visits; numbers, booleans and [None]
    are not iterable. *)
Definition iterate (v : pyval) : result (list pyval) :=
  match v with
  | PList items => Return items
  | PDict entries => Return (map (fun e => PStr (fst e)) entries)
  | PStr s => Return (map (fun c => PStr [c]) s)
  | _ => Raise (OtherError (lit "object is not iterable"))
  end.

(** The parts of the run time that are parameters of the development:
    from the Unicode database, [str.lower] and the alphanumeric
    characters (with the underscore, the word characters of regular
    expressions); and the format [.2f] of a float. *)
Class Runtime : Type := {
  str_lower : pystr -> pystr;
  str_upper : pystr -> pystr;
  isalnum : N -> bool;
  format_2f : Q -> pystr;
  str_of_value : pyval -> pystr;
  int_of_value : pyval -> result Z;
  repr_of_strings : list pystr -> pystr
}.

(** The restriction of the two to ASCII text, where [lower] maps the
    letters A..Z to a..z and changes nothing else. *)
Definition ascii_lower_char (c : N) : N :=
  if ((65 <=? c) && (c <=? 90))%N then (c + 32)%N else c.

Definition ascii_isalnum (c : N) : bool :=
  ((48 <=? c) && (c <=? 57) || (65 <=? c) && (c <=? 90)
   || (97 <=? c) && (c <=? 122))%N.

(** Two decimals of a non-negative rational, rounded to nearest, ties
    to even. *)
Definition round_half_even (x : Q) : Z :=
  let n := Qnum x in
  let d := Zpos (Qden x) in
  let q := n / d in
  let r := n mod d in
  if 2 * r <? d then q
  else if d <? 2 * r then q + 1
  else if Z.even q then q else q + 1.

Definition two_digits (n : Z) : string :=
  let s := NilZero.string_of_int (Z.to_int n) in
  if n <? 10 then String "0" s else s.

Definition decimal_2f (x : Q) : pystr :=
  let hundredths := round_half_even (Qmult x (inject_Z 100)) in
  map N_of_ascii
    (list_ascii_of_string
       (NilZero.string_of_int (Z.to_int (hundredths / 100)) ++ "."
        ++ two_digits (hundredths mod 100))).

Definition ascii_upper_char (c : N) : N :=
  if ((97 <=? c) && (c <=? 122))%N then (c - 32)%N else c.

(** [str(v)] and [int(v)] for the scalar values of the examples. *)
Definition ascii_str_of_value (v : pyval) : pystr :=
  match v with
  | PNone => lit "None"
  | PBool true => lit "True"
  | PBool false => lit "False"
  | PInt n => str_of_int n
  | PStr s => s
  | _ => lit "<object>"
  end.

Definition ascii_int_of_value (v : pyval) : result Z :=
  match v with
  | PBool true => Return 1
  | PBool false => Return 0
  | PInt n => Return n
  | PFloat x => Return (int_of_float x)
  | _ => Raise (OtherError (lit "int() argument"))
  end.

(** [repr] of a list of strings without quotes or escapes. *)
Definition ascii_repr_of_strings (l : list pystr) : pystr :=
  [91%N] ++ join (lit ", ") (map (fun s => [39%N] ++ s ++ [39%N]) l)
  ++ [93%N].

Definition ascii_runtime : Runtime :=
  {| str_lower := map ascii_lower_char;
     str_upper := map ascii_upper_char;
     isalnum := ascii_isalnum;
     format_2f := decimal_2f;
     str_of_value := ascii_str_of_value;
     int_of_value := ascii_int_of_value;
     repr_of_strings := ascii_repr_of_strings |}.


End Py.
Export Py.

Notation "x <- c ;; k" := (bind c (fun x => k))
  (at level 100, c at next level, right associativity).

(** ** models/enums.py *)

Module Models.

Inductive TestPriority : Type := CRITICAL | NORMAL | LOW.

Definition TestPriority_value (p : TestPriority) : pystr :=
  match p with
  | CRITICAL => lit "CRITICAL"
  | NORMAL => lit "NORMAL"
  | LOW => lit "LOW"
  end.

Inductive TestType : Type :=
| MANUAL_UI | MANUAL_API | AUTOMATED_UI | AUTOMATED_API.

Definition TestType_value (t : TestType) : pystr :=
  match t with
  | MANUAL_UI => lit "manual_ui"
  | MANUAL_API => lit "manual_api"
  | AUTOMATED_UI => lit "automated_ui"
  | AUTOMATED_API => lit "automated_api"
  end.

End Models.
Export Models.

(** ** models/dto.py *)

Module Dto.

Record TestCaseDTO : Type := {
  id : UUID;
  title : pystr;
  feature : pystr;
  story : pystr;
  priority : TestPriority;
  steps : list pystr;
  expected_result : pystr;
  python_code : pystr;
  test_type : TestType;
  owner : pystr;
  created_at : datetime;
  updated_at : option datetime
}.

End Dto.

(** ** utils/helpers.py *)

Module Helpers.

(** The table [base_times] of [calculate_estimated_time]. *)
Definition base_times : gmap pystr Z :=
  <[lit "manual_ui" := 30]>
    (<[lit "manual_api" := 25]>
       (<[lit "auto_ui" := 45]>
          (<[lit "auto_api" := 35]> ∅))).

(** The [if]/[elif]/[else] chain that picks the multiplier:
    1.0, 0.9 or 0.8. *)
Definition multiplier (testcases_count : Z) : Q :=
  if testcases_count <=? 10 then 1 # 1
  else if testcases_count <=? 30 then 9 # 10
  else 8 # 10.

(** [calculate_estimated_time(testcases_count, test_type)].  The product
    [base_time * testcases_count] is an integer product; it is then
    multiplied by the float multiplier and truncated by [int].  The
    doubles nearest to 0.9 and 0.8 lie just above them, so for the
    products that counts of test cases give (far below 2^53) the
    truncated double product is the truncated rational product. *)
Definition calculate_estimated_time
    (testcases_count : Z) (test_type : pystr) : Z :=
  let base_time := default 30 (base_times !! test_type) in
  let estimated :=
    int_of_float
      (Qmult (inject_Z (base_time * testcases_count))
             (multiplier testcases_count)) in
  Z.max 60 (Z.min estimated 1800).

(** *** The estimate as the specification words it *)

(** Bounding a value between [lo] and [hi]. *)
Definition clamp (x lo hi : Z) : Z :=
  if x <? lo then lo else if hi <? x then hi else x.

(** Multiplier tier of a count: 0 for [count <= 10], 1 for [11..30],
    2 above. *)
Definition tier (count : Z) : nat :=
  if count <=? 10 then 0%nat else if count <=? 30 then 1%nat else 2%nat.

(** [floor(base * count * m)] for the multiplier [m] of the tier, in
    tenths. *)
Definition scaled (base count : Z) : Z :=
  match tier count with
  | 0%nat => base * count
  | 1%nat => (base * count * 9) / 10
  | _ => (base * count * 8) / 10
  end.

(** Seconds per test case that the specification assigns to each member
    of the [TestType] enumeration. *)
Definition claimed_base (t : TestType) : Z :=
  match t with
  | MANUAL_UI => 30
  | MANUAL_API => 25
  | AUTOMATED_UI => 45
  | AUTOMATED_API => 35
  end.

Definition claimed_estimate (count : Z) (t : TestType) : Z :=
  clamp (scaled (claimed_base t) count) 60 1800.

(** Seconds per test case that the table gives to a type token: the
    four keys of [base_times], and 30 for every other string. *)
Definition token_base (test_type : pystr) : Z :=
  if decide (test_type = lit "manual_ui") then 30
  else if decide (test_type = lit "manual_api") then 25
  else if decide (test_type = lit "auto_ui") then 45
  else if decide (test_type = lit "auto_api") then 35
  else 30.

(** *** [sanitize_filename] *)

(** The character class of the first substitution: the characters
    less-than, greater-than, colon, double quote, slash, backslash,
    bar, question mark and star. *)
Definition forbidden_chars : list N :=
  [60; 62; 58; 34; 47; 92; 124; 63; 42]%N.

Definition is_forbidden (c : N) : bool :=
  existsb (N.eqb c) forbidden_chars.

(** [re.sub(class, '_', s)]: every character of the class becomes an
    underscore. *)
Definition replace_forbidden (s : pystr) : pystr :=
  map (fun c => if is_forbidden c then underscore else c) s.

(** [re.sub(r'_+', '_', s)]: every maximal run of underscores becomes
    one underscore, that is, an underscore followed by an underscore
    is dropped. *)
Fixpoint collapse_underscores (s : pystr) : pystr :=
  match s with
  | [] => []
  | c :: r =>
      match r with
      | d :: _ =>
          if (c =? underscore)%N && (d =? underscore)%N
          then collapse_underscores r
          else c :: collapse_underscores r
      | [] => [c]
      end
  end.

(** The three cleaning steps shared by the two sanitizers. *)
Definition sanitize_core (filename : pystr) : pystr :=
  strip_char underscore
    (collapse_underscores (replace_forbidden filename)).

(** [sanitize_filename(filename)]; [now_timestamp] is the value of
    [int(datetime.now().timestamp())] at the call. *)
Definition sanitize_filename (now_timestamp : Z) (filename : pystr)
  : pystr :=
  let sanitized := sanitize_core filename in
  match sanitized with
  | [] => lit "file_" ++ str_of_int now_timestamp
  | _ => sanitized
  end.

(** *** What a sanitized name looks like *)

(** No two adjacent underscores. *)
Fixpoint no_double_underscore (s : pystr) : Prop :=
  match s with
  | [] => True
  | c :: r =>
      match r with
      | [] => True
      | d :: _ => ~ (c = underscore /\ d = underscore)
      end /\ no_double_underscore r
  end.

(** None of the forbidden characters. *)
Definition no_forbidden (s : pystr) : Prop :=
  Forall (fun c => c ∉ forbidden_chars) s.

(** No underscore at either end. *)
Definition no_edge_underscore (s : pystr) : Prop :=
  head s <> Some underscore /\ last s <> Some underscore.

(** [range(start, stop, step)] for a positive step; it has at most
    [stop] members when it starts at 0 or above, which [fuel] counts. *)
Fixpoint range_from (fuel start stop step : nat) : list nat :=
  match fuel with
  | O => []
  | S fuel' =>
      if (start <? stop)%nat
      then start :: range_from fuel' (start + step) stop step
      else []
  end.

(** [chunk_list(lst, chunk_size)].  A step of 0 makes [range] raise
    [ValueError]; with a negative step the range from 0 up to the
    length is empty. *)
Definition chunk_list {A : Type} (lst : list A) (chunk_size : Z)
  : result (list (list A)) :=
  if chunk_size =? 0 then
    Raise (ValueError (lit "range() arg 3 must not be zero"))
  else if chunk_size <? 0 then Return []
  else
    let size := Z.to_nat chunk_size in
    Return
      (map (fun i => firstn size (skipn i lst))
         (range_from (length lst) 0 (length lst) size)).

(** [s.split(sep)] for a separator of one character: the pieces
    between the separators, empty ones included. *)
Fixpoint split_on (sep : N) (s : pystr) : list pystr :=
  match s with
  | [] => [[]]
  | c :: r =>
      if (c =? sep)%N then [] :: split_on sep r
      else
        match split_on sep r with
        | [] => [[c]]
        | piece :: pieces => (c :: piece) :: pieces
        end
  end.

(** [formatted_lines and formatted_lines[-1].strip()] *)
Definition last_line_has_text (formatted_lines : list pystr) : bool :=
  match last formatted_lines with
  | Some line =>
      match strip line with
      | [] => false
      | _ :: _ => true
      end
  | None => false
  end.

(** One turn of the loop [for line in lines] of [format_python_code]. *)
Definition format_step (formatted_lines : list pystr) (line : pystr)
  : list pystr :=
  let stripped_line := rstrip_with isspace line in
  match stripped_line with
  | _ :: _ => formatted_lines ++ [stripped_line]
  | [] =>
      if last_line_has_text formatted_lines
      then formatted_lines ++ [stripped_line]
      else formatted_lines
  end.

(** The list [formatted_lines] before the lines are joined. *)
Definition formatted_lines (code : pystr) : list pystr :=
  let formatted_lines := fold_left format_step (split_on 10 code) [] in
  match last formatted_lines with
  | Some (_ :: _) => formatted_lines ++ [[]]
  | _ => formatted_lines
  end.

(** [format_python_code(code)] *)
Definition format_python_code (code : pystr) : pystr :=
  join nl (formatted_lines code).

(** What the formatted lines keep: no line has a line feed or white
    space at its end, an empty line comes only after a line with
    text, and the last line is empty. *)
Fixpoint tidy_lines (previous_has_text : bool) (lines : list pystr)
  : Prop :=
  match lines with
  | [] => True
  | line :: rest =>
      (10%N ∉ line)
      /\ rstrip_with isspace line = line
      /\ (line = [] -> previous_has_text = true)
      /\ tidy_lines (match line with [] => false | _ => true end) rest
  end.

End Helpers.

(** ** utils/validators.py *)

Module Validators.

(** [validate_requirements_text(text)]: the pair (valid, error). *)
Definition validate_requirements_text (text : pystr)
  : bool * option pystr :=
  match text, strip text with
  | [], _ | _, [] =>
      (false,
       Some (lit "Текст требований не может быть пустым"))
  | _, _ =>
      if len (strip text) <? 20 then
        (false,
         Some (lit "Текст требований слишком короткий (минимум 20 символов)"))
      else if 10000 <? len text then
        (false,
         Some (lit "Текст требований слишком длинный (максимум 10000 символов)"))
      else (true, None)
  end.

(** The validity condition as the specification words it: the trimmed
    text is non-empty and its length is between 20 and 10000. *)
Definition claimed_valid (text : pystr) : bool :=
  negb (len (strip text) =? 0)
  && (20 <=? len (strip text)) && (len (strip text) <=? 10000).

(** [sanitize_filename(filename)] of the validators module. *)
Definition sanitize_filename (filename : pystr) : pystr :=
  let sanitized := Helpers.sanitize_core filename in
  let sanitized :=
    match sanitized with
    | [] => lit "file"
    | _ => sanitized
    end in
  if endswith sanitized (lit ".py") then sanitized
  else sanitized ++ lit ".py".

(** [s.count(c)] for a one-character argument. *)
Fixpoint count_char (c : N) (s : pystr) : Z :=
  match s with
  | [] => 0
  | d :: r => (if (d =? c)%N then 1 else 0) + count_char c r
  end.

(** [validate_python_code(code)]: the pair (valid, error).  The loop
    over the required keywords only logs. *)
Definition validate_python_code (code : pystr) : bool * option pystr :=
  match code, strip code with
  | [], _ | _, [] => (false, Some (lit "Код не может быть пустым"))
  | _, _ =>
      if negb (count_char 40 code =? count_char 41 code) then
        (false, Some (lit "Несбалансированные круглые скобки"))
      else if negb (count_char 91 code =? count_char 93 code) then
        (false, Some (lit "Несбалансированные квадратные скобки"))
      else if negb (count_char 123 code =? count_char 125 code) then
        (false, Some (lit "Несбалансированные фигурные скобки"))
      else (true, None)
  end.

(** The character classes of the pattern of [validate_uuid], which is
    compiled with [re.IGNORECASE]: a hexadecimal digit in either case,
    and the hyphen. *)
Definition is_hex (c : N) : bool :=
  ((48 <=? c) && (c <=? 57) || (97 <=? c) && (c <=? 102)
   || (65 <=? c) && (c <=? 70))%N.

Definition is_hyphen (c : N) : bool := (c =? 45)%N.

(** The pattern: groups of 8, 4, 4, 4 and 12 hexadecimal digits with
    hyphens between them. *)
Definition uuid_pattern : list (N -> bool) :=
  repeat is_hex 8 ++ [is_hyphen] ++ repeat is_hex 4 ++ [is_hyphen]
  ++ repeat is_hex 4 ++ [is_hyphen] ++ repeat is_hex 4 ++ [is_hyphen]
  ++ repeat is_hex 12.

(** Matching a pattern of one-character classes from the start of the
    text: what is left of the text after the match. *)
Fixpoint match_classes (pattern : list (N -> bool)) (s : pystr)
  : option pystr :=
  match pattern with
  | [] => Some s
  | class :: pattern' =>
      match s with
      | c :: r => if class c then match_classes pattern' r else None
      | [] => None
      end
  end.

(** [validate_uuid(uuid_str)]: [$] matches at the end of the text and
    before a line feed that ends it. *)
Definition validate_uuid (uuid_str : pystr) : bool :=
  match match_classes uuid_pattern uuid_str with
  | Some [] => true
  | Some [c] => (c =? 10)%N
  | _ => false
  end.

(** [testcase[key].strip()]: only a string has the method. *)
Definition strip_of (v : pyval) : result pystr :=
  match v with
  | PStr s => Return (strip s)
  | _ => Raise (OtherError (lit "object has no attribute 'strip'"))
  end.

(** The body of the loop of [validate_test_case_batch] for the test
    case of index [i]: the error message, if the test case is
    rejected. *)
Definition check_testcase (i : nat) (testcase : pyval)
  : result (option pystr) :=
  let index := str_of_int (Z.of_nat i) in
  match testcase with
  | PDict entries =>
      title <- (if dict_has entries (lit "title")
                then strip_of (dict_get entries (lit "title") PNone)
                else Return []) ;;
      match title with
      | [] =>
          Return (Some (lit "Тест-кейс " ++ index
                        ++ lit " не имеет заголовка"))
      | _ :: _ =>
          if negb (dict_has entries (lit "steps"))
             || negb (truthy (dict_get entries (lit "steps") PNone))
          then Return (Some (lit "Тест-кейс " ++ index
                             ++ lit " не имеет шагов"))
          else
            match dict_get entries (lit "steps") PNone with
            | PList _ =>
                expected <-
                  (if dict_has entries (lit "expected_result")
                   then strip_of
                          (dict_get entries (lit "expected_result") PNone)
                   else Return []) ;;
                match expected with
                | [] =>
                    Return
                      (Some (lit "Тест-кейс " ++ index
                             ++ lit " не имеет ожидаемого результата"))
                | _ :: _ => Return None
                end
            | _ =>
                Return (Some (lit "Шаги тест-кейса " ++ index
                              ++ lit " должны быть списком"))
            end
      end
  | _ =>
      Return (Some (lit "Тест-кейс " ++ index
                    ++ lit " должен быть словарем"))
  end.

(** The loop [for i, testcase in enumerate(testcases)]. *)
Fixpoint batch_loop (i : nat) (testcases : list pyval)
  : result (bool * option pystr) :=
  match testcases with
  | [] => Return (true, None)
  | testcase :: rest =>
      verdict <- check_testcase i testcase ;;
      match verdict with
      | Some error => Return (false, Some error)
      | None => batch_loop (S i) rest
      end
  end.

(** [validate_test_case_batch(testcases)] *)
Definition validate_test_case_batch (testcases : list pyval)
  : result (bool * option pystr) :=
  match testcases with
  | [] =>
      Return (false,
              Some (lit "Список тест-кейсов не может быть пустым"))
  | _ :: _ => batch_loop 0 testcases
  end.

(** A test case that the batch validation lets pass: a dictionary
    with a title and an expected result that are strings with text,
    and with a list of steps that is not empty. *)
Definition well_formed (testcase : pyval) : Prop :=
  exists entries title steps expected,
    testcase = PDict entries
    /\ dict_has entries (lit "title") = true
    /\ dict_get entries (lit "title") PNone = PStr title
    /\ strip title <> []
    /\ dict_has entries (lit "steps") = true
    /\ dict_get entries (lit "steps") PNone = PList steps
    /\ steps <> []
    /\ dict_has entries (lit "expected_result") = true
    /\ dict_get entries (lit "expected_result") PNone = PStr expected
    /\ strip expected <> [].

Section WithRuntime.
Context {R : Runtime}.

(** [validate_test_type(test_type)] *)
Definition validate_test_type (test_type : pystr) : bool :=
  let valid_types :=
    [lit "manual_ui"; lit "manual_api"; lit "auto_ui"; lit "auto_api"] in
  bool_decide (str_lower test_type ∈ valid_types).

End WithRuntime.

End Validators.

(** ** difflib.SequenceMatcher, as the optimization agent calls it

    [SequenceMatcher(None, a, b)]: no junk predicate, [autojunk] left at
    its default [True].  Only what [ratio()] needs is modelled. *)

Module Difflib.

(** A [Match(a, b, size)] triple. *)
Definition Match : Type := (nat * nat * nat)%type.

(** The indices of [elt] in [b], ascending: [b2j[elt]] as [__chain_b]
    first builds it. *)
Fixpoint indices_from (offset : nat) (b : pystr) (elt : N) : list nat :=
  match b with
  | [] => []
  | c :: r =>
      if (c =? elt)%N then offset :: indices_from (S offset) r elt
      else indices_from (S offset) r elt
  end.

(** The automatic junk heuristic: in a sequence of 200 or more items,
    an item that occurs more than [n // 100 + 1] times is popular, and
    [__chain_b] deletes its entry of [b2j]. *)
Definition is_popular (b : pystr) (elt : N) : bool :=
  (200 <=? length b)%nat
  && (length b / 100 + 1 <? length (indices_from 0 b elt))%nat.

(** [b2j.get(elt, [])] *)
Definition b2j (b : pystr) (elt : N) : list nat :=
  if is_popular b elt then [] else indices_from 0 b elt.

(** [j2len.get(j - 1, 0)]: the key [j - 1] is never present for
    [j = 0]. *)
Definition j2lenget (j2len : gmap nat nat) (j : nat) : nat :=
  match j with
  | O => O
  | S j' => default O (j2len !! j')
  end.

(** The inner loop [for j in b2j.get(a[i], nothing)] of
    [find_longest_match], with its [continue] and [break]. *)
Fixpoint inner_loop (i blo bhi : nat) (js : list nat)
    (j2len newj2len : gmap nat nat) (best : Match)
  : gmap nat nat * Match :=
  match js with
  | [] => (newj2len, best)
  | j :: js' =>
      if (j <? blo)%nat then inner_loop i blo bhi js' j2len newj2len best
      else if (bhi <=? j)%nat then (newj2len, best)
      else
        let k := (j2lenget j2len j + 1)%nat in
        let newj2len := <[j := k]> newj2len in
        let best :=
          let '(_, _, bestsize) := best in
          if (bestsize <? k)%nat then ((i + 1 - k)%nat, (j + 1 - k)%nat, k)
          else best in
        inner_loop i blo bhi js' j2len newj2len best
  end.

(** One turn of the outer loop [for i in range(alo, ahi)]. *)
Definition outer_step (a b : pystr) (blo bhi : nat)
    (state : gmap nat nat * Match) (i : nat) : gmap nat nat * Match :=
  let '(j2len, best) := state in
  let js :=
    match a !! i with
    | Some elt => b2j b elt
    | None => []
    end in
  inner_loop i blo bhi js j2len ∅ best.

Definition outer_loop (a b : pystr) (alo ahi blo bhi : nat)
  : gmap nat nat * Match :=
  fold_left (outer_step a b blo bhi) (seq alo (ahi - alo))
    (∅, (alo, blo, O)).

(** [a[i] == b[j]] *)
Definition same_item (a b : pystr) (i j : nat) : bool :=
  match a !! i, b !! j with
  | Some x, Some y => (x =? y)%N
  | _, _ => false
  end.

(** The first [while]: the match grows to the left while the items
    before it agree. *)
Fixpoint extend_left (a b : pystr) (alo blo : nat)
    (besti bestj bestsize : nat) : Match :=
  match besti, bestj with
  | S i', S j' =>
      if (alo <? besti)%nat && (blo <? bestj)%nat && same_item a b i' j'
      then extend_left a b alo blo i' j' (S bestsize)
      else (besti, bestj, bestsize)
  | _, _ => (besti, bestj, bestsize)
  end.

(** The second [while]: the match grows to the right.  [room] is
    [ahi - (besti + bestsize)], the number of turns after which the
    first condition of the loop fails. *)
Fixpoint extend_right (a b : pystr) (ahi bhi : nat)
    (besti bestj bestsize : nat) (room : nat) : nat :=
  match room with
  | O => bestsize
  | S room' =>
      if (besti + bestsize <? ahi)%nat && (bestj + bestsize <? bhi)%nat
         && same_item a b (besti + bestsize) (bestj + bestsize)
      then extend_right a b ahi bhi besti bestj (S bestsize) room'
      else bestsize
  end.

(** [find_longest_match(alo, ahi, blo, bhi)].  The set [bjunk] is empty
    without a junk predicate, so the two further loops, which extend
    the match over junk items, never run. *)
Definition find_longest_match (a b : pystr) (alo ahi blo bhi : nat)
  : Match :=
  let '(besti, bestj, bestsize) := snd (outer_loop a b alo ahi blo bhi) in
  let '(besti, bestj, bestsize) :=
    extend_left a b alo blo besti bestj bestsize in
  let bestsize :=
    extend_right a b ahi bhi besti bestj bestsize
      (ahi - (besti + bestsize)) in
  (besti, bestj, bestsize).

(** The loop [while queue] of [get_matching_blocks].  The list [queue]
    is used as a stack; its top is the head here.  Every turn consumes
    one unit of [fuel]. *)
Fixpoint blocks_loop (fuel : nat) (a b : pystr)
    (queue : list (nat * nat * nat * nat)) (matching_blocks : list Match)
  : option (list Match) :=
  match queue with
  | [] => Some matching_blocks
  | (alo, ahi, blo, bhi) :: queue' =>
      match fuel with
      | O => None
      | S fuel' =>
          let '(i, j, k) := find_longest_match a b alo ahi blo bhi in
          if (k =? 0)%nat then blocks_loop fuel' a b queue' matching_blocks
          else
            let matching_blocks := matching_blocks ++ [(i, j, k)] in
            let queue1 :=
              if (alo <? i)%nat && (blo <? j)%nat
              then (alo, i, blo, j) :: queue'
              else queue' in
            let queue2 :=
              if (i + k <? ahi)%nat && (j + k <? bhi)%nat
              then ((i + k)%nat, ahi, (j + k)%nat, bhi) :: queue1
              else queue1 in
            blocks_loop fuel' a b queue2 matching_blocks
      end
  end.

(** The blocks that [get_matching_blocks] collects.  The loop needs at
    most [2 * len(a) + 1] turns (lemma [blocks_loop_terminates]). *)
Definition collected_blocks (a b : pystr) : list Match :=
  default []
    (blocks_loop (2 * length a + 2) a b [(O, length a, O, length b)] []).

(** [sum(triple[-1] for triple in self.get_matching_blocks())].
    [get_matching_blocks] sorts the collected blocks, merges adjacent
    ones and appends a block of size 0: the sum of the sizes stays. *)
Definition matches (a b : pystr) : nat :=
  list_sum (map (fun m : Match => snd m) (collected_blocks a b)).

(** [_calculate_ratio(matches, length)] *)
Definition _calculate_ratio (matches length : nat) : Q :=
  match length with
  | O => 1 # 1
  | _ => Qdiv (Qmult (2 # 1) (inject_Z (Z.of_nat matches)))
              (inject_Z (Z.of_nat length))
  end.

(** [SequenceMatcher(None, a, b).ratio()] *)
Definition ratio (a b : pystr) : Q :=
  _calculate_ratio (matches a b) (length a + length b).

(** *** Invariants of the loops *)

(** The best match so far lies in rows [alo..row) and columns
    [blo..bhi). *)
Definition best_inside (alo blo bhi row : nat) (best : Match) : Prop :=
  let '(besti, bestj, bestsize) := best in
  (alo <= besti /\ besti + bestsize <= row
   /\ blo <= bestj /\ bestj + bestsize <= bhi)%nat.

(** Every run length recorded in [j2len] fits between the region's
    corner and its cell. *)
Definition j2len_inside (alo blo bhi row : nat) (j2len : gmap nat nat)
  : Prop :=
  forall j v, j2len !! j = Some v ->
    (v + alo <= row /\ v + blo <= j + 1 /\ j < bhi)%nat.

(** A well-formed region of the queue, the rows and the columns it
    spans, and the turns of the loop it can cause. *)
Definition region : Type := (nat * nat * nat * nat)%type.

Definition region_ok (r : region) : Prop :=
  let '(alo, ahi, blo, bhi) := r in (alo <= ahi /\ blo <= bhi)%nat.

Definition rows (queue : list region) : nat :=
  list_sum (map (fun r : region => let '(alo, ahi, _, _) := r in ahi - alo)%nat queue).

Definition columns (queue : list region) : nat :=
  list_sum (map (fun r : region => let '(_, _, blo, bhi) := r in bhi - blo)%nat queue).

Definition turns (queue : list region) : nat :=
  list_sum (map (fun r : region => let '(alo, ahi, _, _) := r in 2 * (ahi - alo) + 1)%nat queue).

Definition total_size (blocks : list Match) : nat :=
  list_sum (map (fun m : Match => snd m) blocks).

(** The queue after a turn that found the match [(i, j, k)]. *)
Definition next_queue (alo ahi blo bhi i j k : nat) (queue : list region)
  : list region :=
  if ((i + k <? ahi) && (j + k <? bhi))%nat
  then ((i + k)%nat, ahi, (j + k)%nat, bhi)
       :: (if ((alo <? i) && (blo <? j))%nat then (alo, i, blo, j) :: queue
           else queue)
  else if ((alo <? i) && (blo <? j))%nat then (alo, i, blo, j) :: queue
       else queue.

(** When a sequence is compared with itself: the number of items up to
    and including index [i] that are not popular and follow one
    another without a gap. *)
Fixpoint run (s : pystr) (i : nat) : nat :=
  match s !! i with
  | Some x =>
      if is_popular s x then O
      else S (match i with
              | O => O
              | S i' => run s i'
              end)
  | None => O
  end.

Definition prev_run (s : pystr) (i : nat) : nat :=
  match i with
  | O => O
  | S i' => run s i'
  end.

Definition on_diagonal (best : Match) : Prop := fst (fst best) = snd (fst best).

Definition bestsize (best : Match) : nat := snd best.

(** The state of the outer loop before row [i], when [s] is compared
    with itself: the recorded run lengths are bounded by the runs, the
    cell before the diagonal holds the run, the best size dominates the
    earlier runs, and the best match is on the diagonal. *)
Definition self_state (s : pystr) (i : nat)
    (state : gmap nat nat * Match) : Prop :=
  (forall j v, fst state !! j = Some v ->
               (v <= run s j /\ v <= prev_run s i)%nat)
  /\ j2lenget (fst state) i = prev_run s i
  /\ (forall r, (r < i)%nat -> (run s r <= bestsize (snd state))%nat)
  /\ on_diagonal (snd state).

End Difflib.

(** ** agents/optimization_agent.py *)

Module OptimizationAgent.

Section WithRuntime.
Context {R : Runtime}.

(** The dictionaries that the checks produce. *)
Record recommendation : Type := {
  rec_type : pystr;
  severity : pystr;
  message : pystr;
  action : pystr
}.

Record coverage_item : Type := {
  requirement : pystr;
  covered : bool;
  testcases : list pystr
}.

Record coverage_result : Type := {
  coverage : list coverage_item;
  coverage_percent : Q;
  recommendations : list recommendation
}.

Record duplicate_pair : Type := {
  testcase1 : pystr;
  testcase2 : pystr;
  similarity : Q
}.

Record duplicates_result : Type := {
  duplicates : list duplicate_pair;
  threshold_used : Q;
  dup_recommendations : list recommendation
}.

(** [_similarity(first, second)] *)
Definition _similarity (first second : Dto.TestCaseDTO) : Q :=
  let title_score :=
    Difflib.ratio (str_lower (Dto.title first))
                  (str_lower (Dto.title second)) in
  let steps_score :=
    Difflib.ratio (str_lower (join [space] (Dto.steps first)))
                  (str_lower (join [space] (Dto.steps second))) in
  Qplus (Qmult title_score (6 # 10)) (Qmult steps_score (4 # 10)).

(** The choice of the case to keep:
    [keep = tc if tc.priority.value >= other.priority.value else other]
    and [drop = other if keep is tc else tc]. *)
Definition keep_first (tc other : Dto.TestCaseDTO) : bool :=
  str_ge (TestPriority_value (Dto.priority tc))
         (TestPriority_value (Dto.priority other)).

Definition keep_drop (tc other : Dto.TestCaseDTO)
  : Dto.TestCaseDTO * Dto.TestCaseDTO :=
  if keep_first tc other then (tc, other) else (other, tc).

(** The recommendation appended for a pair at or above the
    threshold. *)
Definition duplicate_recommendation (tc other : Dto.TestCaseDTO)
    (score : Q) : recommendation :=
  let '(keep, drop) := keep_drop tc other in
  {| rec_type := lit "duplicate";
     severity := lit "medium";
     message :=
       lit "Tests " ++ Dto.title tc ++ lit " and " ++ Dto.title other
       ++ lit " look similar (" ++ format_2f score ++ lit ")";
     action :=
       lit "Keep " ++ Dto.title keep ++ lit ", review " ++ Dto.title drop
       ++ lit " for merge/removal" |}.

(** The body of the inner loop [for other in testcases[idx + 1:]]. *)
Definition pair_step (threshold : Q) (tc : Dto.TestCaseDTO)
    (acc : list duplicate_pair * list recommendation)
    (other : Dto.TestCaseDTO)
  : list duplicate_pair * list recommendation :=
  let '(duplicates, recommendations) := acc in
  let score := _similarity tc other in
  if Qle_bool threshold score then
    (duplicates ++
       [ {| testcase1 := str_of_uuid (Dto.id tc);
            testcase2 := str_of_uuid (Dto.id other);
            similarity := score |} ],
     recommendations ++ [duplicate_recommendation tc other score])
  else acc.

(** The outer loop [for idx, tc in enumerate(testcases)]. *)
Fixpoint pairs_loop (threshold : Q) (testcases : list Dto.TestCaseDTO)
    (acc : list duplicate_pair * list recommendation)
  : list duplicate_pair * list recommendation :=
  match testcases with
  | [] => acc
  | tc :: rest =>
      pairs_loop threshold rest (fold_left (pair_step threshold tc) rest acc)
  end.

(** [_find_duplicates(testcases, threshold)] *)
Definition _find_duplicates (testcases : list Dto.TestCaseDTO)
    (threshold : Q) : duplicates_result :=
  let '(duplicates, recommendations) :=
    pairs_loop threshold testcases ([], []) in
  {| duplicates := duplicates;
     threshold_used := threshold;
     dup_recommendations := recommendations |}.

(** [_covers_requirement(testcase, requirement)] *)
Definition _covers_requirement (testcase : Dto.TestCaseDTO)
    (requirement : pystr) : bool :=
  let text :=
    join [space]
      [Dto.title testcase; Dto.story testcase;
       join [space] (Dto.steps testcase)] in
  contains (str_lower text) (str_lower requirement).

(** The list comprehension that selects the requirement lines, with its
    slice [[:50]]. *)
Definition requirement_lines (requirements_text : pystr) : list pystr :=
  firstn 50
    (flat_map
       (fun line =>
          match strip line with
          | [] => []
          | _ => if 8 <? len (strip line) then [strip line] else []
          end)
       (splitlines requirements_text)).

(** The inner comprehension [covered_by] of the loop. *)
Definition covered_by (testcases : list Dto.TestCaseDTO) (req : pystr)
  : list pystr :=
  map (fun tc => str_of_uuid (Dto.id tc))
      (List.filter (fun tc => _covers_requirement tc req) testcases).

(** The recommendation appended for an uncovered requirement. *)
Definition coverage_recommendation (req : pystr) : recommendation :=
  {| rec_type := lit "coverage";
     severity := lit "high";
     message := lit "Requirement not covered: " ++ slice_to 80 req;
     action := lit "Create test case for this requirement" |}.

(** [bool(covered_by)] *)
Definition nonempty {A : Type} (l : list A) : bool :=
  match l with
  | [] => false
  | _ :: _ => true
  end.

(** One turn of the loop [for req in requirements]. *)
Definition coverage_step (testcases : list Dto.TestCaseDTO)
    (acc : list coverage_item * list recommendation) (req : pystr)
  : list coverage_item * list recommendation :=
  let '(coverage, recommendations) := acc in
  let covered_by := covered_by testcases req in
  let coverage :=
    coverage ++ [ {| requirement := req;
                     covered := nonempty covered_by;
                     testcases := covered_by |} ] in
  if nonempty covered_by then (coverage, recommendations)
  else (coverage, recommendations ++ [coverage_recommendation req]).

(** [_check_coverage(testcases, requirements_text)] *)
Definition _check_coverage (testcases : list Dto.TestCaseDTO)
    (requirements_text : pystr) : coverage_result :=
  let requirements := requirement_lines requirements_text in
  let '(coverage, recommendations) :=
    fold_left (coverage_step testcases) requirements ([], []) in
  let percent :=
    if nonempty coverage then
      Qmult
        (Qdiv
           (inject_Z (len_list (List.filter covered coverage)))
           (inject_Z (len_list coverage)))
        (inject_Z 100)
    else inject_Z 0 in
  {| coverage := coverage;
     coverage_percent := percent;
     recommendations := recommendations |}.

(** *** The duplicate check as the specification words it *)

(** CRITICAL above NORMAL above LOW. *)
Definition priority_rank (p : TestPriority) : nat :=
  match p with
  | CRITICAL => 2
  | NORMAL => 1
  | LOW => 0
  end.

(** The case to keep: the one of higher priority, the first on a
    tie. *)
Definition claimed_keep (tc other : Dto.TestCaseDTO) : Dto.TestCaseDTO :=
  if (priority_rank (Dto.priority other) <=? priority_rank (Dto.priority tc))%nat
  then tc else other.

(** *** The coverage check as the specification words it *)

(** A requirement line is covered when its lower-cased text occurs in
    the lower-cased, space-joined title, story and steps of some test
    case. *)
Definition occurs_in (needle text : pystr) : Prop :=
  exists before after, text = before ++ needle ++ after.

Definition line_covered (testcases : list Dto.TestCaseDTO) (req : pystr)
  : Prop :=
  exists tc, In tc testcases
    /\ occurs_in (str_lower req)
         (str_lower
            (Dto.title tc ++ [space] ++ Dto.story tc ++ [space]
             ++ join [space] (Dto.steps tc))).

(** The trimmed lines longer than 8 characters, at most the first 50. *)
Definition claimed_lines (requirements_text : pystr) : list pystr :=
  firstn 50
    (List.filter (fun l => 8 <? len l)
       (map strip (splitlines requirements_text))).

End WithRuntime.

(** *** The check for outdated cases *)

Record outdated_item : Type := {
  out_id : pystr;
  out_title : pystr;
  reasons : list pystr
}.

Record outdated_result : Type := {
  outdated : list outdated_item;
  out_recommendations : list recommendation
}.

(** The list [reasons] that the loop body builds for a case. *)
Definition outdated_reasons (tc : Dto.TestCaseDTO) : list pystr :=
  let reasons := [] in
  let reasons :=
    match Dto.priority tc with
    | LOW => reasons ++ [lit "Low priority test; consider review"]
    | _ => reasons
    end in
  match Dto.updated_at tc with
  | None => reasons ++ [lit "Never updated"]
  | Some _ => reasons
  end.

Definition outdated_entry (tc : Dto.TestCaseDTO) : outdated_item :=
  {| out_id := str_of_uuid (Dto.id tc);
     out_title := Dto.title tc;
     reasons := outdated_reasons tc |}.

Definition outdated_recommendation (tc : Dto.TestCaseDTO)
  : recommendation :=
  {| rec_type := lit "outdated";
     severity := lit "medium";
     message := Dto.title tc ++ lit " may be outdated";
     action := join (lit "; ") (outdated_reasons tc) |}.

(** One turn of the loop [for tc in testcases]. *)
Definition outdated_step
    (acc : list outdated_item * list recommendation)
    (tc : Dto.TestCaseDTO)
  : list outdated_item * list recommendation :=
  let '(outdated, recommendations) := acc in
  if nonempty (outdated_reasons tc) then
    (outdated ++ [outdated_entry tc],
     recommendations ++ [outdated_recommendation tc])
  else acc.

(** [_flag_outdated(testcases)] *)
Definition _flag_outdated (testcases : list Dto.TestCaseDTO)
  : outdated_result :=
  let '(outdated, recommendations) :=
    fold_left outdated_step testcases ([], []) in
  {| outdated := outdated; out_recommendations := recommendations |}.

(** *** The agent's entry point *)

Module Input.
Record OptimizationInput : Type := {
  job_id : UUID;
  testcases : list Dto.TestCaseDTO;
  requirements_text : option pystr;
  checks : list pystr;
  similarity_threshold : Q
}.
End Input.

Module Output.
(** The dictionary [analysis]: a key is present when its check ran. *)
Record analysis_dict : Type := {
  an_duplicates : option duplicates_result;
  an_coverage : option coverage_result;
  an_outdated : option outdated_result
}.

Record OptimizationOutput : Type := {
  success : bool;
  error : option pystr;
  analysis : analysis_dict;
  recommendations : list recommendation;
  optimized_testcases : list Dto.TestCaseDTO
}.
End Output.

Section Execute.
Context {R : Runtime}.

(** [name in input_data.checks] *)
Definition has_check (name : pystr) (input_data : Input.OptimizationInput)
  : bool :=
  bool_decide (name ∈ Input.checks input_data).

(** [execute(input_data)].  None of the three checks has an operation
    that raises (the one division, by [len(coverage)], is guarded), so
    the handler of the [try], which would answer [success=False], is
    not entered. *)
Definition execute (input_data : Input.OptimizationInput)
  : Output.OptimizationOutput :=
  let analysis :=
    {| Output.an_duplicates := None;
       Output.an_coverage := None;
       Output.an_outdated := None |} in
  let recommendations : list recommendation := [] in
  let '(analysis, recommendations) :=
    if has_check (lit "duplicates") input_data then
      let dup_result :=
        _find_duplicates (Input.testcases input_data)
          (Input.similarity_threshold input_data) in
      ({| Output.an_duplicates := Some dup_result;
          Output.an_coverage := Output.an_coverage analysis;
          Output.an_outdated := Output.an_outdated analysis |},
       recommendations ++ dup_recommendations dup_result)
    else (analysis, recommendations) in
  let '(analysis, recommendations) :=
    match Input.requirements_text input_data with
    | Some ((_ :: _) as requirements_text) =>
        if has_check (lit "coverage") input_data then
          let cov_result :=
            _check_coverage (Input.testcases input_data)
              requirements_text in
          ({| Output.an_duplicates := Output.an_duplicates analysis;
              Output.an_coverage := Some cov_result;
              Output.an_outdated := Output.an_outdated analysis |},
           recommendations
             ++ OptimizationAgent.recommendations cov_result)
        else (analysis, recommendations)
    | _ => (analysis, recommendations)
    end in
  let '(analysis, recommendations) :=
    if has_check (lit "outdated") input_data then
      let outdated_result := _flag_outdated (Input.testcases input_data) in
      ({| Output.an_duplicates := Output.an_duplicates analysis;
          Output.an_coverage := Output.an_coverage analysis;
          Output.an_outdated := Some outdated_result |},
       recommendations ++ out_recommendations outdated_result)
    else (analysis, recommendations) in
  let optimized := Input.testcases input_data in
  {| Output.success := true;
     Output.error := None;
     Output.analysis := analysis;
     Output.recommendations := recommendations;
     Output.optimized_testcases := optimized |}.

End Execute.

(** *** The pairs that the duplicate check compares *)

(** Every case with every later case, in the order of the two loops. *)
Fixpoint ordered_pairs (testcases : list Dto.TestCaseDTO)
  : list (Dto.TestCaseDTO * Dto.TestCaseDTO) :=
  match testcases with
  | [] => []
  | tc :: rest => map (pair tc) rest ++ ordered_pairs rest
  end.

End OptimizationAgent.

(** ** services/llm_client.py, as the agents use it *)

Module LLM.

(** The client: [generate_json(prompt, system_prompt, temperature)]
    and [generate(prompt, ...)], each of which returns a value or
    raises. *)
Record LLMClient : Type := {
  generate_json : pystr -> pystr -> Q -> result pyval;
  generate : pystr -> result pystr
}.

(** A client all of whose calls raise. *)
Definition always_fails (client : LLMClient) : Prop :=
  (forall prompt system_prompt temperature,
      exists e, generate_json client prompt system_prompt temperature
                = Raise e)
  /\ (forall prompt, exists e, generate client prompt = Raise e).

End LLM.

(** ** agents/manual_to_ui_tests.py *)

Module ManualToUITests.

Module File.
Record GeneratedTestFile : Type := {
  filename : pystr;
  test_file : pystr;
  test_count : Z;
  framework : pystr;
  browsers : list pystr
}.
End File.

Module Input.
Record ManualToUITestsInput : Type := {
  job_id : UUID;
  testcases : list Dto.TestCaseDTO;
  framework : pystr;
  browsers : list pystr;
  base_url : pystr;
  headless : bool;
  viewport : gmap pystr Z;
  timeout : Z;
  priority_filter : option (list pystr)
}.
End Input.

(** The output, without the time stamp [generated_at]. *)
Module Output.
Record ManualToUITestsOutput : Type := {
  success : bool;
  error : option pystr;
  generated_tests : list File.GeneratedTestFile;
  total_tests : Z;
  framework : pystr;
  browsers : list pystr
}.
End Output.

Section WithRuntime.
Context {R : Runtime}.
Variable llm_client : LLM.LLMClient.

(** [ManualToUITestsOutput(success=False, error=...)] with the defaults
    of the other fields. *)
Definition failure (error : pystr) : Output.ManualToUITestsOutput :=
  {| Output.success := false;
     Output.error := Some error;
     Output.generated_tests := [];
     Output.total_tests := 0;
     Output.framework := lit "playwright";
     Output.browsers := [] |}.

Definition get_system_prompt : pystr :=
  lit "You are a senior QA automation engineer. "
  ++ lit "Convert the provided manual UI test cases into Playwright + pytest tests. "
  ++ lit "Use Allure annotations (feature, story, title) and keep steps as comments. "
  ++ lit "Return JSON with a list 'tests', each item containing filename, "
  ++ lit "python_code, and test_count.".

(** [BaseAgent.generate_structured_response(prompt, temperature)] *)
Definition generate_structured_response (prompt : pystr) (temperature : Q)
  : result pyval :=
  LLM.generate_json llm_client prompt get_system_prompt temperature.

(** [_filter_by_priority(testcases, priority_filter)] *)
Definition _filter_by_priority (testcases : list Dto.TestCaseDTO)
    (priority_filter : option (list pystr)) : list Dto.TestCaseDTO :=
  match priority_filter with
  | None | Some [] => testcases
  | Some tokens =>
      let normalized := map str_upper tokens in
      List.filter
        (fun tc =>
           bool_decide (TestPriority_value (Dto.priority tc) ∈ normalized))
        testcases
  end.

(** A word character of a regular expression. *)
Definition is_word (c : N) : bool := isalnum c || (c =? underscore)%N.

(** [_sanitize_filename(value)] *)
Definition _sanitize_filename (value : pystr) : pystr :=
  let clean :=
    map (fun c => if is_word c || (c =? 45)%N || (c =? 46)%N then c
                  else underscore)
        (str_lower (strip value)) in
  match clean with
  | [] => lit "test_ui"
  | _ => clean
  end.

(** [BaseAgent._to_test_name(text)] *)
Definition _to_test_name (text : pystr) : pystr :=
  let clean :=
    List.filter (fun c => is_word c || isspace c) (str_lower text) in
  let words := split clean in
  lit "test_" ++ join [underscore] (firstn 6 words).

(** The text of one entry of [cases_summary]. *)
Definition case_summary (idx : nat) (tc : Dto.TestCaseDTO) : pystr :=
  str_of_int (Z.of_nat idx) ++ lit ". " ++ Dto.title tc ++ nl
  ++ lit "Feature: " ++ Dto.feature tc ++ lit "; Story: " ++ Dto.story tc
  ++ lit "; Priority: " ++ TestPriority_value (Dto.priority tc) ++ nl
  ++ lit "Steps: " ++ repr_of_strings (Dto.steps tc) ++ nl
  ++ lit "Expected: " ++ Dto.expected_result tc.

(** [_build_prompt(input_data, testcases)]: the subscripts
    [viewport['width']] and [viewport['height']] raise [KeyError] when
    the key is missing. *)
Definition _build_prompt (input_data : Input.ManualToUITestsInput)
    (testcases : list Dto.TestCaseDTO) : result pystr :=
  let cases_summary :=
    imap (fun idx tc => case_summary (S idx) tc) testcases in
  match Input.viewport input_data !! lit "width" with
  | None => Raise (KeyError (lit "width"))
  | Some width =>
      match Input.viewport input_data !! lit "height" with
      | None => Raise (KeyError (lit "height"))
      | Some height =>
          Return
            (lit "Base URL: " ++ Input.base_url input_data ++ nl
             ++ lit "Framework: " ++ Input.framework input_data ++ nl
             ++ lit "Browsers: "
             ++ join (lit ", ") (Input.browsers input_data) ++ nl
             ++ lit "Viewport: " ++ str_of_int width ++ lit "x"
             ++ str_of_int height ++ nl
             ++ lit "Headless: "
             ++ (if Input.headless input_data then lit "True"
                 else lit "False") ++ nl
             ++ lit "Timeout: " ++ str_of_int (Input.timeout input_data)
             ++ lit " ms" ++ nl
             ++ lit "Manual test cases:" ++ nl
             ++ join (nl ++ nl) cases_summary
             ++ nl ++ nl ++ lit "Return JSON with key 'tests': ["
             ++ lit "{" ++ dq ++ lit "filename" ++ dq ++ lit ": " ++ dq
             ++ lit "..." ++ dq ++ lit ", " ++ dq ++ lit "python_code" ++ dq
             ++ lit ": " ++ dq ++ lit "..." ++ dq ++ lit ", " ++ dq
             ++ lit "test_count" ++ dq ++ lit ": <int>}]. "
             ++ lit "Each python_code must be valid pytest with Playwright page fixture.")
      end
  end.

(** The body of the loop [for test in tests] of [_parse_response]; an
    exception inside it is logged and the item skipped. *)
Definition parse_item (input_data : Input.ManualToUITestsInput)
    (files : list File.GeneratedTestFile) (test : pyval)
  : list File.GeneratedTestFile :=
  match test with
  | PDict entries =>
      let filename := str_of_value (dict_get entries (lit "filename") PNone) in
      let code := str_of_value (dict_get entries (lit "python_code") PNone) in
      let filename :=
        match filename with
        | [] => lit "test_ui_" ++ str_of_int (len_list files + 1) ++ lit ".py"
        | _ => filename
        end in
      match code with
      | [] => files
      | _ =>
          match int_of_value (dict_get entries (lit "test_count") (PInt 1)) with
          | Raise _ => files
          | Return count =>
              files ++
                [ {| File.filename := _sanitize_filename filename;
                     File.test_file := code;
                     File.test_count := count;
                     File.framework := Input.framework input_data;
                     File.browsers := Input.browsers input_data |} ]
          end
      end
  | _ => files
  end.

(** [_parse_response(response, input_data)] *)
Definition _parse_response (response : pyval)
    (input_data : Input.ManualToUITestsInput)
  : result (list File.GeneratedTestFile) :=
  let tests :=
    match response with
    | PDict entries => dict_get entries (lit "tests") PNone
    | _ => PNone
    end in
  if truthy tests then
    match iterate tests with
    | Raise e => Raise e
    | Return items => Return (fold_left (parse_item input_data) items [])
    end
  else Return [].

(** [_build_stub(testcase, input_data)] *)
Definition _build_stub (testcase : Dto.TestCaseDTO)
    (input_data : Input.ManualToUITestsInput) : pystr :=
  let test_name := _to_test_name (Dto.title testcase) in
  let steps_code :=
    join nl
      (imap (fun idx step =>
               lit "        # Step " ++ str_of_int (Z.of_nat (S idx))
               ++ lit ": " ++ step)
            (Dto.steps testcase)) in
  let steps_code :=
    match steps_code with
    | [] => lit "        # TODO: implement steps" ++ nl
    | _ => steps_code
    end in
  lit "import allure" ++ nl
  ++ lit "import pytest" ++ nl
  ++ lit "from playwright.sync_api import Page, expect" ++ nl ++ nl
  ++ lit "@allure.feature('" ++ Dto.feature testcase ++ lit "')" ++ nl
  ++ lit "@allure.story('" ++ Dto.story testcase ++ lit "')" ++ nl
  ++ lit "@allure.title('" ++ Dto.title testcase ++ lit "')" ++ nl
  ++ lit "def " ++ test_name ++ lit "(page: Page):" ++ nl
  ++ lit "    page.goto('" ++ Input.base_url input_data ++ lit "')" ++ nl
  ++ steps_code ++ nl
  ++ lit "    # Add assertions with expect(...)" ++ nl.

(** [_fallback_file(testcase, input_data)] *)
Definition _fallback_file (testcase : Dto.TestCaseDTO)
    (input_data : Input.ManualToUITestsInput) : File.GeneratedTestFile :=
  let slug :=
    _sanitize_filename
      (match Dto.feature testcase with
       | [] => lit "ui"
       | feature => feature
       end) in
  {| File.filename := lit "test_" ++ slug ++ lit ".py";
     File.test_file := _build_stub testcase input_data;
     File.test_count := 1;
     File.framework := Input.framework input_data;
     File.browsers := Input.browsers input_data |}.

(** [sum(file.test_count for file in generated_files)] *)
Definition sum_test_count (files : list File.GeneratedTestFile) : Z :=
  fold_left Z.add (map File.test_count files) 0.

(** [execute(input_data)].  The inner [try] swallows every exception of
    the call to the model and of the parsing; the outer one turns every
    other exception into an output with [success=False]. *)
Definition execute (input_data : Input.ManualToUITestsInput)
  : Output.ManualToUITestsOutput :=
  let filtered :=
    _filter_by_priority (Input.testcases input_data)
      (Input.priority_filter input_data) in
  match filtered with
  | [] => failure (lit "No testcases to convert after applying priority filter")
  | _ =>
      match _build_prompt input_data filtered with
      | Raise exc => failure (str_of_exn exc)
      | Return prompt =>
          let generated_files :=
            match generate_structured_response prompt (35 # 100) with
            | Raise _ => []
            | Return response =>
                match _parse_response response input_data with
                | Raise _ => []
                | Return files => files
                end
            end in
          let generated_files :=
            match generated_files with
            | [] => map (fun tc => _fallback_file tc input_data) filtered
            | _ => generated_files
            end in
          {| Output.success := true;
             Output.error := None;
             Output.generated_tests := generated_files;
             Output.total_tests := sum_test_count generated_files;
             Output.framework := Input.framework input_data;
             Output.browsers := Input.browsers input_data |}
      end
  end.

End WithRuntime.

End ManualToUITests.

(** ** agents/testplan_agent.py *)

Module TestPlanAgent.

Inductive TestPlanType : Type :=
| REGRESSION | SMOKE | SANITY | FULL | RELEASE.

Module Input.
Record TestPlanInput : Type := {
  job_id : UUID;
  testcases : list Dto.TestCaseDTO;
  requirements : option pystr;
  plan_type : TestPlanType;
  priority_filter : option (list TestPriority);
  target_duration_hours : option Q
}.
End Input.

Record TestPlanPhase : Type := {
  name : pystr;
  description : pystr;
  duration_hours : Q;
  phase_testcases : list UUID;
  objectives : list pystr;
  entry_criteria : list pystr;
  exit_criteria : list pystr
}.

Record TestPlanResource : Type := {
  role : pystr;
  count : Z;
  skills : list pystr;
  responsibilities : list pystr
}.

(** [TestPlanOutput], with the fields [success] and [error] of its base
    class, which [execute] sets; the base class itself is not part of
    [base_agent.py]. *)
Module Output.
Record TestPlanOutput : Type := {
  success : bool;
  error : option pystr;
  test_plan : pyval;
  phases : list TestPlanPhase;
  resources : list TestPlanResource;
  schedule : pyval;
  risk_assessment : pyval
}.
End Output.

(** The dictionary that [_analyze_testcases] returns. *)
Record analysis : Type := {
  by_priority : gmap pystr Z;
  by_feature : gmap pystr Z;
  by_story : gmap pystr Z;
  total_hours : Q;
  hours_by_priority : gmap pystr Q
}.

Definition priority_eqb (p q : TestPriority) : bool :=
  match p, q with
  | CRITICAL, CRITICAL | NORMAL, NORMAL | LOW, LOW => true
  | _, _ => false
  end.

(** [_filter_testcases(testcases, priority_filter)] *)
Definition _filter_testcases (testcases : list Dto.TestCaseDTO)
    (priority_filter : option (list TestPriority))
  : list Dto.TestCaseDTO :=
  match priority_filter with
  | None | Some [] => testcases
  | Some allowed =>
      List.filter
        (fun tc => existsb (priority_eqb (Dto.priority tc)) allowed)
        testcases
  end.

(** The table [duration_estimates] with its default. *)
Definition duration_estimate (priority : pystr) : Q :=
  if bool_decide (priority = lit "CRITICAL") then 25 # 100
  else if bool_decide (priority = lit "NORMAL") then 166 # 1000
  else if bool_decide (priority = lit "LOW") then 83 # 1000
  else 166 # 1000.

Definition increment (m : gmap pystr Z) (key : pystr) : gmap pystr Z :=
  <[key := default 0 (m !! key) + 1]> m.

(** The body of the loop of [_analyze_testcases]. *)
Definition analyze_step (a : analysis) (tc : Dto.TestCaseDTO) : analysis :=
  let priority := TestPriority_value (Dto.priority tc) in
  let tc_duration := duration_estimate priority in
  {| by_priority := increment (by_priority a) priority;
     by_feature := increment (by_feature a) (Dto.feature tc);
     by_story := increment (by_story a) (Dto.story tc);
     total_hours := Qplus (total_hours a) tc_duration;
     hours_by_priority :=
       <[priority :=
           Qplus (default (inject_Z 0) (hours_by_priority a !! priority))
                 tc_duration]> (hours_by_priority a) |}.

(** [_analyze_testcases(testcases)] *)
Definition _analyze_testcases (testcases : list Dto.TestCaseDTO)
  : analysis :=
  fold_left analyze_step testcases
    {| by_priority :=
         <[lit "CRITICAL" := 0]>
           (<[lit "NORMAL" := 0]> (<[lit "LOW" := 0]> ∅));
       by_feature := ∅;
       by_story := ∅;
       total_hours := inject_Z 0;
       hours_by_priority := ∅ |}.

(** [re.search(r'\{.*\}', text, re.DOTALL)]: the text from the first
    opening brace to the last closing brace after it, if there is
    one. *)
Definition search_braces (text : pystr) : option pystr :=
  match rstrip_with (fun c => negb (c =? 125)%N)
          (lstrip_with (fun c => negb (c =? 123)%N) text) with
  | [] => None
  | region => Some region
  end.

(** [section in data] *)
Definition value_contains (data : pyval) (section : pystr) : result bool :=
  match data with
  | PDict entries => Return (dict_has entries section)
  | PList items =>
      Return
        (existsb
           (fun v =>
              match v with
              | PStr s => bool_decide (s = section)
              | _ => false
              end)
           items)
  | PStr s => Return (contains s section)
  | _ => Raise (OtherError (lit "argument is not iterable"))
  end.

(** [TestPlanOutput(success=False, error=..., test_plan={}, phases=[],
    resources=[])] *)
Definition failure (error : pystr) : Output.TestPlanOutput :=
  {| Output.success := false;
     Output.error := Some error;
     Output.test_plan := PDict [];
     Output.phases := [];
     Output.resources := [];
     Output.schedule := PDict [];
     Output.risk_assessment := PDict [] |}.

Section Agent.

(** [json.loads]: the value of a JSON text, or [JSONDecodeError]. *)
Variable json_loads : pystr -> result pyval.

(** The call [_measure_execution_time(_call_llm, prompt, ...)]: the
    text that the model returns, or an exception.  Both methods are
    used by [execute] and are not part of [base_agent.py]; neither is
    [self.logger], whose calls are taken to log and return. *)
Variable _call_llm : pystr -> result pystr.

(** The text that [_build_prompt] formats from the test cases, their
    analysis and the input: a fixed template, whose formatting does not
    raise. *)
Variable prompt_text :
  list Dto.TestCaseDTO -> analysis -> Input.TestPlanInput -> pystr.

(** What follows the parsing in [execute]: the enrichment of the plan,
    the construction of phases and resources and of the output; any of
    them may raise. *)
Variable build_output :
  Input.TestPlanInput -> list Dto.TestCaseDTO -> analysis -> pyval ->
  result Output.TestPlanOutput.

(** The loop over [required_sections]. *)
Fixpoint check_sections (data : pyval) (sections : list pystr)
  : result unit :=
  match sections with
  | [] => Return tt
  | section :: rest =>
      present <- value_contains data section ;;
      if present then check_sections data rest
      else Raise (ValueError
                    (lit "Отсутствует обязательный раздел: " ++ section))
  end.

(** [_parse_llm_response(llm_response)]: a [JSONDecodeError] becomes a
    [ValueError], every other exception is raised again. *)
Definition _parse_llm_response (llm_response : pystr) : result pyval :=
  match search_braces llm_response with
  | None =>
      Raise (ValueError (lit "Не удалось извлечь JSON из ответа LLM"))
  | Some region =>
      match json_loads region with
      | Raise (JSONDecodeError msg) =>
          Raise (ValueError (lit "Некорректный JSON в ответе LLM: " ++ msg))
      | Raise e => Raise e
      | Return data =>
          _ <- check_sections data [lit "test_plan"; lit "phases"] ;;
          Return data
      end
  end.

(** The body of the [try] block of [execute]. *)
Definition attempt (input_data : Input.TestPlanInput)
  : result Output.TestPlanOutput :=
  let filtered_testcases :=
    _filter_testcases (Input.testcases input_data)
      (Input.priority_filter input_data) in
  match filtered_testcases with
  | [] =>
      Raise (ValueError (lit "Нет тест-кейсов для включения в тест-план"))
  | _ =>
      let testcase_analysis := _analyze_testcases filtered_testcases in
      let prompt :=
        prompt_text filtered_testcases testcase_analysis input_data in
      llm_response <- _call_llm prompt ;;
      test_plan_data <- _parse_llm_response llm_response ;;
      build_output input_data filtered_testcases testcase_analysis
        test_plan_data
  end.

(** [execute(input_data)]: [except Exception as e] returns an output
    with [success=False] and [error=str(e)]. *)
Definition execute (input_data : Input.TestPlanInput)
  : result Output.TestPlanOutput :=
  match attempt input_data with
  | Return output => Return output
  | Raise e => Return (failure (str_of_exn e))
  end.

End Agent.

(** *** The failure of the parsing as the specification words it *)


End TestPlanAgent.

(** ** storage/job_storage.py and services/job_manager.py *)

Module JobManager.

Inductive JobStatus : Type :=
| PENDING | PROCESSING | COMPLETED | FAILED | CANCELLED.

(** [JobResponse] of [models/dto.py]. *)
Record JobResponse : Type := {
  job_id : UUID;
  status : JobStatus;
  message : option pystr;
  estimated_time : option Z;
  created_at : datetime;
  updated_at : option datetime;
  testcases : list pyval;
  download_url : option pystr;
  metrics : option (list (pystr * pyval))
}.

(** The fields that an [updates] dictionary of [update_job_status]
    can carry. *)
Record updates : Type := {
  upd_status : option JobStatus;
  upd_message : option pystr
}.

(** [JobStorage]: the dictionary [_jobs].  Its keys are [str(job_id)],
    which is injective, so the map is keyed by the id. *)
Record JobStorage : Type := { _jobs : gmap UUID JobResponse }.

(** [JobStorage.update_job]; [now] is [datetime.now()] at the call. *)
Definition update_job (now : datetime) (st : JobStorage)
    (id : UUID) (u : updates) : result JobResponse * JobStorage :=
  match _jobs st !! id with
  | None => (Raise (JobNotFoundException id), st)
  | Some job =>
      let updated_job :=
        {| job_id := job_id job;
           status := default (status job) (upd_status u);
           message :=
             match upd_message u with
             | Some m => Some m
             | None => message job
             end;
           estimated_time := estimated_time job;
           created_at := created_at job;
           updated_at := Some now;
           testcases := testcases job;
           download_url := download_url job;
           metrics := metrics job |} in
      (Return updated_job, {| _jobs := <[id := updated_job]> (_jobs st) |})
  end.

(** [JobStorage.update_job_status]: the message is part of the update
    only when it is given and not empty. *)
Definition update_job_status (now : datetime) (st : JobStorage)
    (id : UUID) (new_status : JobStatus) (msg : option pystr)
  : result JobResponse * JobStorage :=
  let u :=
    {| upd_status := Some new_status;
       upd_message :=
         match msg with
         | Some ((_ :: _) as m) => Some m
         | _ => None
         end |} in
  update_job now st id u.

(** What awaiting a task gives once [cancel] has been requested: the
    task was cancelled, it had already returned, or it had already
    failed with an exception. *)
Inductive Task : Type :=
| TaskCancelled
| TaskReturned
| TaskFailed (e : exn).

(** [JobManager]: the storage, the running tasks and the callbacks
    (of which only the registered ids matter here). *)
Record JobManager : Type := {
  job_storage : JobStorage;
  running_tasks : gmap UUID Task;
  task_callbacks : gset UUID
}.

(** [_cleanup_task], the done-callback of every task. *)
Definition _cleanup_task (m : JobManager) (id : UUID) : JobManager :=
  {| job_storage := job_storage m;
     running_tasks := delete id (running_tasks m);
     task_callbacks := task_callbacks m ∖ {[id]} |}.

(** [cancel_job(job_id)].  When the task is registered it is cancelled
    and awaited; the task is then done, so its done-callback has
    cleaned up.  [CancelledError] is swallowed, any other exception of
    the task leaves [cancel_job].  Then the job is marked FAILED. *)
Definition cancel_job (now : datetime) (m : JobManager) (id : UUID)
  : result bool * JobManager :=
  match running_tasks m !! id with
  | Some task =>
      let m1 := _cleanup_task m id in
      match task with
      | TaskFailed e => (Raise e, m1)
      | TaskCancelled | TaskReturned =>
          let '(r, st) :=
            update_job_status now (job_storage m1) id FAILED
              (Some (lit "Job cancelled by user")) in
          let m2 :=
            {| job_storage := st;
               running_tasks := running_tasks m1;
               task_callbacks := task_callbacks m1 |} in
          match r with
          | Return _ => (Return true, m2)
          | Raise e => (Raise e, m2)
          end
      end
  | None => (Return false, m)
  end.

(** [get_job_status] *)
Definition get_job_status (m : JobManager) (id : UUID)
  : option JobResponse :=
  _jobs (job_storage m) !! id.

(** [JobStorage.create_job(job_type, metadata)]; [new_id] is the
    [uuid4()] and [now] the [datetime.now()] of the call.  The job
    type is not stored; [metadata or {}] becomes the metrics. *)
Definition create_job (new_id : UUID) (now : datetime) (st : JobStorage)
    (job_type : pystr) (metadata : option (list (pystr * pyval)))
  : JobResponse * JobStorage :=
  let job :=
    {| job_id := new_id;
       status := PENDING;
       message := Some (lit "Job created");
       estimated_time := None;
       created_at := now;
       updated_at := Some now;
       testcases := [];
       download_url := None;
       metrics := Some (default [] metadata) |} in
  (job, {| _jobs := <[new_id := job]> (_jobs st) |}).

(** [JobStorage.get_job] *)
Definition get_job (st : JobStorage) (id : UUID) : option JobResponse :=
  _jobs st !! id.

(** [JobStorage.delete_job] *)
Definition delete_job (st : JobStorage) (id : UUID) : bool * JobStorage :=
  match _jobs st !! id with
  | Some _ => (true, {| _jobs := delete id (_jobs st) |})
  | None => (false, st)
  end.

(** [timedelta(days=days)], in the unit of [datetime]. *)
Definition timedelta_days (days : Z) : Z := days * 86400.

(** [JobStorage.cleanup_old_jobs(days)]: the ids of the jobs created
    before the cut-off are collected first, then deleted one by one
    while the counter goes up.  The dictionary is walked in its own
    order; the result does not depend on it. *)
Definition cleanup_old_jobs (now : datetime) (st : JobStorage) (days : Z)
  : Z * JobStorage :=
  let cutoff_time := now - timedelta_days days in
  let to_delete :=
    map fst
      (List.filter (fun kv : UUID * JobResponse =>
                      created_at (snd kv) <? cutoff_time)
         (map_to_list (_jobs st))) in
  let '(jobs, deleted_count) :=
    fold_left (fun (acc : gmap UUID JobResponse * Z) (id : UUID) =>
                 (delete id (fst acc), snd acc + 1))
      to_delete (_jobs st, 0) in
  (deleted_count, {| _jobs := jobs |}).

(** The dictionary [status_counts] of [get_job_statistics]: it has
    the four keys PENDING, PROCESSING, COMPLETED and FAILED. *)
Record status_counts : Type := {
  n_pending : Z;
  n_processing : Z;
  n_completed : Z;
  n_failed : Z
}.

(** [status_counts[job.status] += 1], guarded by
    [job.status in status_counts]. *)
Definition count_status (c : status_counts) (s : JobStatus)
  : status_counts :=
  match s with
  | PENDING =>
      {| n_pending := n_pending c + 1; n_processing := n_processing c;
         n_completed := n_completed c; n_failed := n_failed c |}
  | PROCESSING =>
      {| n_pending := n_pending c; n_processing := n_processing c + 1;
         n_completed := n_completed c; n_failed := n_failed c |}
  | COMPLETED =>
      {| n_pending := n_pending c; n_processing := n_processing c;
         n_completed := n_completed c + 1; n_failed := n_failed c |}
  | FAILED =>
      {| n_pending := n_pending c; n_processing := n_processing c;
         n_completed := n_completed c; n_failed := n_failed c + 1 |}
  | CANCELLED => c
  end.

(** The integer part of what [get_job_statistics] returns; the
    percentages and the average, rounded floats, are left out. *)
Record statistics : Type := {
  total_jobs : Z;
  counts : status_counts;
  total_testcases : Z
}.

(** One turn of the loop over the jobs. *)
Definition statistics_step (acc : status_counts * Z) (job : JobResponse)
  : status_counts * Z :=
  (count_status (fst acc) (status job),
   match testcases job with
   | [] => snd acc
   | _ :: _ => snd acc + len_list (testcases job)
   end).

(** [JobStorage.get_job_statistics] *)
Definition get_job_statistics (st : JobStorage) : statistics :=
  let jobs := map snd (map_to_list (_jobs st)) in
  let '(c, n) :=
    fold_left statistics_step jobs
      ({| n_pending := 0; n_processing := 0;
          n_completed := 0; n_failed := 0 |}, 0) in
  {| total_jobs := len_list jobs; counts := c; total_testcases := n |}.

(** The sum of the four counters, and the jobs that have one. *)
Definition counted (c : status_counts) : Z :=
  n_pending c + n_processing c + n_completed c + n_failed c.

Definition has_counter (job : JobResponse) : bool :=
  match status job with
  | CANCELLED => false
  | _ => true
  end.


(** [JobManager.start_job(job_id, task_func, ...)]; [task] is the task
    that [asyncio.create_task] makes.  The test [if not job] after the
    update cannot fire: a missing job has raised inside the update. *)
Definition start_job (now : datetime) (m : JobManager) (id : UUID)
    (task : Task) : result JobResponse * JobManager :=
  let '(r, st) :=
    update_job_status now (job_storage m) id PROCESSING
      (Some (lit "Job started")) in
  match r with
  | Raise e =>
      (Raise e, {| job_storage := st;
                   running_tasks := running_tasks m;
                   task_callbacks := task_callbacks m |})
  | Return job =>
      (Return job, {| job_storage := st;
                      running_tasks := <[id := task]> (running_tasks m);
                      task_callbacks := task_callbacks m |})
  end.

(** [JobManager.is_job_running] *)
Definition is_job_running (m : JobManager) (id : UUID) : bool :=
  bool_decide (is_Some (running_tasks m !! id)).

End JobManager.

(** ** Concrete inputs used below *)

Module Inputs.

(** Twenty letters followed by 9981 spaces: 10001 characters. *)
Definition padded_requirements : pystr :=
  repeat 97%N 20 ++ repeat space (Z.to_nat 9981).

(** A manager that stores job 7, being processed since time 100, and
    runs no task. *)
Definition idle_manager : JobManager.JobManager :=
  {| JobManager.job_storage :=
       {| JobManager._jobs :=
            {[ 7%N :=
                 {| JobManager.job_id := 7%N;
                    JobManager.status := JobManager.PROCESSING;
                    JobManager.message := Some (lit "Job started");
                    JobManager.estimated_time := None;
                    JobManager.created_at := 100;
                    JobManager.updated_at := Some 100;
                    JobManager.testcases := [];
                    JobManager.download_url := None;
                    JobManager.metrics := Some [] |} ]} |};
     JobManager.running_tasks := ∅;
     JobManager.task_callbacks := ∅ |}.

(** A test case with the given id, title, priority and steps. *)
Definition testcase (id : UUID) (title : string) (priority : TestPriority)
    (steps : list string) : Dto.TestCaseDTO :=
  {| Dto.id := id;
     Dto.title := lit title;
     Dto.feature := lit "auth";
     Dto.story := lit "login";
     Dto.priority := priority;
     Dto.steps := map lit steps;
     Dto.expected_result := lit "ok";
     Dto.python_code := lit "pass";
     Dto.test_type := MANUAL_UI;
     Dto.owner := lit "qa_team";
     Dto.created_at := 0;
     Dto.updated_at := None |}.

Definition tc_tide : Dto.TestCaseDTO := testcase 1%N "tide" NORMAL [].
Definition tc_diet : Dto.TestCaseDTO := testcase 2%N "diet" NORMAL [].

Definition tc_critical : Dto.TestCaseDTO :=
  testcase 3%N "login check a" CRITICAL ["open the page"; "sign in"].
Definition tc_normal : Dto.TestCaseDTO :=
  testcase 4%N "login check b" NORMAL ["open the page"; "sign in"].

Definition tc_login : Dto.TestCaseDTO :=
  testcase 5%N "Login Check" LOW ["Open the page"].
Definition tc_login_upper : Dto.TestCaseDTO :=
  testcase 6%N "LOGIN CHECK" LOW ["OPEN THE PAGE"].

(** Three requirement lines, of which the test case [tc_critical]
    covers the first only. *)
Definition three_requirements : pystr :=
  lit "  Open the page  " ++ nl ++ lit "pay by card" ++ nl
  ++ lit "export the report as a file".

(** A client whose every call raises. *)
Definition failing_client : LLM.LLMClient :=
  {| LLM.generate_json :=
       fun _ _ _ => Raise (OtherError (lit "LLM unavailable"));
     LLM.generate := fun _ => Raise (OtherError (lit "LLM unavailable")) |}.

(** The default viewport of [ManualToUITestsInput]. *)
Definition default_viewport : gmap pystr Z :=
  <[lit "width" := 1920]> (<[lit "height" := 1080]> ∅).

(** An input of the UI autotest agent with two manual test cases, no
    priority filter and the given viewport. *)
Definition ui_input (viewport : gmap pystr Z)
  : ManualToUITests.Input.ManualToUITestsInput :=
  {| ManualToUITests.Input.job_id := 0%N;
     ManualToUITests.Input.testcases := [tc_critical; tc_normal];
     ManualToUITests.Input.framework := lit "playwright";
     ManualToUITests.Input.browsers := [lit "chromium"];
     ManualToUITests.Input.base_url := lit "https://cloud.ru/calculator";
     ManualToUITests.Input.headless := true;
     ManualToUITests.Input.viewport := viewport;
     ManualToUITests.Input.timeout := 30000;
     ManualToUITests.Input.priority_filter := None |}.






(** A client that answers every request for JSON with the given
    value. *)
Definition json_client (response : pyval) : LLM.LLMClient :=
  {| LLM.generate_json := fun _ _ _ => Return response;
     LLM.generate := fun _ => Raise (OtherError (lit "not used")) |}.

(** An answer with two items: the first has a file name and code, the
    second has no code. *)
Definition two_items_response : pyval :=
  PDict
    [ (lit "tests",
       PList
         [ PDict [ (lit "filename", PStr (lit "Login Page.py"));
                   (lit "python_code", PStr (lit "pass")) ];
           PDict [ (lit "filename", PStr (lit "empty.py"));
                   (lit "python_code", PStr []) ] ]) ].

End Inputs.

(* ===================================================================== *)
(** * Properties *)

(** ** Estimated duration ([utils/helpers.py]) *)

Section EstimatedTime.
Import Helpers.

Lemma base_times_lookup (test_type : pystr) :
  default 30 (base_times !! test_type) = token_base test_type.
Proof.
  unfold token_base, base_times.
  repeat (case_decide;
          [ subst test_type; vm_compute; reflexivity
          | rewrite lookup_insert_ne by congruence ]).
  rewrite lookup_empty. reflexivity.
Qed.

Lemma int_of_float_scaled (base count : Z) :
  0 <= base -> 0 <= count ->
  int_of_float (Qmult (inject_Z (base * count)) (multiplier count))
  = scaled base count.
Proof.
  intros Hb Hc. unfold int_of_float, multiplier, scaled, tier.
  assert (0 <= base * count) by nia.
  destruct (count <=? 10); [| destruct (count <=? 30)]; cbn [Qmult Qnum Qden inject_Z].
  - rewrite Z.mul_1_r. apply Z.quot_1_r.
  - rewrite Z.quot_div_nonneg by lia. reflexivity.
  - rewrite Z.quot_div_nonneg by lia. reflexivity.
Qed.

Lemma max_min_clamp (x : Z) : Z.max 60 (Z.min x 1800) = clamp x 60 1800.
Proof.
  unfold clamp.
  destruct (Z.ltb_spec x 60); [lia|].
  destruct (Z.ltb_spec 1800 x); lia.
Qed.

Lemma token_base_nonneg (test_type : pystr) : 0 <= token_base test_type.
Proof. unfold token_base. repeat case_decide; lia. Qed.

Lemma estimate_eq (count : Z) (test_type : pystr) :
  0 <= count ->
  calculate_estimated_time count test_type
  = clamp (scaled (token_base test_type) count) 60 1800.
Proof.
  intros Hc. unfold calculate_estimated_time.
  rewrite base_times_lookup, int_of_float_scaled, max_min_clamp;
    auto using token_base_nonneg.
Qed.

Lemma scaled_mono (base c1 c2 : Z) :
  0 <= base -> 0 <= c1 -> c1 <= c2 -> tier c1 = tier c2 ->
  scaled base c1 <= scaled base c2.
Proof.
  intros Hb H1 H12 Ht. unfold scaled. rewrite <- Ht.
  destruct (tier c1) as [|[|?]].
  - nia.
  - apply Z.div_le_mono; nia.
  - apply Z.div_le_mono; nia.
Qed.

Lemma clamp_mono (x y lo hi : Z) :
  lo <= hi -> x <= y -> clamp x lo hi <= clamp y lo hi.
Proof.
  intros Hlh Hxy. unfold clamp.
  destruct (Z.ltb_spec x lo), (Z.ltb_spec y lo),
           (Z.ltb_spec hi x), (Z.ltb_spec hi y); lia.
Qed.

(** C4, as the specification states it, fails for the enumeration's
    automated types: with two test cases of type [automated_ui] the
    helper returns 60 seconds and not the claimed 90. *)
Lemma estimate_automated_ui_not_45 :
  calculate_estimated_time 2 (TestType_value AUTOMATED_UI)
  <> claimed_estimate 2 AUTOMATED_UI.
Proof. vm_compute. discriminate. Qed.

(** C4 (amended): for every non-negative count and every type token
    the helper returns [clamp(int(base * count * multiplier), 60, 1800)],
    where base is 30 for [manual_ui], 25 for [manual_api], 45 for the
    token [auto_ui], 35 for the token [auto_api] and 30 for every other
    token, and the multiplier is 1.0 up to 10 cases, 0.9 up to 30 and
    0.8 above; the enumeration's [automated_ui] and [automated_api] are
    such other tokens, so their base is 30. *)
Theorem estimate_by_token (count : Z) (test_type : pystr) :
  0 <= count ->
  calculate_estimated_time count test_type
  = clamp (scaled (token_base test_type) count) 60 1800
  /\ token_base (lit "manual_ui") = 30
  /\ token_base (lit "manual_api") = 25
  /\ token_base (lit "auto_ui") = 45
  /\ token_base (lit "auto_api") = 35
  /\ token_base (TestType_value AUTOMATED_UI) = 30
  /\ token_base (TestType_value AUTOMATED_API) = 30
  /\ scaled (token_base test_type) count
     = (if count <=? 10 then token_base test_type * count
        else if count <=? 30 then token_base test_type * count * 9 / 10
        else token_base test_type * count * 8 / 10).
Proof.
  intros Hc. split; [apply estimate_eq; assumption|].
  repeat (split; [vm_compute; reflexivity|]).
  unfold scaled, tier.
  destruct (count <=? 10); [reflexivity|].
  destruct (count <=? 30); reflexivity.
Qed.

Lemma estimate_by_token_witness :
  0 <= 12 /\
  calculate_estimated_time 12 (lit "auto_ui") = 486.
Proof.
  split; [lia|].
  destruct (estimate_by_token 12 (lit "auto_ui")) as [H _]; [lia|].
  rewrite H. vm_compute. reflexivity.
Defined.

(** C9: for every non-negative count and every type token (the
    recognised ones among them) the estimate lies in [60, 1800], and
    for a fixed token it does not decrease when the count grows inside
    one multiplier tier. *)
Theorem estimate_bounds_and_monotone
    (test_type : pystr) (count c1 c2 : Z) :
  0 <= count -> 0 <= c1 -> c1 <= c2 -> tier c1 = tier c2 ->
  (60 <= calculate_estimated_time count test_type <= 1800)
  /\ calculate_estimated_time c1 test_type
     <= calculate_estimated_time c2 test_type.
Proof.
  intros Hc H1 H12 Ht. split.
  - unfold calculate_estimated_time. lia.
  - rewrite !estimate_eq by lia.
    apply clamp_mono; [lia|].
    apply scaled_mono; auto using token_base_nonneg.
Qed.

Lemma estimate_bounds_and_monotone_witness :
  (60 <= calculate_estimated_time 40 (lit "manual_api") <= 1800)
  /\ calculate_estimated_time 11 (lit "manual_api")
     <= calculate_estimated_time 30 (lit "manual_api").
Proof.
  apply (estimate_bounds_and_monotone (lit "manual_api") 40 11 30);
    [lia | lia | lia | reflexivity].
Defined.

End EstimatedTime.

(** ** Requirements text ([utils/validators.py]) *)

Section RequirementsText.
Import Validators Inputs.

(** C5, as stated, fails: the trimmed text of [padded_requirements] has
    20 characters, inside the claimed bounds, and the validator rejects
    it because the untrimmed text has 10001. *)
Lemma padded_requirements_rejected :
  claimed_valid padded_requirements = true
  /\ fst (validate_requirements_text padded_requirements) = false.
Proof. vm_compute. split; reflexivity. Qed.

(** C5 (amended): [validate_requirements_text] returns valid = true
    exactly when the trimmed text is non-empty, the trimmed length is
    at least 20 and the length of the text as given (untrimmed) is at
    most 10000; in every other case it returns valid = false together
    with an error message, and a valid text comes with no message. *)
Theorem requirements_text_valid_iff (text : pystr) :
  (fst (validate_requirements_text text) = true
   <-> strip text <> [] /\ 20 <= len (strip text) /\ len text <= 10000)
  /\ (fst (validate_requirements_text text) = false
      -> exists msg, snd (validate_requirements_text text) = Some msg)
  /\ (fst (validate_requirements_text text) = true
      -> snd (validate_requirements_text text) = None).
Proof.
  unfold validate_requirements_text.
  destruct text as [|c text'] eqn:Ht.
  { cbn [fst snd]. repeat split; try discriminate; eauto.
    intros [H _]. exfalso. apply H. reflexivity. }
  rewrite <- Ht. clear Ht.
  destruct (strip text) as [|d s'] eqn:Hs.
  { cbn [fst snd]. repeat split; try discriminate; eauto.
    intros [H _]. exfalso. apply H. reflexivity. }
  rewrite <- Hs.
  assert (Hne : strip text <> []) by (rewrite Hs; discriminate).
  clear Hs.
  destruct (Z.ltb_spec (len (strip text)) 20);
    [| destruct (Z.ltb_spec 10000 (len text))]; cbn [fst snd].
  - repeat split; try discriminate; eauto. intros (_ & ? & _). lia.
  - repeat split; try discriminate; eauto. intros (_ & _ & ?). lia.
  - repeat split; auto; discriminate.
Qed.

Lemma requirements_text_valid_iff_witness :
  fst (validate_requirements_text
         (lit "  The user signs in with a password.  ")) = true.
Proof.
  destruct (requirements_text_valid_iff
              (lit "  The user signs in with a password.  ")) as [H _].
  apply H. vm_compute. repeat split; discriminate.
Defined.

End RequirementsText.

(** ** File-name sanitizers ([utils/helpers.py], [utils/validators.py]) *)

Section Sanitizers.
Import Helpers.

Local Open Scope N_scope.

Lemma is_forbidden_spec (c : N) :
  is_forbidden c = false <-> c ∉ forbidden_chars.
Proof.
  unfold is_forbidden. rewrite <- not_true_iff_false, existsb_exists.
  split.
  - intros H Hin. apply H. exists c. split.
    + apply list_elem_of_In. exact Hin.
    + apply N.eqb_refl.
  - intros H (x & Hin & Heq). apply N.eqb_eq in Heq. subst x.
    apply H, list_elem_of_In, Hin.
Qed.

Lemma underscore_allowed : underscore ∉ forbidden_chars.
Proof. apply is_forbidden_spec. reflexivity. Qed.

(** *** The three steps, one at a time *)

Lemma replace_forbidden_clean (s : pystr) :
  no_forbidden (replace_forbidden s).
Proof.
  unfold no_forbidden, replace_forbidden.
  apply Forall_map, Forall_forall. intros c _. cbn beta.
  destruct (is_forbidden c) eqn:E.
  - apply underscore_allowed.
  - apply is_forbidden_spec, E.
Qed.

Lemma replace_forbidden_id (s : pystr) :
  no_forbidden s -> replace_forbidden s = s.
Proof.
  unfold no_forbidden, replace_forbidden.
  induction 1 as [|c r Hc _ IH]; cbn [map]; [reflexivity|].
  apply is_forbidden_spec in Hc. rewrite Hc, IH. reflexivity.
Qed.

Lemma collapse_cons2 (c d : N) (r : pystr) :
  collapse_underscores (c :: d :: r)
  = if (c =? underscore) && (d =? underscore)
    then collapse_underscores (d :: r)
    else c :: collapse_underscores (d :: r).
Proof. reflexivity. Qed.

Lemma collapse_head (s : pystr) :
  head (collapse_underscores s) = head s.
Proof.
  induction s as [|c r IH]; [reflexivity|].
  destruct r as [|d r']; [reflexivity|].
  rewrite collapse_cons2.
  destruct (N.eqb_spec c underscore), (N.eqb_spec d underscore);
    cbn [andb]; try reflexivity.
  rewrite IH. cbn. congruence.
Qed.

Lemma collapse_Forall (P : N -> Prop) (s : pystr) :
  Forall P s -> Forall P (collapse_underscores s).
Proof.
  induction s as [|c r IH]; [auto|]. intros H.
  apply Forall_cons in H as [Hc Hr].
  destruct r as [|d r']; [cbn; auto|].
  rewrite collapse_cons2.
  destruct ((c =? underscore) && (d =? underscore)); auto.
Qed.

Lemma collapse_no_double (s : pystr) :
  no_double_underscore (collapse_underscores s).
Proof.
  induction s as [|c r IH]; [exact I|].
  destruct r as [|d r']; [cbn; auto|].
  rewrite collapse_cons2.
  destruct (N.eqb_spec c underscore) as [Hc|Hc],
           (N.eqb_spec d underscore) as [Hd|Hd];
    cbn [andb]; try exact IH.
  all: pose proof (collapse_head (d :: r')) as Hh;
    destruct (collapse_underscores (d :: r')) as [|d' t];
    [cbn; auto | cbn in Hh; injection Hh as ->;
                 split; [intros []; congruence | exact IH]].
Qed.

Lemma collapse_id (s : pystr) :
  no_double_underscore s -> collapse_underscores s = s.
Proof.
  induction s as [|c r IH]; [reflexivity|].
  destruct r as [|d r']; [reflexivity|].
  intros [Hcd Hr]. rewrite collapse_cons2.
  destruct (N.eqb_spec c underscore), (N.eqb_spec d underscore);
    cbn [andb]; try (rewrite IH by exact Hr; reflexivity).
  exfalso. auto.
Qed.

Lemma no_double_tail (c : N) (r : pystr) :
  no_double_underscore (c :: r) -> no_double_underscore r.
Proof. intros [_ H]. exact H. Qed.

Lemma lstrip_Forall (P : N -> Prop) (p : N -> bool) (s : pystr) :
  Forall P s -> Forall P (lstrip_with p s).
Proof.
  induction 1 as [|c r Hc Hr IH]; cbn; [auto|].
  destruct (p c); auto.
Qed.

Lemma lstrip_no_double (p : N -> bool) (s : pystr) :
  no_double_underscore s -> no_double_underscore (lstrip_with p s).
Proof.
  induction s as [|c r IH]; [auto|]. intros H.
  cbn [lstrip_with]. destruct (p c); [|exact H].
  apply IH. exact (no_double_tail _ _ H).
Qed.

Lemma lstrip_head (p : N -> bool) (s : pystr) (c : N) :
  head (lstrip_with p s) = Some c -> p c = false.
Proof.
  induction s as [|d r IH]; cbn; [discriminate|].
  destruct (p d) eqn:E; [exact IH|].
  cbn. congruence.
Qed.

Lemma lstrip_id (p : N -> bool) (s : pystr) :
  (forall c, head s = Some c -> p c = false) -> lstrip_with p s = s.
Proof.
  destruct s as [|c r]; [reflexivity|]. intros H. cbn.
  rewrite (H c eq_refl). reflexivity.
Qed.

(** [rstrip_with] keeps a prefix, so the first character stays. *)
Lemma rstrip_head (p : N -> bool) (s : pystr) (c : N) :
  head (rstrip_with p s) = Some c -> head s = Some c.
Proof.
  destruct s as [|d r]; cbn; [discriminate|].
  destruct (rstrip_with p r); [destruct (p d)|]; cbn; congruence.
Qed.

Lemma rstrip_Forall (P : N -> Prop) (p : N -> bool) (s : pystr) :
  Forall P s -> Forall P (rstrip_with p s).
Proof.
  induction 1 as [|c r Hc Hr IH]; cbn; [auto|].
  destruct (rstrip_with p r); [destruct (p c)|]; auto.
Qed.

Lemma rstrip_no_double (p : N -> bool) (s : pystr) :
  no_double_underscore s -> no_double_underscore (rstrip_with p s).
Proof.
  induction s as [|c r IH]; [auto|]. intros [Hcd Hr].
  cbn [rstrip_with].
  pose proof (rstrip_head p r) as Hh. specialize (IH Hr).
  destruct (rstrip_with p r) as [|d t].
  - destruct (p c); cbn; auto.
  - split; [|exact IH].
    specialize (Hh d eq_refl). destruct r as [|d' r']; [discriminate|].
    cbn in Hh. injection Hh as ->. exact Hcd.
Qed.

Lemma rstrip_last (p : N -> bool) (s : pystr) (c : N) :
  last (rstrip_with p s) = Some c -> p c = false.
Proof.
  induction s as [|d r IH]; cbn [rstrip_with]; [discriminate|].
  destruct (rstrip_with p r) as [|e t].
  - destruct (p d) eqn:E; cbn; [discriminate|]. congruence.
  - exact IH.
Qed.

Lemma rstrip_id (p : N -> bool) (s : pystr) :
  (forall c, last s = Some c -> p c = false) -> rstrip_with p s = s.
Proof.
  induction s as [|d r IH]; [reflexivity|]. intros H.
  cbn [rstrip_with]. destruct r as [|e t].
  - cbn. rewrite (H d eq_refl). reflexivity.
  - rewrite IH by exact H. reflexivity.
Qed.

Lemma eqb_underscore_false (c : N) :
  c <> underscore -> (underscore =? c) = false.
Proof. intros H. apply N.eqb_neq. congruence. Qed.

(** *** The shared core *)

Lemma sanitize_core_clean (x : pystr) :
  no_forbidden (sanitize_core x)
  /\ no_double_underscore (sanitize_core x)
  /\ no_edge_underscore (sanitize_core x).
Proof.
  unfold sanitize_core, strip_char, strip_with, no_forbidden,
    no_edge_underscore.
  repeat split.
  - apply rstrip_Forall, lstrip_Forall, collapse_Forall,
      replace_forbidden_clean.
  - apply rstrip_no_double, lstrip_no_double, collapse_no_double.
  - intros H. apply rstrip_head, lstrip_head in H.
    apply N.eqb_neq in H. congruence.
  - intros H. apply rstrip_last in H.
    apply N.eqb_neq in H. congruence.
Qed.

Lemma sanitize_core_id (y : pystr) :
  no_forbidden y -> no_double_underscore y -> no_edge_underscore y ->
  sanitize_core y = y.
Proof.
  intros Hf Hd [Hh Hl]. unfold sanitize_core, strip_char, strip_with.
  rewrite replace_forbidden_id, collapse_id by assumption.
  rewrite lstrip_id.
  - apply rstrip_id. intros c Hc. apply eqb_underscore_false. congruence.
  - intros c Hc. apply eqb_underscore_false. congruence.
Qed.

(** *** The time-stamped default name *)

Lemma utf8_decode_ascii (bytes : list N) :
  Forall (fun b => b < 128) bytes -> utf8_decode bytes = bytes.
Proof.
  induction 1 as [|b r Hb _ IH]; [reflexivity|].
  cbn [utf8_decode]. apply N.ltb_lt in Hb. rewrite Hb, IH. reflexivity.
Qed.

Lemma uint_digits (d : uint) :
  Forall is_digit
    (map N_of_ascii (list_ascii_of_string (NilEmpty.string_of_uint d))).
Proof.
  induction d; cbn [NilEmpty.string_of_uint list_ascii_of_string map];
    constructor; try assumption; unfold is_digit; cbn; lia.
Qed.

Lemma uint_digits_nonempty (d : uint) :
  exists ds, ds <> []
    /\ Forall is_digit ds
    /\ map N_of_ascii (list_ascii_of_string (NilZero.string_of_uint d))
       = ds.
Proof.
  eexists. split; [|split; [|reflexivity]].
  - destruct d; discriminate.
  - destruct d; try apply uint_digits.
    repeat constructor; unfold is_digit; cbn; lia.
Qed.

(** [str(n)] is an optional minus sign followed by at least one
    digit. *)
Lemma str_of_int_shape (n : Z) :
  exists sign ds,
    str_of_int n = sign ++ ds
    /\ (sign = [] \/ sign = [45])
    /\ ds <> [] /\ Forall is_digit ds.
Proof.
  unfold str_of_int, lit.
  destruct (Z.to_int n) as [d|d]; cbn [NilZero.string_of_int];
    destruct (uint_digits_nonempty d) as (ds & Hne & Hd & E).
  - exists [], ds. rewrite E. split; [|auto].
    apply utf8_decode_ascii.
    eapply Forall_impl; [exact Hd|]. unfold is_digit. cbn beta. lia.
  - exists [45], ds. cbn [list_ascii_of_string map]. rewrite E.
    split; [|auto].
    apply utf8_decode_ascii. constructor; [cbn; lia|].
    eapply Forall_impl; [exact Hd|]. unfold is_digit. cbn beta. lia.
Qed.

Lemma not_forbidden_range (c : N) :
  c = 45 \/ is_digit c -> c ∉ forbidden_chars.
Proof.
  unfold is_digit, forbidden_chars. intros H Hin.
  repeat (apply elem_of_cons in Hin as [->|Hin]; [lia|]).
  apply elem_of_nil in Hin. exact Hin.
Qed.

Lemma no_underscore_no_double (s : pystr) :
  Forall (fun c => c <> underscore) s -> no_double_underscore s.
Proof.
  induction 1 as [|c r Hc Hr IH]; [exact I|].
  split; [|exact IH]. destruct r; [exact I|]. intros []. auto.
Qed.

Lemma default_name_clean (now_timestamp : Z) :
  let y := lit "file_" ++ str_of_int now_timestamp in
  no_forbidden y /\ no_double_underscore y /\ no_edge_underscore y
  /\ y <> [].
Proof.
  destruct (str_of_int_shape now_timestamp)
    as (sign & ds & E & Hsign & Hne & Hds).
  cbn zeta. rewrite E.
  assert (Hall : Forall (fun c => c = 45 \/ is_digit c) (sign ++ ds)).
  { apply Forall_app. split.
    - destruct Hsign as [-> | ->]; repeat constructor.
    - eapply Forall_impl; [exact Hds|]. cbn beta. auto. }
  change (lit "file_") with [102; 105; 108; 101; 95].
  split; [|split; [|split; [split|]]].
  - unfold no_forbidden. apply Forall_app. split.
    + repeat constructor; apply is_forbidden_spec; reflexivity.
    + eapply Forall_impl; [exact Hall|]. exact not_forbidden_range.
  - assert (Hnd : no_double_underscore (sign ++ ds)).
    { apply no_underscore_no_double.
      eapply Forall_impl; [exact Hall|].
      unfold is_digit, underscore. cbn beta. lia. }
    cbn [app no_double_underscore]. unfold underscore.
    repeat (split; [intros []; lia|]).
    split; [|exact Hnd].
    destruct (sign ++ ds) as [|c t] eqn:Ec; [exact I|].
    apply Forall_cons in Hall as [Hc _].
    unfold is_digit in Hc. intros []. lia.
  - cbn. unfold underscore. congruence.
  - destruct (exists_last Hne) as (ds' & c & ->).
    rewrite !app_assoc, last_snoc.
    apply Forall_app in Hds as [_ Hc]. apply Forall_cons in Hc as [Hc _].
    unfold is_digit in Hc. intros [= ->]. revert Hc.
    cbv delta [underscore]. lia.
  - discriminate.
Qed.

(** *** [str.startswith] and [str.endswith] *)

Lemma startswith_spec (s prefix : pystr) :
  startswith s prefix = true <-> exists r, s = prefix ++ r.
Proof.
  revert s. induction prefix as [|p prefix IH]; intros s.
  - split; [intros _; exists s; reflexivity | destruct s; reflexivity].
  - destruct s as [|c s']; cbn [startswith].
    + split; [discriminate | intros [r Hr]; discriminate].
    + rewrite andb_true_iff, N.eqb_eq, IH. split.
      * intros [-> [r ->]]. eauto.
      * intros [r Hr]. injection Hr as -> ->. eauto.
Qed.

Lemma endswith_spec (s suffix : pystr) :
  endswith s suffix = true <-> exists stem, s = stem ++ suffix.
Proof.
  unfold endswith. rewrite startswith_spec. split.
  - intros [r Hr]. exists (rev r).
    apply (f_equal (@rev N)) in Hr.
    rewrite rev_app_distr, !rev_involutive in Hr. exact Hr.
  - intros [stem ->]. exists (rev stem). apply rev_app_distr.
Qed.

(** *** The two sanitizers *)

Lemma helper_sanitize_clean (now_timestamp : Z) (x : pystr) :
  let y := Helpers.sanitize_filename now_timestamp x in
  no_forbidden y /\ no_double_underscore y /\ no_edge_underscore y
  /\ y <> [].
Proof.
  cbn zeta. unfold Helpers.sanitize_filename.
  pose proof (sanitize_core_clean x) as (Hf & Hd & He).
  destruct (sanitize_core x) as [|c t] eqn:E.
  - apply default_name_clean.
  - split; [|split; [|split]]; try assumption. discriminate.
Qed.

Lemma no_double_app (a b : pystr) :
  no_double_underscore a -> no_double_underscore b ->
  (last a = Some underscore -> head b = Some underscore -> False) ->
  no_double_underscore (a ++ b).
Proof.
  induction a as [|c r IH]; [auto|].
  intros [Hcd Hr] Hb Hj. cbn [app no_double_underscore].
  split.
  - destruct r as [|d r']; cbn [app].
    + destruct b as [|e b']; [exact I|].
      intros [-> ->]. apply Hj; reflexivity.
    + exact Hcd.
  - apply IH; [exact Hr | exact Hb |].
    intros Hl. apply Hj. destruct r; [discriminate|]. exact Hl.
Qed.

Lemma validator_sanitize_clean (x : pystr) :
  let y := Validators.sanitize_filename x in
  no_forbidden y /\ no_double_underscore y /\ no_edge_underscore y
  /\ y <> [] /\ endswith y (lit ".py") = true.
Proof.
  cbn zeta. unfold Validators.sanitize_filename.
  pose proof (sanitize_core_clean x) as (Hf & Hd & He).
  set (s1 := match sanitize_core x with [] => lit "file" | _ => sanitize_core x end).
  assert (H1 : no_forbidden s1 /\ no_double_underscore s1
               /\ no_edge_underscore s1 /\ s1 <> []).
  { subst s1. destruct (sanitize_core x) as [|c t] eqn:E.
    - change (lit "file") with [102; 105; 108; 101].
      split; [|split; [|split; [split|]]]; try discriminate.
      + repeat constructor; apply is_forbidden_spec; reflexivity.
      + cbn. unfold underscore. repeat split; intros []; lia.
    - split; [|split; [|split]]; try assumption. discriminate. }
  clearbody s1. destruct H1 as (Hf1 & Hd1 & [Hh1 Hl1] & Hne1).
  destruct (endswith s1 (lit ".py")) eqn:Ee.
  - split; [|split; [|split; [split|split]]]; assumption.
  - change (lit ".py") with [46; 112; 121].
    split; [|split; [|split; [split|split]]].
    + apply Forall_app. split; [exact Hf1|].
      repeat constructor; apply is_forbidden_spec; reflexivity.
    + apply no_double_app; [exact Hd1 | |].
      * cbn. unfold underscore. repeat split; intros []; lia.
      * cbn. unfold underscore. congruence.
    + destruct s1; [congruence|]. exact Hh1.
    + change [46; 112; 121] with ([46; 112] ++ [121]).
      rewrite app_assoc, last_snoc. unfold underscore. congruence.
    + destruct s1; discriminate.
    + apply endswith_spec. eauto.
Qed.

(** C8: both sanitizers are idempotent (for the helper, whatever the
    clock shows at either call), their results contain none of the
    forbidden characters and have no underscore at either end, and the
    result of the validators variant ends with [.py]. *)
Theorem sanitize_filename_idempotent (t1 t2 : Z) (x : pystr) :
  Helpers.sanitize_filename t2 (Helpers.sanitize_filename t1 x)
  = Helpers.sanitize_filename t1 x
  /\ Validators.sanitize_filename (Validators.sanitize_filename x)
     = Validators.sanitize_filename x
  /\ (forall c, c ∈ Helpers.sanitize_filename t1 x ->
                c ∉ forbidden_chars)
  /\ (forall c, c ∈ Validators.sanitize_filename x ->
                c ∉ forbidden_chars)
  /\ head (Helpers.sanitize_filename t1 x) <> Some underscore
  /\ last (Helpers.sanitize_filename t1 x) <> Some underscore
  /\ head (Validators.sanitize_filename x) <> Some underscore
  /\ last (Validators.sanitize_filename x) <> Some underscore
  /\ exists stem, Validators.sanitize_filename x = stem ++ lit ".py".
Proof.
  pose proof (helper_sanitize_clean t1 x) as (Hf & Hd & He & Hne).
  pose proof (validator_sanitize_clean x) as (Vf & Vd & Ve & Vne & Vpy).
  cbn zeta in *.
  split; [|split].
  - unfold Helpers.sanitize_filename at 1.
    rewrite sanitize_core_id by assumption.
    destruct (Helpers.sanitize_filename t1 x); congruence.
  - unfold Validators.sanitize_filename at 1.
    rewrite sanitize_core_id by assumption.
    destruct (Validators.sanitize_filename x) as [|c t] eqn:E;
      [congruence|].
    rewrite Vpy. reflexivity.
  - split; [|split; [|split; [|split; [|split; [|split]]]]];
      try apply He; try apply Ve.
    + intros c Hc. eapply Forall_forall in Hf; eauto.
    + intros c Hc. eapply Forall_forall in Vf; eauto.
    + apply endswith_spec. exact Vpy.
Qed.

Lemma sanitize_filename_idempotent_witness :
  Validators.sanitize_filename
    (Validators.sanitize_filename (lit "__report<1>__final_"))
  = lit "report_1_final.py".
Proof.
  destruct (sanitize_filename_idempotent 0 0 (lit "__report<1>__final_"))
    as (_ & H & _).
  rewrite H. vm_compute. reflexivity.
Defined.

End Sanitizers.

(** ** Cancelling a job ([services/job_manager.py]) *)

Section CancelJob.
Import JobManager Inputs.

(** C10: when no running task is registered under the id,
    [cancel_job] returns false and leaves the manager as it was, so
    the stored record of the job (if any) is unchanged: status,
    message and [updated_at] keep their values, and the status is not
    set to FAILED by the call. *)
Theorem cancel_job_absent (now : datetime) (m : JobManager) (id : UUID) :
  running_tasks m !! id = None ->
  let '(r, m') := cancel_job now m id in
  r = Return false
  /\ m' = m
  /\ get_job_status m' id = get_job_status m id
  /\ (forall job, get_job_status m id = Some job ->
        exists job', get_job_status m' id = Some job'
          /\ status job' = status job
          /\ message job' = message job
          /\ updated_at job' = updated_at job).
Proof.
  intros Hnone. unfold cancel_job. rewrite Hnone.
  repeat split. intros job Hjob. exists job. auto.
Qed.

Lemma cancel_job_absent_witness :
  fst (cancel_job 500 idle_manager 7%N) = Return false
  /\ (status <$> get_job_status (snd (cancel_job 500 idle_manager 7%N)) 7%N)
     = Some PROCESSING.
Proof.
  pose proof (cancel_job_absent 500 idle_manager 7%N eq_refl) as H.
  destruct (cancel_job 500 idle_manager 7%N) as [r m'].
  destruct H as (-> & -> & _). split; reflexivity.
Defined.

(** The other branch, for comparison: with a registered task that is
    cancelled, the stored job becomes FAILED. *)
Lemma cancel_job_running (now : datetime) (m : JobManager) (id : UUID)
    (job : JobResponse) :
  running_tasks m !! id = Some TaskCancelled ->
  get_job_status m id = Some job ->
  let '(r, m') := cancel_job now m id in
  r = Return true
  /\ running_tasks m' !! id = None
  /\ exists job', get_job_status m' id = Some job'
       /\ status job' = FAILED
       /\ message job' = Some (lit "Job cancelled by user")
       /\ updated_at job' = Some now.
Proof.
  intros Htask Hjob. unfold cancel_job, get_job_status in *.
  rewrite Htask. unfold update_job_status, update_job.
  cbn [_cleanup_task job_storage]. rewrite Hjob.
  cbn [running_tasks job_storage _jobs].
  split; [reflexivity|]. split; [apply lookup_delete_eq|].
  eexists. split; [apply lookup_insert_eq|].
  cbn [status message updated_at upd_status upd_message default].
  split; [reflexivity|]. split; reflexivity.
Qed.

End CancelJob.

(** ** Coverage check ([agents/optimization_agent.py]) *)

Section Coverage.
Import OptimizationAgent.
Context {R : Runtime}.

Lemma contains_spec (s needle : pystr) :
  contains s needle = true <-> occurs_in needle s.
Proof.
  unfold occurs_in. induction s as [|c s' IH].
  - cbn [contains]. rewrite orb_false_r, startswith_spec. split.
    + intros [r Hr]. exists [], r. exact Hr.
    + intros (before & after & H).
      destruct before; [|discriminate]. exists after. exact H.
  - cbn [contains]. rewrite orb_true_iff, startswith_spec, IH. split.
    + intros [[r Hr] | (before & after & H)].
      * exists [], r. exact Hr.
      * exists (c :: before), after. cbn. congruence.
    + intros (before & after & H). destruct before as [|b before'].
      * left. exists after. exact H.
      * right. injection H as _ H. eauto.
Qed.

Lemma covers_requirement_spec (tc : Dto.TestCaseDTO) (req : pystr) :
  _covers_requirement tc req = true
  <-> occurs_in (str_lower req)
        (str_lower
           (Dto.title tc ++ [space] ++ Dto.story tc ++ [space]
            ++ join [space] (Dto.steps tc))).
Proof. unfold _covers_requirement. apply contains_spec. Qed.

Lemma nonempty_covered_by (testcases : list Dto.TestCaseDTO)
    (req : pystr) :
  nonempty (covered_by testcases req) = true
  <-> line_covered testcases req.
Proof.
  unfold covered_by, line_covered.
  induction testcases as [|tc rest IH].
  - cbn. split; [discriminate | intros (tc & [] & _)].
  - cbn [List.filter].
    destruct (_covers_requirement tc req) eqn:E.
    + cbn. split; [intros _ | reflexivity].
      exists tc. split; [left; reflexivity|].
      apply covers_requirement_spec, E.
    + rewrite IH. split.
      * intros (tc' & Hin & H). exists tc'. split; [right|]; assumption.
      * intros (tc' & [<- | Hin] & H).
        -- apply covers_requirement_spec in H. congruence.
        -- exists tc'. auto.
Qed.

Lemma requirement_lines_claimed (requirements_text : pystr) :
  requirement_lines requirements_text = claimed_lines requirements_text.
Proof.
  unfold requirement_lines, claimed_lines. f_equal.
  induction (splitlines requirements_text) as [|line rest IH];
    [reflexivity|].
  cbn [flat_map map List.filter]. rewrite IH.
  destruct (strip line) as [|c t] eqn:E; [reflexivity|].
  destruct (8 <? len (c :: t)); reflexivity.
Qed.

(** The item and the recommendations that one requirement adds. *)
Lemma coverage_loop (testcases : list Dto.TestCaseDTO)
    (requirements : list pystr)
    (coverage0 : list coverage_item) (recs0 : list recommendation) :
  fold_left (coverage_step testcases) requirements (coverage0, recs0)
  = (coverage0
       ++ map (fun req =>
                 {| requirement := req;
                    covered := nonempty (covered_by testcases req);
                    testcases := covered_by testcases req |})
              requirements,
     recs0
       ++ map coverage_recommendation
            (List.filter
               (fun req => negb (nonempty (covered_by testcases req)))
               requirements)).
Proof.
  revert coverage0 recs0.
  induction requirements as [|req rest IH]; intros coverage0 recs0.
  - cbn. rewrite !app_nil_r. reflexivity.
  - cbn [fold_left map List.filter]. unfold coverage_step at 2.
    destruct (nonempty (covered_by testcases req)) eqn:E; cbn [negb];
      rewrite IH; cbn [map]; rewrite <- !app_assoc; reflexivity.
Qed.

(** C6: the coverage check works on the trimmed lines longer than 8
    characters, the first 50 of them; an item is marked covered exactly
    when its line occurs, lower-cased, in the lower-cased space-joined
    title, story and steps of some test case; the recommendations are
    one high-severity coverage recommendation per uncovered line, in
    order; and the percentage is covered over total times 100, or 0
    when there is no line. *)
Theorem check_coverage_spec (testcases : list Dto.TestCaseDTO)
    (requirements_text : pystr) :
  let res := _check_coverage testcases requirements_text in
  let lines := claimed_lines requirements_text in
  map requirement (coverage res) = lines
  /\ (length lines <= 50)%nat
  /\ (forall item, In item (coverage res) ->
        (covered item = true
         <-> line_covered testcases (requirement item)))
  /\ recommendations res
     = map coverage_recommendation
         (map requirement
            (List.filter (fun item => negb (covered item)) (coverage res)))
  /\ (forall r, In r (recommendations res) ->
        severity r = lit "high" /\ rec_type r = lit "coverage")
  /\ coverage_percent res
     = match lines with
       | [] => inject_Z 0
       | _ =>
           Qmult
             (Qdiv
                (inject_Z (len_list (List.filter covered (coverage res))))
                (inject_Z (len_list lines)))
             (inject_Z 100)
       end.
Proof.
  cbn zeta. unfold _check_coverage.
  rewrite coverage_loop, requirement_lines_claimed. cbn [app].
  set (lines := claimed_lines requirements_text).
  set (items := map _ lines).
  assert (Hreq : map requirement items = lines).
  { subst items. rewrite map_map. cbn [requirement]. apply map_id. }
  cbn [coverage recommendations coverage_percent].
  split; [exact Hreq|]. split; [apply firstn_le_length|].
  split; [|split; [|split]].
  - intros item Hin. subst items. apply in_map_iff in Hin as (req & <- & _).
    cbn [covered requirement]. apply nonempty_covered_by.
  - f_equal. subst items. clear Hreq.
    induction lines as [|l rest IH]; [reflexivity|].
    cbn [map List.filter covered].
    destruct (nonempty (covered_by testcases l)); cbn [negb map requirement];
      rewrite IH; reflexivity.
  - intros r Hin. apply in_map_iff in Hin as (req & <- & _).
    split; reflexivity.
  - rewrite <- Hreq. unfold len_list. rewrite length_map.
    destruct items; reflexivity.
Qed.

End Coverage.

Lemma check_coverage_spec_witness :
  map OptimizationAgent.severity
    (OptimizationAgent.recommendations
       (@OptimizationAgent._check_coverage ascii_runtime [Inputs.tc_critical]
          Inputs.three_requirements))
  = [lit "high"; lit "high"].
Proof.
  destruct (@check_coverage_spec ascii_runtime [Inputs.tc_critical]
              Inputs.three_requirements) as (_ & _ & _ & H & _).
  cbn zeta in H. rewrite H. vm_compute. reflexivity.
Defined.

(** ** The matching blocks of [difflib] *)

Section Blocks.
Import Difflib.
Local Open Scope nat_scope.

Variables a b : pystr.

(** *** The longest match stays inside the region it is asked for *)

Lemma j2lenget_inside (alo blo bhi i j : nat) (j2len : gmap nat nat) :
  j2len_inside alo blo bhi i j2len -> alo <= i -> blo <= j ->
  j2lenget j2len j + 1 + alo <= S i /\ j2lenget j2len j + 1 + blo <= j + 1.
Proof.
  intros Hm Hi Hj. destruct j as [|j']; cbn [j2lenget]; [lia|].
  destruct (j2len !! j') as [v|] eqn:E; simpl; [|lia].
  destruct (Hm j' v E) as (? & ? & ?). lia.
Qed.

Lemma inner_loop_inside (alo blo bhi i : nat) (js : list nat)
    (j2len newj2len : gmap nat nat) (best : Match) :
  alo <= i ->
  j2len_inside alo blo bhi i j2len ->
  j2len_inside alo blo bhi (S i) newj2len ->
  best_inside alo blo bhi (S i) best ->
  j2len_inside alo blo bhi (S i)
    (fst (inner_loop i blo bhi js j2len newj2len best))
  /\ best_inside alo blo bhi (S i)
       (snd (inner_loop i blo bhi js j2len newj2len best)).
Proof.
  intros Hi Hold. revert newj2len best.
  induction js as [|j js' IH]; intros newj2len best Hnew Hbest;
    cbn [inner_loop]; [auto|].
  destruct (Nat.ltb_spec j blo); [auto|].
  destruct (Nat.leb_spec bhi j); [auto|].
  destruct (j2lenget_inside alo blo bhi i j j2len Hold Hi) as [Ha Hb];
    [assumption|].
  apply IH.
  - intros j0 v Hv. apply lookup_insert_Some in Hv as [[<- <-] | [_ Hv]].
    + lia.
    + exact (Hnew j0 v Hv).
  - destruct best as [[besti bestj] bestsize].
    destruct (Nat.ltb_spec bestsize (j2lenget j2len j + 1)); [|exact Hbest].
    cbn. lia.
Qed.

Lemma best_inside_next (alo blo bhi row : nat) (best : Match) :
  best_inside alo blo bhi row best -> best_inside alo blo bhi (S row) best.
Proof. destruct best as [[? ?] ?]. cbn. lia. Qed.

Lemma outer_fold_inside (alo blo bhi count i : nat)
    (state : gmap nat nat * Match) :
  alo <= i ->
  j2len_inside alo blo bhi i (fst state) ->
  best_inside alo blo bhi i (snd state) ->
  best_inside alo blo bhi (i + count)
    (snd (fold_left (outer_step a b blo bhi) (seq i count) state)).
Proof.
  revert i state. induction count as [|count IH]; intros i state Hi Hm Hb.
  - rewrite Nat.add_0_r. exact Hb.
  - cbn [seq fold_left]. rewrite <- Nat.add_succ_comm.
    destruct state as [j2len best]. unfold outer_step at 2.
    pose proof (inner_loop_inside alo blo bhi i
                  (match a !! i with Some elt => b2j b elt | None => [] end)
                  j2len ∅ best Hi Hm) as H.
    destruct H as [H1 H2].
    + intros j v Hv. rewrite lookup_empty in Hv. discriminate.
    + apply best_inside_next. exact Hb.
    + apply IH; [lia | exact H1 | exact H2].
Qed.

Lemma outer_loop_inside (alo ahi blo bhi : nat) :
  alo <= ahi -> blo <= bhi ->
  best_inside alo blo bhi ahi (snd (outer_loop a b alo ahi blo bhi)).
Proof.
  intros Ha Hb. unfold outer_loop.
  pose proof (outer_fold_inside alo blo bhi (ahi - alo) alo
                (∅, (alo, blo, 0))) as H.
  replace (alo + (ahi - alo)) with ahi in H by lia.
  apply H; [lia | |].
  - intros j v Hv. cbn in Hv. rewrite lookup_empty in Hv. discriminate.
  - cbn. lia.
Qed.

Lemma extend_left_inside (alo blo besti bestj bestsize : nat) :
  alo <= besti -> blo <= bestj ->
  let '(i, j, k) := extend_left a b alo blo besti bestj bestsize in
  alo <= i /\ blo <= j
  /\ i + k = besti + bestsize /\ j + k = bestj + bestsize.
Proof.
  revert bestj bestsize.
  induction besti as [|i' IH]; intros bestj bestsize Hi Hj.
  - cbn. lia.
  - destruct bestj as [|j']; [cbn; lia|]. cbn [extend_left].
    destruct (Nat.ltb_spec alo (S i')); cbn [andb]; [|lia].
    destruct (Nat.ltb_spec blo (S j')); cbn [andb]; [|lia].
    destruct (same_item a b i' j'); [|lia].
    specialize (IH j' (S bestsize)).
    destruct (extend_left a b alo blo i' j' (S bestsize)) as [[i j] k].
    lia.
Qed.

Lemma extend_right_inside (ahi bhi besti bestj bestsize room : nat) :
  besti + bestsize <= ahi -> bestj + bestsize <= bhi ->
  let k := extend_right a b ahi bhi besti bestj bestsize room in
  bestsize <= k /\ besti + k <= ahi /\ bestj + k <= bhi.
Proof.
  revert bestsize. induction room as [|room IH]; intros bestsize Hi Hj.
  - cbn. lia.
  - cbn [extend_right].
    destruct (Nat.ltb_spec (besti + bestsize) ahi); cbn [andb]; [|cbn; lia].
    destruct (Nat.ltb_spec (bestj + bestsize) bhi); cbn [andb]; [|cbn; lia].
    destruct (same_item a b (besti + bestsize) (bestj + bestsize));
      [|cbn; lia].
    specialize (IH (S bestsize)). cbn zeta in *. lia.
Qed.

Lemma find_longest_match_inside (alo ahi blo bhi : nat) :
  alo <= ahi -> blo <= bhi ->
  let '(i, j, k) := find_longest_match a b alo ahi blo bhi in
  alo <= i /\ i + k <= ahi /\ blo <= j /\ j + k <= bhi.
Proof.
  intros Ha Hb. unfold find_longest_match.
  pose proof (outer_loop_inside alo ahi blo bhi Ha Hb) as H0.
  destruct (snd (outer_loop a b alo ahi blo bhi)) as [[i0 j0] k0].
  cbn in H0. destruct H0 as (Hi0 & Hk0 & Hj0 & Hl0).
  pose proof (extend_left_inside alo blo i0 j0 k0 Hi0 Hj0) as Hleft.
  destruct (extend_left a b alo blo i0 j0 k0) as [[i1 j1] k1].
  destruct Hleft as (Hi1 & Hj1 & Hik & Hjk).
  pose proof (extend_right_inside ahi bhi i1 j1 k1 (ahi - (i1 + k1)))
    as Hright.
  cbn zeta in Hright. lia.
Qed.

(** *** The loop over the queue *)

Lemma total_size_app (l1 l2 : list Match) :
  total_size (l1 ++ l2) = total_size l1 + total_size l2.
Proof. unfold total_size. rewrite map_app, list_sum_app. reflexivity. Qed.

Lemma rows_cons (alo ahi blo bhi : nat) (queue : list region) :
  rows ((alo, ahi, blo, bhi) :: queue) = ahi - alo + rows queue.
Proof. reflexivity. Qed.

Lemma columns_cons (alo ahi blo bhi : nat) (queue : list region) :
  columns ((alo, ahi, blo, bhi) :: queue) = bhi - blo + columns queue.
Proof. reflexivity. Qed.

Lemma turns_cons (alo ahi blo bhi : nat) (queue : list region) :
  turns ((alo, ahi, blo, bhi) :: queue)
  = 2 * (ahi - alo) + 1 + turns queue.
Proof. reflexivity. Qed.

Lemma total_size_snoc (blocks : list Match) (i j k : nat) :
  total_size (blocks ++ [(i, j, k)]) = total_size blocks + k.
Proof. rewrite total_size_app. unfold total_size. cbn. lia. Qed.

Lemma next_queue_facts (alo ahi blo bhi i j k : nat)
    (queue : list region) :
  alo <= i -> i + k <= ahi -> blo <= j -> j + k <= bhi -> k <> 0 ->
  Forall region_ok queue ->
  let queue2 := next_queue alo ahi blo bhi i j k queue in
  Forall region_ok queue2
  /\ k + rows queue2 <= ahi - alo + rows queue
  /\ k + columns queue2 <= bhi - blo + columns queue
  /\ turns queue2 <= 2 * (ahi - alo) + turns queue.
Proof.
  intros Hi Hik Hj Hjk Hk Hq. cbn zeta. unfold next_queue.
  destruct (Nat.ltb_spec alo i), (Nat.ltb_spec blo j),
           (Nat.ltb_spec (i + k) ahi), (Nat.ltb_spec (j + k) bhi);
    cbn [andb];
    rewrite ?rows_cons, ?columns_cons, ?turns_cons;
    (split; [repeat (apply Forall_cons; split); try exact Hq; cbn; lia
            | lia]).
Qed.

(** The collected sizes never exceed the rows, nor the columns, that
    the queue still spans. *)
Lemma blocks_loop_size (fuel : nat) (queue : list region)
    (blocks result : list Match) :
  Forall region_ok queue ->
  blocks_loop fuel a b queue blocks = Some result ->
  total_size result <= total_size blocks + rows queue
  /\ total_size result <= total_size blocks + columns queue.
Proof.
  revert queue blocks.
  induction fuel as [|fuel IH]; intros queue blocks Hq Hrun.
  - destruct queue as [|[[[alo ahi] blo] bhi] queue']; cbn in Hrun.
    + injection Hrun as <-. lia.
    + discriminate.
  - destruct queue as [|[[[alo ahi] blo] bhi] queue'].
    { cbn in Hrun. injection Hrun as <-. lia. }
    apply Forall_cons in Hq as [[Ha Hb] Hq'].
    cbn [blocks_loop] in Hrun.
    pose proof (find_longest_match_inside alo ahi blo bhi Ha Hb) as Hin.
    destruct (find_longest_match a b alo ahi blo bhi) as [[i j] k].
    destruct Hin as (Hi & Hik & Hj & Hjk).
    rewrite rows_cons, columns_cons.
    destruct (k =? 0) eqn:Hk.
    { apply IH in Hrun; [lia | exact Hq']. }
    apply Nat.eqb_neq in Hk.
    change (blocks_loop fuel a b (next_queue alo ahi blo bhi i j k queue')
              (blocks ++ [(i, j, k)]) = Some result) in Hrun.
    destruct (next_queue_facts alo ahi blo bhi i j k queue')
      as (Hq2 & Hrows & Hcols & _); try assumption.
    apply IH in Hrun; [|exact Hq2].
    rewrite total_size_snoc in Hrun. lia.
Qed.

(** The loop ends before the fuel does. *)
Lemma blocks_loop_runs (fuel : nat) (queue : list region)
    (blocks : list Match) :
  Forall region_ok queue -> turns queue <= fuel ->
  exists result, blocks_loop fuel a b queue blocks = Some result.
Proof.
  revert queue blocks.
  induction fuel as [|fuel IH]; intros queue blocks Hq Hfuel.
  - destruct queue as [|[[[alo ahi] blo] bhi] queue']; cbn; [eauto|].
    rewrite turns_cons in Hfuel. lia.
  - destruct queue as [|[[[alo ahi] blo] bhi] queue']; [cbn; eauto|].
    apply Forall_cons in Hq as [[Ha Hb] Hq'].
    cbn [blocks_loop].
    pose proof (find_longest_match_inside alo ahi blo bhi Ha Hb) as Hin.
    destruct (find_longest_match a b alo ahi blo bhi) as [[i j] k].
    destruct Hin as (Hi & Hik & Hj & Hjk).
    rewrite turns_cons in Hfuel.
    destruct (k =? 0) eqn:Hk.
    { apply IH; [exact Hq' | lia]. }
    apply Nat.eqb_neq in Hk.
    change (exists result,
               blocks_loop fuel a b (next_queue alo ahi blo bhi i j k queue')
                 (blocks ++ [(i, j, k)]) = Some result).
    destruct (next_queue_facts alo ahi blo bhi i j k queue')
      as (Hq2 & _ & _ & Hturns); try assumption.
    apply IH; [exact Hq2 | lia].
Qed.

Lemma blocks_loop_terminates :
  exists result,
    blocks_loop (2 * length a + 2) a b [(0, length a, 0, length b)] []
    = Some result.
Proof.
  apply blocks_loop_runs.
  - repeat constructor; lia.
  - rewrite turns_cons. cbn. lia.
Qed.

Lemma matches_bound :
  matches a b <= length a /\ matches a b <= length b.
Proof.
  unfold matches, collected_blocks.
  destruct blocks_loop_terminates as [result Hrun]. rewrite Hrun.
  apply blocks_loop_size in Hrun.
  - rewrite rows_cons, columns_cons in Hrun. cbn in Hrun.
    unfold total_size in Hrun. simpl. lia.
  - repeat constructor; lia.
Qed.

End Blocks.

(** *** A sequence compared with itself *)

Section SelfMatch.
Import Difflib.
Local Open Scope nat_scope.

Variable s : pystr.

Lemma run_unfold (i : nat) (x : N) :
  s !! i = Some x -> is_popular s x = false ->
  run s i = S (prev_run s i).
Proof.
  intros Hx Hp. destruct i; cbn [run prev_run]; rewrite Hx, Hp; reflexivity.
Qed.

Lemma run_popular (i : nat) (x : N) :
  s !! i = Some x -> is_popular s x = true -> run s i = 0.
Proof. intros Hx Hp. destruct i; cbn [run]; rewrite Hx, Hp; reflexivity. Qed.

Lemma indices_from_spec (offset : nat) (l : pystr) (x : N) (j : nat) :
  In j (indices_from offset l x)
  <-> offset <= j /\ l !! (j - offset) = Some x.
Proof.
  revert offset. induction l as [|c r IH]; intros offset; cbn [indices_from].
  - split; [intros [] | intros [_ H]; discriminate].
  - assert (Hrest : In j (indices_from (S offset) r x)
                    <-> offset < j /\ (c :: r) !! (j - offset) = Some x).
    { rewrite IH. split.
      - intros [Hle H]. split; [lia|].
        replace (j - offset) with (S (j - S offset)) by lia. exact H.
      - intros [Hlt H]. split; [lia|].
        replace (j - offset) with (S (j - S offset)) in H by lia. exact H. }
    destruct (N.eqb_spec c x) as [->|Hne].
    + cbn [In]. rewrite Hrest. split.
      * intros [<- | [Hlt H]]; [|split; [lia | exact H]].
        split; [lia|]. rewrite Nat.sub_diag. reflexivity.
      * intros [Hle H]. destruct (Nat.eq_dec offset j) as [->|Hoj]; [auto|].
        right. split; [lia | exact H].
    + rewrite Hrest. split.
      * intros [Hlt H]. split; [lia | exact H].
      * intros [Hle H]. split; [|exact H].
        destruct (Nat.eq_dec offset j) as [->|Hoj]; [|lia].
        rewrite Nat.sub_diag in H. cbn in H. congruence.
Qed.

Lemma indices_from_sorted (offset : nat) (l : pystr) (x : N) :
  StronglySorted lt (indices_from offset l x).
Proof.
  revert offset. induction l as [|c r IH]; intros offset; cbn [indices_from].
  - constructor.
  - destruct (c =? x)%N; [|apply IH].
    constructor; [apply IH|].
    apply List.Forall_forall. intros j Hj.
    apply indices_from_spec in Hj. lia.
Qed.

(** The inner loop in row [i], when the item of that row is not
    popular: only the cell on the diagonal can improve the best
    match. *)
Lemma inner_loop_diagonal (i : nat) (x : N) (js : list nat)
    (j2len newj2len : gmap nat nat) (best : Match) :
  s !! i = Some x -> is_popular s x = false ->
  (forall j v, j2len !! j = Some v -> v <= run s j /\ v <= prev_run s i) ->
  j2lenget j2len i = prev_run s i ->
  StronglySorted lt js ->
  (forall j, In j js -> s !! j = Some x) ->
  (forall j v, newj2len !! j = Some v -> v <= run s j /\ v <= run s i) ->
  (forall r, r < i -> run s r <= bestsize best) ->
  on_diagonal best ->
  (In i js
   \/ (run s i <= bestsize best /\ newj2len !! i = Some (run s i)
       /\ List.Forall (lt i) js)) ->
  let result := inner_loop i 0 (length s) js j2len newj2len best in
  (forall j v, fst result !! j = Some v -> v <= run s j /\ v <= run s i)
  /\ (forall r, r < i -> run s r <= bestsize (snd result))
  /\ on_diagonal (snd result)
  /\ run s i <= bestsize (snd result)
  /\ fst result !! i = Some (run s i).
Proof.
  intros Hx Hp Hold Hprev. cbn zeta. revert newj2len best.
  induction js as [|j js' IH];
    intros newj2len best Hsorted Hjs Hnew Hbest Hdiag Hstate.
  - cbn [inner_loop fst snd].
    destruct Hstate as [[] | (Hrun & Hi & _)]. auto.
  - cbn [inner_loop].
    assert (Hj : s !! j = Some x) by (apply Hjs; left; reflexivity).
    pose proof (lookup_lt_Some _ _ _ Hj) as Hjn.
    destruct (Nat.leb_spec (length s) j) as [Hge|_]; [lia|].
    change (j <? 0) with false. cbn iota.
    apply StronglySorted_inv in Hsorted as [Hsorted' Hlt].
    set (k := j2lenget j2len j + 1).
    assert (Hkj : k <= run s j).
    { rewrite (run_unfold j x Hj Hp). subst k.
      destruct j as [|j']; cbn [j2lenget prev_run]; [lia|].
      destruct (j2len !! j') as [v|] eqn:E; simpl; [|lia].
      destruct (Hold j' v E). lia. }
    assert (Hki : k <= run s i).
    { rewrite (run_unfold i x Hx Hp). subst k.
      destruct j as [|j']; cbn [j2lenget]; [lia|].
      destruct (j2len !! j') as [v|] eqn:E; simpl; [|lia].
      destruct (Hold j' v E). lia. }
    assert (Hnew' : forall j0 v, <[j := k]> newj2len !! j0 = Some v ->
                                 v <= run s j0 /\ v <= run s i).
    { intros j0 v Hv. apply lookup_insert_Some in Hv as [[<- <-] | [_ Hv]].
      - auto.
      - exact (Hnew j0 v Hv). }
    destruct best as [[besti bestj] size]. unfold bestsize in *.
    cbn [snd] in *.
    destruct (Nat.eq_dec j i) as [->|Hji].
    + (* the cell on the diagonal *)
      assert (Hk : k = run s i).
      { rewrite (run_unfold i x Hx Hp). subst k. rewrite Hprev. lia. }
      apply IH; try assumption.
      * intros j0 Hj0. apply Hjs. right. exact Hj0.
      * intros r Hr. specialize (Hbest r Hr).
        destruct (Nat.ltb_spec size k); cbn [snd]; lia.
      * destruct (Nat.ltb_spec size k); [reflexivity | exact Hdiag].
      * right. split; [|split].
        -- destruct (Nat.ltb_spec size k); cbn [snd]; lia.
        -- rewrite <- Hk. apply lookup_insert_eq.
        -- exact Hlt.
    + (* a cell off the diagonal: the best match stays *)
      assert (Hsize : k <= size).
      { destruct Hstate as [[Heq | Hin] | (Hrun & _ & Hall)].
        - congruence.
        - assert (j < i).
          { eapply List.Forall_forall in Hlt; [exact Hlt | exact Hin]. }
          specialize (Hbest j). lia.
        - lia. }
      destruct (Nat.ltb_spec size k) as [Hlt'|_]; [lia|].
      apply IH; try assumption.
      * intros j0 Hj0. apply Hjs. right. exact Hj0.
      * destruct Hstate as [[Heq | Hin] | (Hrun & Hi & Hall)].
        -- congruence.
        -- left. exact Hin.
        -- right. split; [exact Hrun|]. split.
           ++ rewrite lookup_insert_ne by exact Hji. exact Hi.
           ++ apply List.Forall_inv_tail in Hall. exact Hall.
Qed.

Lemma outer_step_self (i : nat) (state : gmap nat nat * Match) :
  i < length s -> self_state s i state ->
  self_state s (S i) (outer_step s s 0 (length s) state i).
Proof.
  intros Hi (Hold & Hprev & Hbest & Hdiag).
  destruct state as [j2len best]. cbn [fst snd] in *.
  unfold outer_step.
  destruct (s !! i) as [x|] eqn:Hx;
    [|apply lookup_ge_None in Hx; lia].
  unfold b2j. destruct (is_popular s x) eqn:Hp.
  - cbn [inner_loop]. unfold self_state. cbn [fst snd prev_run j2lenget].
    rewrite lookup_empty, (run_popular i x Hx Hp). simpl.
    repeat split; try assumption.
    + rewrite lookup_empty in H. discriminate.
    + rewrite lookup_empty in H. discriminate.
    + intros r Hr. destruct (Nat.eq_dec r i) as [->|Hne].
      * rewrite (run_popular i x Hx Hp). lia.
      * apply Hbest. lia.
  - pose proof (inner_loop_diagonal i x (indices_from 0 s x) j2len ∅ best
                  Hx Hp Hold Hprev (indices_from_sorted 0 s x)) as H.
    cbn zeta in H.
    destruct H as (Hnew & Hbest' & Hdiag' & Hrun & Hcell);
      try assumption.
    + intros j Hj. apply indices_from_spec in Hj as [_ Hj].
      rewrite Nat.sub_0_r in Hj. exact Hj.
    + intros j v Hv. rewrite lookup_empty in Hv. discriminate.
    + left. apply indices_from_spec. rewrite Nat.sub_0_r.
      split; [lia | exact Hx].
    + unfold self_state. cbn [prev_run j2lenget].
      split; [exact Hnew|]. split; [rewrite Hcell; reflexivity|].
      split; [|exact Hdiag'].
      intros r Hr. destruct (Nat.eq_dec r i) as [->|Hne];
        [exact Hrun | apply Hbest'; lia].
Qed.

Lemma outer_fold_self (count i : nat) (state : gmap nat nat * Match) :
  i + count <= length s -> self_state s i state ->
  on_diagonal
    (snd (fold_left (outer_step s s 0 (length s)) (seq i count) state)).
Proof.
  revert i state. induction count as [|count IH]; intros i state Hn Hstate.
  - cbn. apply Hstate.
  - cbn [seq fold_left]. apply IH; [lia|].
    apply outer_step_self; [lia | exact Hstate].
Qed.

Lemma same_item_self (i : nat) :
  i < length s -> same_item s s i i = true.
Proof.
  intros Hi. unfold same_item.
  destruct (s !! i) as [x|] eqn:Hx; [apply N.eqb_refl|].
  apply lookup_ge_None in Hx. lia.
Qed.

Lemma extend_left_self (d k : nat) :
  d <= length s -> extend_left s s 0 0 d d k = (0, 0, k + d).
Proof.
  revert k. induction d as [|d IH]; intros k Hd.
  - cbn. f_equal. lia.
  - cbn [extend_left]. change (0 <? S d) with true.
    rewrite same_item_self by lia. cbn [andb].
    rewrite IH by lia. f_equal. lia.
Qed.

Lemma extend_right_self (room k : nat) :
  room = length s - k -> k <= length s ->
  extend_right s s (length s) (length s) 0 0 k room = length s.
Proof.
  revert k. induction room as [|room IH]; intros k Hroom Hk.
  - cbn. lia.
  - cbn [extend_right Nat.add].
    destruct (Nat.ltb_spec k (length s)) as [Hlt|]; [|lia].
    rewrite same_item_self by exact Hlt. cbn [andb].
    apply IH; lia.
Qed.

(** The longest match of a sequence with itself is the whole
    sequence. *)
Lemma find_longest_match_self :
  find_longest_match s s 0 (length s) 0 (length s) = (0, 0, length s).
Proof.
  unfold find_longest_match.
  pose proof (outer_loop_inside s s 0 (length s) 0 (length s)
                (Nat.le_0_l _) (Nat.le_0_l _)) as Hin.
  assert (Hdiag : on_diagonal (snd (outer_loop s s 0 (length s) 0 (length s)))).
  { unfold outer_loop. apply outer_fold_self; [lia|].
    unfold self_state, on_diagonal. cbn [fst snd j2lenget prev_run].
    repeat split; try lia.
    - rewrite lookup_empty in H. discriminate.
    - rewrite lookup_empty in H. discriminate. }
  destruct (snd (outer_loop s s 0 (length s) 0 (length s)))
    as [[besti bestj] size].
  unfold on_diagonal in Hdiag. cbn in Hin, Hdiag. subst bestj.
  destruct Hin as (_ & Hn & _ & _).
  rewrite extend_left_self by lia.
  rewrite extend_right_self; [reflexivity | lia | lia].
Qed.

Lemma matches_self : matches s s = length s.
Proof.
  unfold matches, collected_blocks.
  replace (2 * length s + 2) with (S (S (2 * length s))) by lia.
  cbn [blocks_loop]. rewrite find_longest_match_self.
  destruct (length s) as [|n] eqn:E.
  - reflexivity.
  - change (S n =? 0) with false. cbn iota.
    change (0 <? 0) with false. cbn [andb].
    rewrite Nat.ltb_irrefl. cbn [andb]. cbn. lia.
Qed.

End SelfMatch.

(** ** Similarity score ([agents/optimization_agent.py]) *)

Section Similarity.
Import Difflib OptimizationAgent Inputs.

Lemma calculate_ratio_range (found total : nat) :
  (2 * found <= total)%nat ->
  (0 <= _calculate_ratio found total <= 1)%Q.
Proof.
  intros H. unfold _calculate_ratio. destruct total as [|total'].
  - split; [discriminate | apply Qle_refl].
  - set (total := S total') in *.
    assert (Hpos : (0 < inject_Z (Z.of_nat total))%Q).
    { unfold Qlt. cbn. lia. }
    split.
    + apply Qle_shift_div_l; [exact Hpos|].
      unfold Qle. cbn. lia.
    + apply Qle_shift_div_r; [exact Hpos|].
      unfold Qle. cbn. lia.
Qed.

Lemma ratio_range (a b : pystr) : (0 <= ratio a b <= 1)%Q.
Proof.
  unfold ratio. apply calculate_ratio_range.
  pose proof (matches_bound a b). lia.
Qed.

Lemma ratio_self (s : pystr) : (ratio s s == 1)%Q.
Proof.
  unfold ratio, _calculate_ratio. rewrite matches_self.
  destruct (length s) as [|n] eqn:E; [reflexivity|].
  cbn [Nat.add]. change (S (n + S n)) with (S n + S n)%nat.
  rewrite Nat2Z.inj_add.
  assert (Hz : (0 < Z.of_nat (S n))%Z) by lia.
  set (z := Z.of_nat (S n)) in *.
  assert (Heq : (Qmult (2 # 1) (inject_Z z) == inject_Z (z + z))%Q).
  { unfold Qeq, Qmult, inject_Z. cbn [Qnum Qden]. lia. }
  rewrite Heq. apply Qmult_inv_r.
  unfold Qeq, inject_Z. cbn [Qnum Qden]. lia.
Qed.

(** C7, as stated, fails in its first part: the score is not symmetric.
    With the titles [tide] and [diet] (and no steps) the score is 0.55
    in one order and 0.70 in the other. *)
Lemma similarity_not_symmetric :
  ~ (@_similarity ascii_runtime tc_tide tc_diet
     == @_similarity ascii_runtime tc_diet tc_tide)%Q.
Proof. unfold Qeq. vm_compute. discriminate. Qed.

Section WithRuntime.
Context {R : Runtime}.

(** C7 (amended): for every two test cases the score lies in [0, 1],
    and it equals 1 whenever the lower-cased titles are equal and the
    lower-cased, space-joined step texts are equal; in particular when
    the titles and the step lists are identical.  Symmetry is not
    claimed. *)
Theorem similarity_range_and_identity (first second : Dto.TestCaseDTO) :
  (0 <= _similarity first second <= 1)%Q
  /\ (str_lower (Dto.title first) = str_lower (Dto.title second) ->
      str_lower (join [space] (Dto.steps first))
      = str_lower (join [space] (Dto.steps second)) ->
      (_similarity first second == 1)%Q)
  /\ (Dto.title first = Dto.title second ->
      Dto.steps first = Dto.steps second ->
      (_similarity first second == 1)%Q).
Proof.
  unfold _similarity.
  assert (Hsame : forall t1 t2 s1 s2 : pystr, t1 = t2 -> s1 = s2 ->
            (ratio t1 t2 * (6 # 10) + ratio s1 s2 * (4 # 10) == 1)%Q).
  { intros t1 t2 s1 s2 <- <-. rewrite !ratio_self. reflexivity. }
  split; [|split].
  - pose proof (ratio_range (str_lower (Dto.title first))
                            (str_lower (Dto.title second))) as Ht.
    pose proof (ratio_range (str_lower (join [space] (Dto.steps first)))
                            (str_lower (join [space] (Dto.steps second))))
      as Hs.
    split; lra.
  - intros Ht Hs. apply Hsame; assumption.
  - intros Ht Hs. apply Hsame; congruence.
Qed.

End WithRuntime.

Lemma similarity_range_and_identity_witness :
  (@_similarity ascii_runtime tc_login tc_login_upper == 1)%Q.
Proof.
  destruct (@similarity_range_and_identity ascii_runtime
              tc_login tc_login_upper) as (_ & H & _).
  apply H; reflexivity.
Defined.

End Similarity.

(** ** Duplicate check ([agents/optimization_agent.py]) *)

Section Duplicates.
Import Difflib OptimizationAgent Inputs.

(** The comparison of the priorities' values is the comparison of the
    strings: NORMAL above LOW above CRITICAL. *)
Lemma keep_first_order (tc other : Dto.TestCaseDTO) :
  keep_first tc other
  = match Dto.priority tc, Dto.priority other with
    | CRITICAL, (NORMAL | LOW) => false
    | LOW, NORMAL => false
    | _, _ => true
    end.
Proof.
  unfold keep_first.
  destruct (Dto.priority tc), (Dto.priority other); reflexivity.
Qed.

(** C2 at a pair of similar cases, the first CRITICAL and the second
    NORMAL: the one recommendation keeps the NORMAL case and sends the
    CRITICAL one to review, where the specification keeps the CRITICAL
    one. *)
Theorem find_duplicates_drops_critical :
  map action
    (dup_recommendations
       (@_find_duplicates ascii_runtime [tc_critical; tc_normal] (8 # 10)))
  = [lit "Keep login check b, review login check a for merge/removal"]
  /\ Dto.title (claimed_keep tc_critical tc_normal) = lit "login check a".
Proof. vm_compute. split; reflexivity. Qed.

End Duplicates.

(** ** Fallback of the UI autotest agent ([agents/manual_to_ui_tests.py]) *)

Section UIFallback.
Import ManualToUITests Inputs.

Lemma failing_client_always_fails : LLM.always_fails failing_client.
Proof. split; intros; eexists; reflexivity. Qed.

(** C1, as stated, fails: with a viewport that has no [width] entry the
    prompt cannot be built, the [KeyError] reaches the outer handler and
    the output has [success = False], although the input carries two
    test cases and no priority filter and the client always fails. *)
Lemma fallback_needs_viewport :
  LLM.always_fails failing_client
  /\ Input.testcases (ui_input ∅) <> []
  /\ Input.priority_filter (ui_input ∅) = None
  /\ Output.success (@execute ascii_runtime failing_client (ui_input ∅))
     = false
  /\ Output.generated_tests
       (@execute ascii_runtime failing_client (ui_input ∅)) = [].
Proof.
  split; [exact failing_client_always_fails|].
  split; [discriminate|]. split; [reflexivity|].
  split; vm_compute; reflexivity.
Qed.

Section WithRuntime.
Context {R : Runtime}.

(** C1 (amended): if every call to the client raises, then for every
    input with a non-empty list of test cases, no priority filter and a
    viewport that has the entries [width] and [height], [execute]
    returns [success = True] with exactly one generated file per input
    test case, the fallback file of that case, each with
    [test_count = 1]. *)
Theorem execute_falls_back (llm_client : LLM.LLMClient)
    (input_data : Input.ManualToUITestsInput) :
  LLM.always_fails llm_client ->
  Input.testcases input_data <> [] ->
  Input.priority_filter input_data = None ->
  is_Some (Input.viewport input_data !! lit "width") ->
  is_Some (Input.viewport input_data !! lit "height") ->
  let out := execute llm_client input_data in
  Output.success out = true
  /\ length (Output.generated_tests out)
     = length (Input.testcases input_data)
  /\ Output.generated_tests out
     = map (fun tc => _fallback_file tc input_data)
           (Input.testcases input_data)
  /\ Forall (fun file => File.test_count file = 1)
            (Output.generated_tests out)
  /\ Output.total_tests out
     = Z.of_nat (length (Input.testcases input_data)).
Proof.
  intros [Hjson _] Hne Hfilter [w Hw] [h Hh]. cbn zeta.
  unfold execute. rewrite Hfilter. cbn [_filter_by_priority].
  destruct (Input.testcases input_data) as [|tc rest] eqn:Htcs;
    [congruence|].
  rewrite <- Htcs. unfold _build_prompt. rewrite Hw, Hh.
  unfold generate_structured_response.
  destruct (Hjson
              (lit "Base URL: " ++ Input.base_url input_data ++ nl
               ++ lit "Framework: " ++ Input.framework input_data ++ nl
               ++ lit "Browsers: "
               ++ join (lit ", ") (Input.browsers input_data) ++ nl
               ++ lit "Viewport: " ++ str_of_int w ++ lit "x"
               ++ str_of_int h ++ nl
               ++ lit "Headless: "
               ++ (if Input.headless input_data then lit "True"
                   else lit "False") ++ nl
               ++ lit "Timeout: " ++ str_of_int (Input.timeout input_data)
               ++ lit " ms" ++ nl
               ++ lit "Manual test cases:" ++ nl
               ++ join (nl ++ nl)
                    (imap (fun idx tc => case_summary (S idx) tc)
                          (Input.testcases input_data))
               ++ nl ++ nl ++ lit "Return JSON with key 'tests': ["
               ++ lit "{" ++ dq ++ lit "filename" ++ dq ++ lit ": " ++ dq
               ++ lit "..." ++ dq ++ lit ", " ++ dq ++ lit "python_code" ++ dq
               ++ lit ": " ++ dq ++ lit "..." ++ dq ++ lit ", " ++ dq
               ++ lit "test_count" ++ dq ++ lit ": <int>}]. "
               ++ lit "Each python_code must be valid pytest with Playwright page fixture.")
              get_system_prompt (35 # 100)) as [e He].
  rewrite He.
  cbn [Output.success Output.generated_tests Output.total_tests].
  set (files := map (fun tc0 => _fallback_file tc0 input_data)
                    (Input.testcases input_data)).
  assert (Hone : Forall (fun file => File.test_count file = 1) files).
  { subst files. apply Forall_map, Forall_forall. intros; reflexivity. }
  assert (Hsum : forall (l : list File.GeneratedTestFile) (acc : Z),
             Forall (fun file => File.test_count file = 1) l ->
             fold_left Z.add (map File.test_count l) acc
             = acc + Z.of_nat (length l)).
  { induction l as [|f l IH]; intros acc Hl; cbn [map fold_left length].
    - lia.
    - apply Forall_cons in Hl as [Hf Hl]. rewrite IH by exact Hl.
      rewrite Hf. lia. }
  split; [reflexivity|].
  split; [subst files; apply length_map|].
  split; [reflexivity|]. split; [exact Hone|].
  unfold sum_test_count. rewrite Hsum by exact Hone.
  subst files. rewrite length_map. lia.
Qed.

End WithRuntime.

Lemma execute_falls_back_witness :
  Output.success
    (@execute ascii_runtime failing_client (ui_input default_viewport))
  = true
  /\ length
       (Output.generated_tests
          (@execute ascii_runtime failing_client
             (ui_input default_viewport))) = 2%nat.
Proof.
  destruct (@execute_falls_back ascii_runtime failing_client
              (ui_input default_viewport))
    as (Hs & Hl & _).
  - split; intros; eexists; reflexivity.
  - discriminate.
  - reflexivity.
  - eexists. vm_compute. reflexivity.
  - eexists. vm_compute. reflexivity.
  - split; [exact Hs | exact Hl].
Defined.

End UIFallback.

(** ** Parse failures of the test-plan agent ([agents/testplan_agent.py]) *)

Section TestPlanFailures.
Import TestPlanAgent Inputs.



Lemma rstrip_nil (p : N -> bool) (s : pystr) :
  rstrip_with p s = [] <-> Forall (fun c => p c = true) s.
Proof.
  induction s as [|c r IH]; cbn [rstrip_with].
  - split; [constructor | reflexivity].
  - destruct (rstrip_with p r) as [|d t] eqn:E.
    + destruct (p c) eqn:Hc.
      * split; [intros _; constructor; [exact Hc | apply IH; reflexivity]
               | reflexivity].
      * split; [discriminate|]. intros H. apply Forall_cons in H as [H _].
        congruence.
    + split; [discriminate|]. intros H. apply Forall_cons in H as [_ H].
      apply IH in H. discriminate.
Qed.


Section Agent.
Variable json_loads : pystr -> result pyval.
Variable _call_llm : pystr -> result pystr.
Variable prompt_text :
  list Dto.TestCaseDTO -> analysis -> Input.TestPlanInput -> pystr.
Variable build_output :
  Input.TestPlanInput -> list Dto.TestCaseDTO -> analysis -> pyval ->
  result Output.TestPlanOutput.



End Agent.



End TestPlanFailures.

(** ** The job storage ([storage/job_storage.py]) *)

Section JobStore.
Import JobManager Inputs.

(** X1: [update_job_status] touches one job only, and of that job
    only the status, the time of the update and, when a non-empty
    message is given, the message; every other field and every other
    job stay as they were.  For an id that is not stored it raises
    [JobNotFoundException] and the storage is unchanged. *)
Theorem update_job_status_frame (now : datetime) (st : JobStorage)
    (id : UUID) (s : JobStatus) (msg : option pystr) :
  let '(r, st') := update_job_status now st id s msg in
  (forall id', id' <> id -> get_job st' id' = get_job st id')
  /\ match get_job st id with
     | None => r = Raise (JobNotFoundException id) /\ st' = st
     | Some job =>
         exists job',
           r = Return job'
           /\ get_job st' id = Some job'
           /\ status job' = s
           /\ updated_at job' = Some now
           /\ message job'
              = match msg with
                | Some ((_ :: _) as m) => Some m
                | _ => message job
                end
           /\ job_id job' = job_id job
           /\ created_at job' = created_at job
           /\ estimated_time job' = estimated_time job
           /\ testcases job' = testcases job
           /\ download_url job' = download_url job
           /\ metrics job' = metrics job
     end.
Proof.
  unfold update_job_status, update_job, get_job.
  destruct (_jobs st !! id) as [job|] eqn:Hjob.
  - split.
    + intros id' Hne. cbn [_jobs]. apply lookup_insert_ne. congruence.
    + eexists. split; [reflexivity|]. split.
      { cbn [_jobs]. apply lookup_insert_eq. }
      cbn [status updated_at message job_id created_at estimated_time
           testcases download_url metrics upd_status upd_message].
      split; [reflexivity|]. split; [reflexivity|].
      split; [|repeat split].
      destruct msg as [[|c m]|]; reflexivity.
  - split; [reflexivity|]. split; reflexivity.
Qed.

(** X2: [delete_job] answers whether the job was stored; afterwards
    the job is gone, every other job is as before, and a second
    deletion answers false and changes nothing. *)
Theorem delete_job_spec (st : JobStorage) (id : UUID) :
  let '(deleted, st') := delete_job st id in
  deleted = bool_decide (is_Some (get_job st id))
  /\ get_job st' id = None
  /\ (forall id', id' <> id -> get_job st' id' = get_job st id')
  /\ delete_job st' id = (false, st').
Proof.
  unfold delete_job, get_job.
  destruct (_jobs st !! id) as [job|] eqn:Hjob; cbn [_jobs].
  - split; [reflexivity|]. split; [apply lookup_delete_eq|].
    split.
    + intros id' Hne. apply lookup_delete_ne. congruence.
    + rewrite lookup_delete_eq. reflexivity.
  - split; [reflexivity|]. split; [assumption|].
    split; [reflexivity|]. rewrite Hjob. reflexivity.
Qed.

(** X3: a job created under an id that is not yet stored can be
    looked up, is PENDING with creation and update time equal to the
    time of the call, leaves every other job alone, and deleting it
    gives back the storage as it was before the creation. *)
Theorem create_then_delete (new_id : UUID) (now : datetime)
    (st : JobStorage) (job_type : pystr)
    (metadata : option (list (pystr * pyval))) :
  get_job st new_id = None ->
  let '(job, st1) := create_job new_id now st job_type metadata in
  get_job st1 new_id = Some job
  /\ job_id job = new_id
  /\ status job = PENDING
  /\ created_at job = now
  /\ updated_at job = Some now
  /\ (forall id', id' <> new_id -> get_job st1 id' = get_job st id')
  /\ delete_job st1 new_id = (true, st).
Proof.
  intros Hfresh. unfold create_job, get_job, delete_job in *. cbn [_jobs].
  split; [apply lookup_insert_eq|].
  do 4 (split; [reflexivity|]).
  split.
  - intros id' Hne. apply lookup_insert_ne. congruence.
  - rewrite lookup_insert_eq. rewrite delete_insert_id by assumption.
    destruct st; reflexivity.
Qed.

Lemma create_then_delete_witness :
  get_job (job_storage idle_manager) 8%N = None
  /\ delete_job
       (snd (create_job 8%N 500 (job_storage idle_manager)
               (lit "testcase_generation") None)) 8%N
     = (true, job_storage idle_manager).
Proof.
  split; [reflexivity|].
  pose proof (create_then_delete 8%N 500 (job_storage idle_manager)
                (lit "testcase_generation") None eq_refl) as H.
  destruct (create_job 8%N 500 (job_storage idle_manager)
              (lit "testcase_generation") None) as [job st1].
  apply H.
Defined.

(** Deleting a list of keys, with the counter of [cleanup_old_jobs]. *)
Lemma delete_loop_lookup (l : list UUID) (jobs : gmap UUID JobResponse)
    (n : Z) (k : UUID) :
  fst (fold_left (fun (acc : gmap UUID JobResponse * Z) (id : UUID) =>
                    (delete id (fst acc), snd acc + 1)) l (jobs, n)) !! k
  = if bool_decide (k ∈ l) then None else jobs !! k.
Proof.
  revert jobs n. induction l as [|x l IH]; intros jobs n; cbn [fold_left fst snd].
  - rewrite bool_decide_eq_false_2; [reflexivity|]. apply not_elem_of_nil.
  - rewrite IH. destruct (decide (k = x)) as [->|Hne].
    + rewrite (bool_decide_eq_true_2 (x ∈ x :: l)) by apply elem_of_cons, or_introl, eq_refl.
      rewrite lookup_delete_eq. destruct (bool_decide (x ∈ l)); reflexivity.
    + rewrite lookup_delete_ne by congruence.
      destruct (decide (k ∈ l)) as [Hin|Hnin].
      * rewrite !bool_decide_eq_true_2; [reflexivity| |assumption].
        apply elem_of_cons. right. assumption.
      * rewrite !bool_decide_eq_false_2; [reflexivity| |assumption].
        rewrite elem_of_cons. tauto.
Qed.

Lemma delete_loop_count (l : list UUID) (jobs : gmap UUID JobResponse)
    (n : Z) :
  NoDup l ->
  (forall k, k ∈ l -> is_Some (jobs !! k)) ->
  let r := fold_left (fun (acc : gmap UUID JobResponse * Z) (id : UUID) =>
                        (delete id (fst acc), snd acc + 1)) l (jobs, n) in
  snd r = n + Z.of_nat (length l)
  /\ Z.of_nat (size (fst r)) = Z.of_nat (size jobs) - Z.of_nat (length l).
Proof.
  revert jobs n. induction l as [|x l IH]; intros jobs n Hnd Hin;
    cbn [fold_left fst snd length].
  - split; lia.
  - apply NoDup_cons in Hnd as [Hx Hnd].
    destruct (IH (delete x jobs) (n + 1) Hnd) as [Hc Hs].
    { intros k Hk. rewrite lookup_delete_ne.
      - apply Hin, elem_of_cons. right. assumption.
      - intros ->. contradiction. }
    cbv zeta in Hc, Hs. rewrite Hc, Hs.
    assert (Hsome : is_Some (jobs !! x)).
    { apply Hin, elem_of_cons. left. reflexivity. }
    rewrite map_size_delete_Some by assumption.
    assert (size jobs <> 0%nat).
    { apply (map_size_ne_0_lookup_2 jobs x). assumption. }
    split; lia.
Qed.

Lemma NoDup_fst_filter {A B : Type} (P : A * B -> bool)
    (l : list (A * B)) :
  NoDup (map fst l) -> NoDup (map fst (List.filter P l)).
Proof.
  induction l as [|x l IH]; cbn [List.filter map]; intros Hnd.
  - assumption.
  - apply NoDup_cons in Hnd as [Hx Hnd]. destruct (P x); cbn [map].
    + apply NoDup_cons. split; [|apply IH; assumption].
      intros Hin. apply Hx. apply list_elem_of_In in Hin.
      apply list_elem_of_In. apply in_map_iff in Hin as (y & Hy & Hin).
      apply in_map_iff. exists y. split; [assumption|].
      apply filter_In in Hin. tauto.
    + apply IH; assumption.
Qed.

Lemma old_jobs_elem (jobs : gmap UUID JobResponse) (cutoff : Z) (k : UUID) :
  k ∈ map fst
        (List.filter (fun kv : UUID * JobResponse =>
                        created_at (snd kv) <? cutoff)
           (map_to_list jobs))
  <-> exists job, jobs !! k = Some job /\ (created_at job <? cutoff) = true.
Proof.
  rewrite list_elem_of_In, in_map_iff. split.
  - intros ([k' job] & <- & Hin). apply filter_In in Hin as [Hin Hold].
    apply list_elem_of_In, elem_of_map_to_list in Hin.
    exists job. split; assumption.
  - intros (job & Hjob & Hold). exists (k, job). split; [reflexivity|].
    apply filter_In. split; [|assumption].
    apply list_elem_of_In, elem_of_map_to_list. assumption.
Qed.

(** X4: [cleanup_old_jobs] removes exactly the jobs created before
    the cut-off, [days] days before the call: such a job is gone
    afterwards, every other job is stored unchanged, and the number
    returned is the number of jobs removed. *)
Theorem cleanup_old_jobs_spec (now : datetime) (st : JobStorage)
    (days : Z) :
  let '(deleted_count, st') := cleanup_old_jobs now st days in
  (forall id,
      get_job st' id
      = match get_job st id with
        | Some job =>
            if created_at job <? now - timedelta_days days then None
            else Some job
        | None => None
        end)
  /\ deleted_count
     = Z.of_nat (size (_jobs st)) - Z.of_nat (size (_jobs st')).
Proof.
  unfold cleanup_old_jobs, get_job.
  set (cutoff := now - timedelta_days days).
  set (to_delete := map fst (List.filter _ (map_to_list (_jobs st)))).
  pose proof (delete_loop_lookup to_delete (_jobs st) 0) as Hlook.
  pose proof (delete_loop_count to_delete (_jobs st) 0) as Hcount.
  destruct (fold_left _ to_delete (_jobs st, 0)) as [jobs n] eqn:Hloop.
  cbn [fst snd _jobs] in *. split.
  - intros id. rewrite Hlook.
    destruct (_jobs st !! id) as [job|] eqn:Hjob.
    + destruct (created_at job <? cutoff) eqn:Hold.
      * rewrite bool_decide_eq_true_2; [reflexivity|].
        apply old_jobs_elem. exists job. split; assumption.
      * rewrite bool_decide_eq_false_2; [reflexivity|].
        intros Hin. apply old_jobs_elem in Hin as (job' & Hjob' & Hold').
        congruence.
    + destruct (bool_decide _); reflexivity.
  - destruct Hcount as [Hn Hs].
    + apply NoDup_fst_filter, NoDup_fst_map_to_list.
    + intros k Hk. apply old_jobs_elem in Hk as (job & -> & _). eauto.
    + lia.
Qed.

End JobStore.

(** ** Job statistics ([storage/job_storage.py]) *)

Section JobStatistics.
Import JobManager Inputs.

Lemma statistics_loop (jobs : list JobResponse) (c : status_counts)
    (n : Z) :
  counted (fst (fold_left statistics_step jobs (c, n)))
  = counted c
    + Z.of_nat (length (List.filter has_counter jobs)).
Proof.
  revert c n. induction jobs as [|job jobs IH]; intros c n;
    cbn [fold_left List.filter length fst].
  - lia.
  - unfold statistics_step at 2. cbn [fst snd]. rewrite IH.
    unfold has_counter at 2.
    destruct (status job); cbn [length count_status]; unfold counted;
      cbn [n_pending n_processing n_completed n_failed]; lia.
Qed.

Lemma filter_length_all {A : Type} (P : A -> bool) (l : list A) :
  (length (List.filter P l) <= length l)%nat
  /\ (length (List.filter P l) = length l <-> forall x, In x l -> P x = true).
Proof.
  induction l as [|x l [IHle IHeq]]; cbn [List.filter length].
  - split; [lia|]. split; [intros _ x []|reflexivity].
  - destruct (P x) eqn:HP; cbn [length].
    + split; [lia|]. split.
      * intros Hlen x' [<-|Hin]; [assumption|]. apply IHeq; [lia|assumption].
      * intros Hall. f_equal. apply IHeq. intros x' Hin. apply Hall.
        right. assumption.
    + split; [lia|]. split; [lia|].
      intros Hall. specialize (Hall x (or_introl eq_refl)). congruence.
Qed.

(** X5: in the statistics the four status counters never add up to
    more than the number of stored jobs, which is [total_jobs]; they
    add up to it exactly when no stored job is CANCELLED, a status
    for which the statistics keep no counter. *)
Theorem statistics_counts_total (st : JobStorage) :
  let s := get_job_statistics st in
  let sum :=
    n_pending (counts s) + n_processing (counts s)
    + n_completed (counts s) + n_failed (counts s) in
  total_jobs s = Z.of_nat (size (_jobs st))
  /\ sum <= total_jobs s
  /\ (sum = total_jobs s
      <-> forall id job, get_job st id = Some job -> status job <> CANCELLED).
Proof.
  unfold get_job_statistics, get_job.
  set (jobs := map snd (map_to_list (_jobs st))).
  pose proof (statistics_loop jobs
                {| n_pending := 0; n_processing := 0;
                   n_completed := 0; n_failed := 0 |} 0) as Hloop.
  destruct (fold_left statistics_step jobs _) as [c n].
  cbn [fst counts total_jobs] in *. cbv zeta.
  unfold counted in Hloop. cbn [n_pending n_processing n_completed n_failed]
    in Hloop. rewrite Hloop. unfold len_list.
  destruct (filter_length_all has_counter jobs) as [Hle Heq].
  split.
  { unfold jobs. rewrite length_map, length_map_to_list. reflexivity. }
  split; [lia|].
  split.
  - intros Hsum id job Hjob.
    assert (Hlen : length (List.filter has_counter jobs) = length jobs)
      by lia.
    apply Heq with (x := job) in Hlen.
    + unfold has_counter in Hlen. intros Hc. rewrite Hc in Hlen.
      discriminate.
    + unfold jobs. apply in_map_iff. exists (id, job). split; [reflexivity|].
      apply list_elem_of_In, elem_of_map_to_list. assumption.
  - intros Hall.
    enough (length (List.filter has_counter jobs) = length jobs) by lia.
    apply Heq. intros job Hin. unfold jobs in Hin.
    apply in_map_iff in Hin as ([id job'] & <- & Hin).
    apply list_elem_of_In, elem_of_map_to_list in Hin.
    specialize (Hall id job' Hin). unfold has_counter. cbn [snd].
    destruct (status job'); try reflexivity. congruence.
Qed.

End JobStatistics.

(** ** Starting and cancelling jobs ([services/job_manager.py]) *)

Section JobLifecycle.
Import JobManager Inputs.

(** X6: [start_job] on an id that is not stored raises
    [JobNotFoundException] and registers no task: the manager is as
    before.  On a stored job it sets the status PROCESSING with the
    message [Job started], registers the task under the id, and
    leaves every other job and every other registration alone. *)
Theorem start_job_spec (now : datetime) (m : JobManager) (id : UUID)
    (task : Task) :
  let '(r, m') := start_job now m id task in
  match get_job_status m id with
  | None => r = Raise (JobNotFoundException id) /\ m' = m
  | Some job =>
      exists job',
        r = Return job'
        /\ get_job_status m' id = Some job'
        /\ status job' = PROCESSING
        /\ message job' = Some (lit "Job started")
        /\ created_at job' = created_at job
        /\ is_job_running m' id = true
        /\ (forall id', id' <> id ->
              is_job_running m' id' = is_job_running m id'
              /\ get_job_status m' id' = get_job_status m id')
  end.
Proof.
  unfold start_job, update_job_status, update_job, get_job_status,
    is_job_running.
  destruct (_jobs (job_storage m) !! id) as [job|] eqn:Hjob.
  - eexists. split; [reflexivity|]. cbn [job_storage running_tasks _jobs].
    split; [apply lookup_insert_eq|].
    cbn [status message created_at upd_status upd_message default].
    do 3 (split; [reflexivity|]).
    split.
    + rewrite lookup_insert_eq. apply bool_decide_eq_true_2. eauto.
    + intros id' Hne. rewrite !lookup_insert_ne by congruence.
      split; reflexivity.
  - split; [reflexivity|]. destruct m as [[jobs] tasks cbs]. reflexivity.
Qed.



End JobLifecycle.

(** ** The checks of the optimization agent
    ([agents/optimization_agent.py]) *)

Section OptimizationChecks.
Import Difflib OptimizationAgent Inputs.

Section WithRuntime.
Context {R : Runtime}.

Lemma ordered_pairs_lookup (testcases : list Dto.TestCaseDTO)
    (a b : Dto.TestCaseDTO) :
  In (a, b) (ordered_pairs testcases)
  <-> exists i j, (i < j)%nat
        /\ testcases !! i = Some a /\ testcases !! j = Some b.
Proof.
  induction testcases as [|tc rest IH]; cbn [ordered_pairs].
  - split; [intros []|]. intros (i & j & _ & H & _). discriminate.
  - rewrite in_app_iff, in_map_iff, IH. split.
    + intros [(x & [= <- <-] & Hin) | (i & j & Hlt & Hi & Hj)].
      * apply list_elem_of_In, list_elem_of_lookup in Hin as [k Hk].
        exists 0%nat, (S k). split; [lia|]. split; [reflexivity|exact Hk].
      * exists (S i), (S j). split; [lia|]. split; assumption.
    + intros (i & j & Hlt & Hi & Hj). destruct j as [|j]; [lia|].
      destruct i as [|i].
      * left. exists b. injection Hi as ->. split; [reflexivity|].
        apply list_elem_of_In, list_elem_of_lookup. exists j. exact Hj.
      * right. exists i, j. split; [lia|]. split; assumption.
Qed.

Lemma pair_loop (threshold : Q) (tc : Dto.TestCaseDTO)
    (rest : list Dto.TestCaseDTO)
    (dups : list duplicate_pair) (recs : list recommendation) :
  fold_left (pair_step threshold tc) rest (dups, recs)
  = (dups
       ++ map (fun p : Dto.TestCaseDTO * Dto.TestCaseDTO =>
                 {| testcase1 := str_of_uuid (Dto.id (fst p));
                    testcase2 := str_of_uuid (Dto.id (snd p));
                    similarity := _similarity (fst p) (snd p) |})
            (List.filter
               (fun p => Qle_bool threshold (_similarity (fst p) (snd p)))
               (map (pair tc) rest)),
     recs
       ++ map (fun p : Dto.TestCaseDTO * Dto.TestCaseDTO =>
                 duplicate_recommendation (fst p) (snd p)
                   (_similarity (fst p) (snd p)))
            (List.filter
               (fun p => Qle_bool threshold (_similarity (fst p) (snd p)))
               (map (pair tc) rest))).
Proof.
  revert dups recs. induction rest as [|other rest IH]; intros dups recs;
    cbn [fold_left map List.filter].
  - rewrite !app_nil_r. reflexivity.
  - unfold pair_step at 2. cbn [fst snd].
    destruct (Qle_bool threshold (_similarity tc other)).
    + rewrite IH. cbn [map fst snd]. rewrite <- !app_assoc. reflexivity.
    + apply IH.
Qed.

Lemma pairs_loop_spec (threshold : Q) (testcases : list Dto.TestCaseDTO)
    (dups : list duplicate_pair) (recs : list recommendation) :
  pairs_loop threshold testcases (dups, recs)
  = (dups
       ++ map (fun p : Dto.TestCaseDTO * Dto.TestCaseDTO =>
                 {| testcase1 := str_of_uuid (Dto.id (fst p));
                    testcase2 := str_of_uuid (Dto.id (snd p));
                    similarity := _similarity (fst p) (snd p) |})
            (List.filter
               (fun p => Qle_bool threshold (_similarity (fst p) (snd p)))
               (ordered_pairs testcases)),
     recs
       ++ map (fun p : Dto.TestCaseDTO * Dto.TestCaseDTO =>
                 duplicate_recommendation (fst p) (snd p)
                   (_similarity (fst p) (snd p)))
            (List.filter
               (fun p => Qle_bool threshold (_similarity (fst p) (snd p)))
               (ordered_pairs testcases))).
Proof.
  revert dups recs. induction testcases as [|tc rest IH]; intros dups recs;
    cbn [pairs_loop ordered_pairs].
  - cbn [List.filter map]. rewrite !app_nil_r. reflexivity.
  - rewrite pair_loop, IH, List.filter_app, !map_app, <- !app_assoc.
    reflexivity.
Qed.



(** X9: two test cases of the list with the same title and the same
    steps are reported as duplicates of each other at every threshold
    up to 1, with a similarity of 1, whatever else they differ in. *)
Theorem identical_cases_reported (testcases : list Dto.TestCaseDTO)
    (threshold : Q) (i j : nat) (a b : Dto.TestCaseDTO) :
  (i < j)%nat ->
  testcases !! i = Some a -> testcases !! j = Some b ->
  Dto.title a = Dto.title b -> Dto.steps a = Dto.steps b ->
  (threshold <= 1)%Q ->
  exists d,
    In d (duplicates (_find_duplicates testcases threshold))
    /\ testcase1 d = str_of_uuid (Dto.id a)
    /\ testcase2 d = str_of_uuid (Dto.id b)
    /\ (similarity d == 1)%Q.
Proof.
  intros Hlt Hi Hj Htitle Hsteps Hth.
  assert (Hone : (_similarity a b == 1)%Q).
  { unfold _similarity. rewrite Htitle, Hsteps, !ratio_self. reflexivity. }
  unfold _find_duplicates. rewrite pairs_loop_spec.
  cbn [duplicates app].
  eexists. split; [|split; [|split]].
  - apply in_map_iff. exists (a, b). split; [reflexivity|].
    apply filter_In. split.
    + apply ordered_pairs_lookup. exists i, j. auto.
    + apply Qle_bool_iff. cbn [fst snd]. rewrite Hone. exact Hth.
  - reflexivity.
  - reflexivity.
  - exact Hone.
Qed.

(** X10: equal titles alone give a similarity of at least 0.6, and
    equal step lists alone give at least 0.4; so two cases that both
    have no steps never score below 0.4. *)
Theorem similarity_lower_bounds (first second : Dto.TestCaseDTO) :
  (Dto.title first = Dto.title second ->
   (6 # 10 <= _similarity first second)%Q)
  /\ (Dto.steps first = Dto.steps second ->
      (4 # 10 <= _similarity first second)%Q).
Proof.
  unfold _similarity.
  pose proof (ratio_range (str_lower (Dto.title first))
                          (str_lower (Dto.title second))) as Ht.
  pose proof (ratio_range (str_lower (join [space] (Dto.steps first)))
                          (str_lower (join [space] (Dto.steps second))))
    as Hs.
  split; intros Heq; rewrite Heq in *.
  - rewrite ratio_self. lra.
  - rewrite (ratio_self (str_lower (join [space] (Dto.steps second)))). lra.
Qed.

End WithRuntime.

Lemma identical_cases_reported_witness :
  exists d,
    In d (duplicates
            (@_find_duplicates ascii_runtime [tc_tide; tc_diet; tc_tide]
               (8 # 10)))
    /\ testcase1 d = str_of_uuid 1%N
    /\ testcase2 d = str_of_uuid 1%N
    /\ (similarity d == 1)%Q.
Proof.
  apply (@identical_cases_reported ascii_runtime
           [tc_tide; tc_diet; tc_tide] (8 # 10) 0%nat 2%nat tc_tide tc_tide).
  - lia.
  - reflexivity.
  - reflexivity.
  - reflexivity.
  - reflexivity.
  - vm_compute. discriminate.
Defined.

Lemma similarity_lower_bounds_witness :
  (4 # 10 <= @_similarity ascii_runtime tc_critical tc_normal)%Q.
Proof.
  destruct (@similarity_lower_bounds ascii_runtime tc_critical tc_normal)
    as [_ H].
  apply H. reflexivity.
Defined.

End OptimizationChecks.

(** ** Outdated cases and the agent's entry point
    ([agents/optimization_agent.py]) *)

Section OptimizationExecute.
Import Difflib OptimizationAgent Inputs.

Lemma outdated_loop (testcases : list Dto.TestCaseDTO)
    (items : list outdated_item) (recs : list recommendation) :
  fold_left outdated_step testcases (items, recs)
  = (items
       ++ map outdated_entry
            (List.filter (fun tc => nonempty (outdated_reasons tc))
               testcases),
     recs
       ++ map outdated_recommendation
            (List.filter (fun tc => nonempty (outdated_reasons tc))
               testcases)).
Proof.
  revert items recs. induction testcases as [|tc rest IH];
    intros items recs; cbn [fold_left List.filter map].
  - rewrite !app_nil_r. reflexivity.
  - unfold outdated_step at 2.
    destruct (nonempty (outdated_reasons tc)).
    + rewrite IH. cbn [map]. rewrite <- !app_assoc. reflexivity.
    + apply IH.
Qed.

Lemma outdated_reasons_nonempty (tc : Dto.TestCaseDTO) :
  nonempty (outdated_reasons tc)
  = match Dto.priority tc, Dto.updated_at tc with
    | LOW, _ => true
    | _, None => true
    | _, Some _ => false
    end.
Proof.
  unfold outdated_reasons.
  destruct (Dto.priority tc), (Dto.updated_at tc); reflexivity.
Qed.

(** X11: a test case is flagged as outdated exactly when its priority
    is LOW or it has never been updated.  The flagged cases are
    reported in the order of the input, one entry and one
    recommendation of severity medium each; an entry carries one
    reason or two, and for a LOW case that was never updated the
    action names both reasons. *)
Theorem flag_outdated_spec (testcases : list Dto.TestCaseDTO) :
  let flagged := fun tc : Dto.TestCaseDTO =>
    match Dto.priority tc, Dto.updated_at tc with
    | LOW, _ => true
    | _, None => true
    | _, Some _ => false
    end in
  let r := _flag_outdated testcases in
  map out_id (outdated r)
  = map (fun tc => str_of_uuid (Dto.id tc)) (List.filter flagged testcases)
  /\ map message (out_recommendations r)
     = map (fun tc => Dto.title tc ++ lit " may be outdated")
         (List.filter flagged testcases)
  /\ Forall (fun rec => severity rec = lit "medium"
                        /\ rec_type rec = lit "outdated")
       (out_recommendations r)
  /\ Forall (fun item => length (reasons item) = 1%nat
                         \/ length (reasons item) = 2%nat)
       (outdated r)
  /\ (forall tc, In tc testcases ->
        Dto.priority tc = LOW -> Dto.updated_at tc = None ->
        exists rec, In rec (out_recommendations r)
          /\ message rec = Dto.title tc ++ lit " may be outdated"
          /\ action rec
             = lit "Low priority test; consider review; Never updated").
Proof.
  cbv zeta. unfold _flag_outdated. rewrite outdated_loop.
  cbn [outdated out_recommendations app].
  rewrite (filter_ext _ _ outdated_reasons_nonempty).
  split; [rewrite map_map; reflexivity|].
  split; [rewrite map_map; reflexivity|].
  split; [|split].
  - apply Forall_forall. intros rec Hin.
    apply list_elem_of_In, in_map_iff in Hin as (tc & <- & _).
    split; reflexivity.
  - apply Forall_forall. intros item Hin.
    apply list_elem_of_In, in_map_iff in Hin as (tc & <- & Hin).
    apply filter_In in Hin as [_ Hflag].
    cbn [reasons outdated_entry]. unfold outdated_reasons.
    destruct (Dto.priority tc), (Dto.updated_at tc);
      cbn [app length]; try discriminate; auto.
  - intros tc Hin Hlow Hnever. exists (outdated_recommendation tc).
    split; [|split].
    + apply in_map_iff. exists tc. split; [reflexivity|].
      apply filter_In. split; [exact Hin|]. rewrite Hlow. reflexivity.
    + reflexivity.
    + cbn [action outdated_recommendation]. unfold outdated_reasons.
      rewrite Hlow, Hnever. vm_compute. reflexivity.
Qed.

Lemma flag_outdated_spec_witness :
  exists rec,
    In rec (out_recommendations (_flag_outdated [tc_critical; tc_login]))
    /\ message rec = Dto.title tc_login ++ lit " may be outdated"
    /\ action rec = lit "Low priority test; consider review; Never updated".
Proof.
  apply (flag_outdated_spec [tc_critical; tc_login]).
  - right. left. reflexivity.
  - reflexivity.
  - reflexivity.
Defined.

Section WithRuntime.
Context {R : Runtime}.

Lemma find_duplicates_types (testcases : list Dto.TestCaseDTO)
    (threshold : Q) :
  Forall (fun rec => rec_type rec = lit "duplicate"
                     /\ severity rec = lit "medium")
    (dup_recommendations (_find_duplicates testcases threshold)).
Proof.
  unfold _find_duplicates. rewrite pairs_loop_spec.
  cbn [dup_recommendations app]. apply Forall_forall. intros rec Hin.
  apply list_elem_of_In, in_map_iff in Hin as ([a b] & <- & _).
  unfold duplicate_recommendation. cbn [fst snd].
  destruct (keep_drop a b). split; reflexivity.
Qed.

Lemma check_coverage_types (testcases : list Dto.TestCaseDTO)
    (requirements_text : pystr) :
  Forall (fun rec => rec_type rec = lit "coverage"
                     /\ severity rec = lit "high")
    (recommendations (_check_coverage testcases requirements_text)).
Proof.
  unfold _check_coverage. rewrite coverage_loop.
  cbn [recommendations app]. apply Forall_forall. intros rec Hin.
  apply list_elem_of_In, in_map_iff in Hin as (req & <- & _).
  split; reflexivity.
Qed.

Lemma flag_outdated_types (testcases : list Dto.TestCaseDTO) :
  Forall (fun rec => rec_type rec = lit "outdated"
                     /\ severity rec = lit "medium")
    (out_recommendations (_flag_outdated testcases)).
Proof.
  unfold _flag_outdated. rewrite outdated_loop.
  cbn [out_recommendations app]. apply Forall_forall. intros rec Hin.
  apply list_elem_of_In, in_map_iff in Hin as (tc & <- & _).
  split; reflexivity.
Qed.

(** X12: the agent always answers with [success = True] and hands
    the test cases back as they came.  A check that is not named in
    [checks] contributes nothing: its key is absent from the analysis
    and no recommendation has its type.  The coverage check also
    stays out when the requirements text is missing or empty.  The
    recommendations of a check that ran are those of the check, and
    each has the severity that belongs to its type: medium for a
    duplicate, high for coverage, medium for outdated. *)
Theorem execute_checks (input_data : Input.OptimizationInput) :
  let out := execute input_data in
  let runs_coverage :=
    has_check (lit "coverage") input_data
    && match Input.requirements_text input_data with
       | Some (_ :: _) => true
       | _ => false
       end in
  Output.success out = true
  /\ Output.error out = None
  /\ Output.optimized_testcases out = Input.testcases input_data
  /\ (is_Some (Output.an_duplicates (Output.analysis out))
      <-> has_check (lit "duplicates") input_data = true)
  /\ (is_Some (Output.an_coverage (Output.analysis out))
      <-> runs_coverage = true)
  /\ (is_Some (Output.an_outdated (Output.analysis out))
      <-> has_check (lit "outdated") input_data = true)
  /\ Output.recommendations out
     = default [] (dup_recommendations
                     <$> Output.an_duplicates (Output.analysis out))
       ++ default [] (recommendations
                        <$> Output.an_coverage (Output.analysis out))
       ++ default [] (out_recommendations
                        <$> Output.an_outdated (Output.analysis out))
  /\ Forall (fun rec =>
               (rec_type rec = lit "duplicate"
                /\ severity rec = lit "medium"
                /\ has_check (lit "duplicates") input_data = true)
               \/ (rec_type rec = lit "coverage"
                   /\ severity rec = lit "high"
                   /\ runs_coverage = true)
               \/ (rec_type rec = lit "outdated"
                   /\ severity rec = lit "medium"
                   /\ has_check (lit "outdated") input_data = true))
       (Output.recommendations out).
Proof.
  cbv zeta. unfold execute.
  pose proof (find_duplicates_types (Input.testcases input_data)
                (Input.similarity_threshold input_data)) as Hdup.
  pose proof (flag_outdated_types (Input.testcases input_data)) as Hout.
  destruct (has_check (lit "duplicates") input_data) eqn:Hd;
    destruct (has_check (lit "outdated") input_data) eqn:Ho;
    destruct (Input.requirements_text input_data) as [[|c text]|] eqn:Ht;
    try destruct (has_check (lit "coverage") input_data) eqn:Hc;
    cbn [Output.success Output.error Output.optimized_testcases
         Output.analysis Output.recommendations Output.an_duplicates
         Output.an_coverage Output.an_outdated andb app fmap option_fmap
         option_map];
    try pose proof (check_coverage_types (Input.testcases input_data)
                      (c :: text)) as Hcov;
    (split; [reflexivity|]); (split; [reflexivity|]);
    (split; [reflexivity|]);
    (split; [split; [intros [x Hx]; (discriminate || reflexivity)
                    | intros Hx; (discriminate || eauto)]|]);
    (split; [split; [intros [x Hx]; (discriminate || reflexivity)
                    | intros Hx; (discriminate || eauto)]|]);
    (split; [split; [intros [x Hx]; (discriminate || reflexivity)
                    | intros Hx; (discriminate || eauto)]|]);
    (split; [unfold default; cbn [app];
             rewrite <- ?app_assoc, ?app_nil_r; reflexivity|]);
    rewrite ?Forall_app; repeat split;
    try (apply Forall_nil; exact I);
    try (eapply Forall_impl; [exact Hdup|]; intros rec [H1 H2]; left;
         repeat split; assumption);
    try (eapply Forall_impl; [exact Hcov|]; intros rec [H1 H2]; right; left;
         repeat split; assumption);
    try (eapply Forall_impl; [exact Hout|]; intros rec [H1 H2]; right; right;
         repeat split; assumption).
Qed.

End WithRuntime.

End OptimizationExecute.

(** ** Texts without a common character
    ([agents/optimization_agent.py]) *)

Section Disjoint.
Import Difflib OptimizationAgent Inputs.

Lemma indices_from_absent (offset : nat) (b : pystr) (x : N) :
  x ∉ b -> indices_from offset b x = [].
Proof.
  revert offset. induction b as [|c r IH]; intros offset Hx;
    cbn [indices_from]; [reflexivity|].
  apply not_elem_of_cons in Hx as [Hne Hx].
  destruct (N.eqb_spec c x) as [->|_]; [contradiction|].
  apply IH. exact Hx.
Qed.

Lemma b2j_absent (b : pystr) (x : N) : x ∉ b -> b2j b x = [].
Proof.
  intros Hx. unfold b2j. rewrite indices_from_absent by exact Hx.
  destruct (is_popular b x); reflexivity.
Qed.

Lemma outer_fold_disjoint (a b : pystr) (blo bhi : nat) (rows : list nat)
    (j2len : gmap nat nat) (best : Match) :
  (forall x, x ∈ a -> x ∉ b) ->
  snd (fold_left (outer_step a b blo bhi) rows (j2len, best)) = best.
Proof.
  intros Hdis. revert j2len. induction rows as [|i rows IH]; intros j2len;
    cbn [fold_left]; [reflexivity|].
  unfold outer_step at 2.
  destruct (a !! i) as [x|] eqn:Hx.
  - rewrite b2j_absent.
    + cbn [inner_loop]. apply IH.
    + apply Hdis. eapply list_elem_of_lookup_2. exact Hx.
  - cbn [inner_loop]. apply IH.
Qed.

Lemma find_longest_match_disjoint (a b : pystr) :
  (forall x, x ∈ a -> x ∉ b) ->
  find_longest_match a b 0 (length a) 0 (length b) = (0, 0, 0)%nat.
Proof.
  intros Hdis. unfold find_longest_match, outer_loop.
  rewrite outer_fold_disjoint by exact Hdis.
  cbn [extend_left]. rewrite Nat.sub_0_r.
  destruct a as [|x a']; [reflexivity|].
  cbn [length extend_right Nat.add].
  destruct b as [|y b']; [reflexivity|].
  unfold same_item. cbn [lookup list_lookup length].
  destruct (N.eqb_spec x y) as [->|_].
  - exfalso. apply (Hdis y); apply elem_of_cons; left; reflexivity.
  - rewrite andb_false_r. reflexivity.
Qed.

Lemma matches_disjoint (a b : pystr) :
  (forall x, x ∈ a -> x ∉ b) -> matches a b = 0%nat.
Proof.
  intros Hdis. unfold matches, collected_blocks.
  replace (2 * length a + 2)%nat with (S (S (2 * length a))) by lia.
  cbn [blocks_loop]. rewrite find_longest_match_disjoint by exact Hdis.
  reflexivity.
Qed.

Lemma ratio_disjoint (a b : pystr) :
  (forall x, x ∈ a -> x ∉ b) -> a ++ b <> [] -> (ratio a b == 0)%Q.
Proof.
  intros Hdis Hne. unfold ratio, _calculate_ratio.
  rewrite matches_disjoint by exact Hdis.
  destruct (length a + length b)%nat as [|n] eqn:Hlen.
  - exfalso. apply Hne. apply length_zero_iff_nil.
    rewrite length_app. exact Hlen.
  - unfold Qeq, Qdiv, Qmult. cbn [Qnum Qden Z.of_nat inject_Z Z.mul].
    reflexivity.
Qed.

Section WithRuntime.
Context {R : Runtime}.

(** X13: when the lower-cased titles of two test cases have no
    character in common and are not both empty, the title contributes
    nothing to the similarity.  If the same holds of the lower-cased
    step texts the similarity is 0; if instead the step lists are
    equal (both empty, for one) it is 0.4. *)
Theorem similarity_disjoint (first second : Dto.TestCaseDTO) :
  let t1 := str_lower (Dto.title first) in
  let t2 := str_lower (Dto.title second) in
  let s1 := str_lower (join [space] (Dto.steps first)) in
  let s2 := str_lower (join [space] (Dto.steps second)) in
  (forall c, c ∈ t1 -> c ∉ t2) -> t1 ++ t2 <> [] ->
  ((forall c, c ∈ s1 -> c ∉ s2) -> s1 ++ s2 <> [] ->
   (_similarity first second == 0)%Q)
  /\ (Dto.steps first = Dto.steps second ->
      (_similarity first second == 4 # 10)%Q).
Proof.
  cbv zeta. intros Ht Hne. unfold _similarity.
  rewrite (ratio_disjoint _ _ Ht Hne). split.
  - intros Hs Hnes. rewrite (ratio_disjoint _ _ Hs Hnes). reflexivity.
  - intros ->. rewrite ratio_self. reflexivity.
Qed.

End WithRuntime.

Lemma similarity_disjoint_witness :
  (@_similarity ascii_runtime tc_tide (testcase 9%N "solo" NORMAL [])
   == 4 # 10)%Q.
Proof.
  assert (Ht : forall c,
             c ∈ @str_lower ascii_runtime (lit "tide") ->
             c ∉ @str_lower ascii_runtime (lit "solo")).
  { intros c Hc Hc'. vm_compute in Hc, Hc'.
    repeat (apply elem_of_cons in Hc' as [->|Hc']);
      try (apply elem_of_nil in Hc'; exact Hc');
      repeat (apply elem_of_cons in Hc as [Hc|Hc]; try discriminate);
      apply elem_of_nil in Hc; exact Hc. }
  destruct (@similarity_disjoint ascii_runtime tc_tide
              (testcase 9%N "solo" NORMAL []) Ht) as [_ H].
  - vm_compute. discriminate.
  - apply H. reflexivity.
Defined.

End Disjoint.

(** ** The UI autotest agent ([agents/manual_to_ui_tests.py]) *)

Section UIAgent.
Import ManualToUITests Inputs.

Lemma lit_test_ui_nonempty : lit "test_ui" <> [].
Proof. intros H. apply (f_equal length) in H. vm_compute in H. discriminate. Qed.

Lemma dict_get_missing (entries : list (pystr * pyval)) (key : pystr)
    (default : pyval) :
  dict_has entries key = false -> dict_get entries key default = default.
Proof.
  unfold dict_has. revert default.
  induction entries as [|[k v] rest IH]; intros default Hhas;
    cbn [dict_get]; [reflexivity|].
  apply bool_decide_eq_false in Hhas. cbn [map fst] in Hhas.
  apply not_elem_of_cons in Hhas as [Hne Hrest].
  rewrite bool_decide_eq_false_2 by congruence.
  apply IH. apply bool_decide_eq_false. exact Hrest.
Qed.

Lemma filter_sublist {A : Type} (f : A -> bool) (l : list A) :
  sublist (List.filter f l) l.
Proof.
  induction l as [|x l IH]; cbn [List.filter].
  - constructor.
  - destruct (f x); [apply sublist_skip|apply sublist_cons]; exact IH.
Qed.

Lemma filter_idempotent {A : Type} (f : A -> bool) (l : list A) :
  List.filter f (List.filter f l) = List.filter f l.
Proof.
  induction l as [|x l IH]; cbn [List.filter]; [reflexivity|].
  destruct (f x) eqn:Hx; cbn [List.filter]; rewrite ?Hx, IH; reflexivity.
Qed.

Lemma split_from_words (current s : pystr) :
  Forall (fun c => isspace c = false) current ->
  Forall (fun w => w <> []
                   /\ Forall (fun c => isspace c = false
                                       /\ (c ∈ current \/ c ∈ s)) w)
    (split_from current s).
Proof.
  revert current. induction s as [|c r IH]; intros current Hcur;
    cbn [split_from].
  - destruct current as [|x current']; [constructor|].
    apply Forall_cons. split; [|constructor]. split.
    + intros H. apply (f_equal length) in H. rewrite length_rev in H.
      discriminate.
    + apply Forall_rev. apply Forall_forall. intros y Hy. split.
      * rewrite Forall_forall in Hcur. apply Hcur. exact Hy.
      * left. exact Hy.
  - destruct (isspace c) eqn:Hc.
    + assert (Hrest : Forall (fun w => w <> []
                         /\ Forall (fun c0 => isspace c0 = false
                                      /\ (c0 ∈ current \/ c0 ∈ c :: r)) w)
                        (split_from [] r)).
      { eapply Forall_impl; [apply IH; constructor|].
        intros w [Hw Hall]. split; [exact Hw|].
        eapply Forall_impl; [exact Hall|].
        intros y [Hy [Hin|Hin]]; [apply elem_of_nil in Hin; contradiction|].
        split; [exact Hy|]. right. apply elem_of_cons. right. exact Hin. }
      destruct current as [|x current']; [exact Hrest|].
      apply Forall_cons. split; [|exact Hrest]. split.
      * intros H. apply (f_equal length) in H. rewrite length_rev in H.
        discriminate.
      * apply Forall_rev. apply Forall_forall. intros y Hy. split.
        -- rewrite Forall_forall in Hcur. apply Hcur. exact Hy.
        -- left. exact Hy.
    + eapply Forall_impl; [apply IH; apply Forall_cons; split; assumption|].
      intros w [Hw Hall]. split; [exact Hw|].
      eapply Forall_impl; [exact Hall|].
      intros y [Hy [Hin|Hin]]; split; try exact Hy.
      * apply elem_of_cons in Hin as [->|Hin].
        -- right. apply elem_of_cons. left. reflexivity.
        -- left. exact Hin.
      * right. apply elem_of_cons. right. exact Hin.
Qed.

Lemma join_Forall (P : N -> Prop) (sep : pystr) (parts : list pystr) :
  Forall P sep -> Forall (Forall P) parts -> Forall P (join sep parts).
Proof.
  intros Hsep. induction parts as [|x rest IH]; intros Hparts;
    cbn [join]; [constructor|].
  apply Forall_cons in Hparts as [Hx Hrest].
  destruct rest as [|y rest']; [exact Hx|].
  apply Forall_app. split; [exact Hx|].
  apply Forall_app. split; [exact Hsep|]. apply IH. exact Hrest.
Qed.

Section WithRuntime.
Context {R : Runtime}.

Lemma sanitize_filename_shape (value : pystr) :
  _sanitize_filename value <> []
  /\ (_sanitize_filename value = lit "test_ui"
      \/ Forall (fun c => is_word c = true \/ c = 45%N \/ c = 46%N)
           (_sanitize_filename value)).
Proof.
  unfold _sanitize_filename.
  set (clean := map _ (str_lower (strip value))).
  assert (Hclean : Forall (fun c => is_word c = true \/ c = 45%N \/ c = 46%N)
                     clean).
  { subst clean. apply Forall_map, Forall_forall. intros c _. cbn beta.
    destruct (is_word c) eqn:Hw; cbn [orb]; [left; exact Hw|].
    destruct (N.eqb_spec c 45) as [->|_]; cbn [orb]; [auto|].
    destruct (N.eqb_spec c 46) as [->|_]; [auto|].
    left. unfold is_word. rewrite N.eqb_refl. apply orb_true_r. }
  destruct clean as [|c clean'].
  - split; [apply lit_test_ui_nonempty|]. left. reflexivity.
  - split; [discriminate|]. right. exact Hclean.
Qed.

Lemma parse_item_files (input_data : Input.ManualToUITestsInput)
    (P : File.GeneratedTestFile -> Prop)
    (files : list File.GeneratedTestFile) (test : pyval) :
  (forall filename code count,
      code <> [] ->
      P {| File.filename := _sanitize_filename filename;
           File.test_file := code;
           File.test_count := count;
           File.framework := Input.framework input_data;
           File.browsers := Input.browsers input_data |}) ->
  Forall P files ->
  Forall P (parse_item input_data files test)
  /\ (length (parse_item input_data files test) <= S (length files))%nat.
Proof.
  intros HP Hfiles. unfold parse_item.
  destruct test as [| | | | |items|entries]; try (split; [exact Hfiles|lia]).
  destruct (str_of_value (dict_get entries (lit "python_code") PNone))
    as [|c code] eqn:Hcode; [split; [exact Hfiles|lia]|].
  destruct (int_of_value (dict_get entries (lit "test_count") (PInt 1)))
    as [count|e]; [|split; [exact Hfiles|lia]].
  split.
  - apply Forall_app. split; [exact Hfiles|].
    apply Forall_cons. split; [|constructor]. apply HP. discriminate.
  - rewrite length_app. cbn [length]. lia.
Qed.

Lemma parse_loop_files (input_data : Input.ManualToUITestsInput)
    (P : File.GeneratedTestFile -> Prop)
    (items : list pyval) (files : list File.GeneratedTestFile) :
  (forall filename code count,
      code <> [] ->
      P {| File.filename := _sanitize_filename filename;
           File.test_file := code;
           File.test_count := count;
           File.framework := Input.framework input_data;
           File.browsers := Input.browsers input_data |}) ->
  Forall P files ->
  Forall P (fold_left (parse_item input_data) items files)
  /\ (length (fold_left (parse_item input_data) items files)
      <= length files + length items)%nat.
Proof.
  intros HP. revert files. induction items as [|test items IH];
    intros files Hfiles; cbn [fold_left length].
  - split; [exact Hfiles|lia].
  - destruct (parse_item_files input_data P files test HP Hfiles)
      as [Hstep Hlen].
    destruct (IH _ Hstep) as [Hall Hlen']. split; [exact Hall|lia].
Qed.

(** The files that a parsed answer can hold. *)
Lemma parsed_file_ok (input_data : Input.ManualToUITestsInput)
    (filename code : pystr) (count : Z) :
  code <> [] ->
  (fun file =>
     File.test_file file <> []
     /\ File.filename file <> []
     /\ (File.filename file = lit "test_ui"
         \/ Forall (fun c => is_word c = true \/ c = 45%N \/ c = 46%N)
              (File.filename file))
     /\ File.framework file = Input.framework input_data
     /\ File.browsers file = Input.browsers input_data)
    {| File.filename := _sanitize_filename filename;
       File.test_file := code;
       File.test_count := count;
       File.framework := Input.framework input_data;
       File.browsers := Input.browsers input_data |}.
Proof.
  intros Hcode. cbn [File.test_file File.filename File.framework File.browsers].
  destruct (sanitize_filename_shape filename) as [Hne Hshape].
  repeat split; assumption.
Qed.

(** X14: every file that [_parse_response] returns has code that is
    not empty and a file name that is not empty and is either the
    default [test_ui] or made of word characters, hyphens and dots
    only; it carries the framework and the browsers of the input.
    There are never more files than items in the answer, and an
    answer that is not a dictionary, or whose [tests] entry is
    missing or empty, gives no file. *)
Theorem parse_response_files (response : pyval)
    (input_data : Input.ManualToUITestsInput)
    (files : list File.GeneratedTestFile) :
  _parse_response response input_data = Return files ->
  Forall (fun file =>
            File.test_file file <> []
            /\ File.filename file <> []
            /\ (File.filename file = lit "test_ui"
                \/ Forall (fun c => is_word c = true \/ c = 45%N \/ c = 46%N)
                     (File.filename file))
            /\ File.framework file = Input.framework input_data
            /\ File.browsers file = Input.browsers input_data)
    files
  /\ (forall entries items,
        response = PDict entries ->
        dict_get entries (lit "tests") PNone = PList items ->
        (length files <= length items)%nat)
  /\ ((forall entries, response <> PDict entries) -> files = [])
  /\ (forall entries,
        response = PDict entries ->
        truthy (dict_get entries (lit "tests") PNone) = false ->
        files = []).
Proof.
  intros Hparse. unfold _parse_response in Hparse.
  set (tests := match response with
                | PDict entries => dict_get entries (lit "tests") PNone
                | _ => PNone
                end) in *.
  split; [|split; [|split]].
  - destruct (truthy tests); [|injection Hparse as <-; constructor].
    destruct (iterate tests) as [items|e]; [|discriminate].
    injection Hparse as <-.
    apply (parse_loop_files input_data _ items []); [|constructor].
    apply parsed_file_ok.
  - intros entries items -> Htests. subst tests. cbv beta iota in Hparse.
    rewrite Htests in Hparse.
    destruct (truthy (PList items));
      [|injection Hparse as <-; cbn [length]; lia].
    cbn [iterate] in Hparse. injection Hparse as <-.
    destruct (parse_loop_files input_data (fun _ => True) items [])
      as [_ Hlen]; [intros; exact I|constructor|].
    exact Hlen.
  - intros Hnot. subst tests.
    destruct response; try (cbn [truthy] in Hparse; congruence).
    exfalso. eapply Hnot. reflexivity.
  - intros entries -> Hfalse. subst tests. cbv beta iota in Hparse.
    rewrite Hfalse in Hparse. congruence.
Qed.

(** X15: an item of the answer that has no [python_code] key is not
    skipped, although the loop skips items with empty code: the code
    read is [str(None)], the text [None], and a file with that
    content is appended. *)
Theorem parse_item_missing_code (input_data : Input.ManualToUITestsInput)
    (files : list File.GeneratedTestFile)
    (entries : list (pystr * pyval)) :
  str_of_value PNone = lit "None" ->
  int_of_value (PInt 1) = Return 1 ->
  dict_has entries (lit "python_code") = false ->
  dict_has entries (lit "test_count") = false ->
  exists file,
    parse_item input_data files (PDict entries) = files ++ [file]
    /\ File.test_file file = lit "None"
    /\ File.test_count file = 1.
Proof.
  intros Hstr Hint Hcode Hcount.
  unfold parse_item.
  rewrite (dict_get_missing _ _ PNone Hcode),
    (dict_get_missing _ _ (PInt 1) Hcount).
  rewrite Hstr, Hint.
  change (lit "None") with [78%N; 111%N; 110%N; 101%N] at 1.
  cbv iota. eexists. split; [reflexivity|].
  split; reflexivity.
Qed.

(** X16: [_filter_by_priority] keeps the order and invents nothing:
    what it returns is a sub-list of the test cases.  Without a
    filter, or with an empty one, every case is kept; with a filter,
    exactly the cases whose priority value is among the upper-cased
    tokens; and filtering a second time changes nothing. *)
Theorem filter_by_priority_sublist (testcases : list Dto.TestCaseDTO)
    (priority_filter : option (list pystr)) :
  let kept := _filter_by_priority testcases priority_filter in
  sublist kept testcases
  /\ (priority_filter = None \/ priority_filter = Some [] ->
      kept = testcases)
  /\ (forall tokens tc,
        priority_filter = Some tokens -> tokens <> [] ->
        (In tc kept
         <-> In tc testcases
             /\ TestPriority_value (Dto.priority tc) ∈ map str_upper tokens))
  /\ _filter_by_priority kept priority_filter = kept.
Proof.
  cbv zeta. unfold _filter_by_priority.
  destruct priority_filter as [[|t tokens]|].
  - split; [reflexivity|]. split; [reflexivity|].
    split; [|reflexivity]. intros tokens tc [= <-] Hne. congruence.
  - split; [apply filter_sublist|]. split.
    + intros [H|H]; discriminate.
    + split; [|apply filter_idempotent].
      intros tokens' tc [= <-] _. rewrite filter_In, bool_decide_eq_true.
      reflexivity.
  - split; [reflexivity|]. split; [reflexivity|].
    split; [|reflexivity]. intros tokens tc H. discriminate.
Qed.

(** X17: the test name made from a title is [test_] followed by word
    characters only, and holds no white space: the words of the
    lower-cased title, stripped of every other character, joined by
    underscores. *)
Theorem to_test_name_shape (text : pystr) :
  exists body,
    _to_test_name text = lit "test_" ++ body
    /\ Forall (fun c => is_word c = true /\ isspace c = false) body.
Proof.
  unfold _to_test_name. eexists. split; [reflexivity|].
  set (clean := List.filter (fun c => is_word c || isspace c)
                  (str_lower text)).
  apply join_Forall.
  - apply Forall_cons. split; [|constructor]. split.
    + unfold is_word. rewrite N.eqb_refl. apply orb_true_r.
    + reflexivity.
  - apply Forall_forall. intros w Hw.
    apply elem_of_take in Hw as (i & Hi & _).
    apply list_elem_of_lookup_2 in Hi. unfold split in Hi.
    pose proof (split_from_words [] clean (Forall_nil_2 _)) as Hwords.
    rewrite Forall_forall in Hwords. destruct (Hwords w Hi) as [_ Hall].
    eapply Forall_impl; [exact Hall|].
    intros c [Hsp [Hin|Hin]]; [apply elem_of_nil in Hin; contradiction|].
    split; [|exact Hsp]. subst clean.
    apply list_elem_of_In, filter_In in Hin as [_ Hc].
    rewrite Hsp, orb_false_r in Hc. exact Hc.
Qed.

(** X18: whether [execute] succeeds does not depend on the model: it
    answers [success = True] exactly when some test case passes the
    priority filter and the viewport has a width and a height.  A
    successful output has no error and at least one generated file,
    its total is the sum of the files' test counts, and it repeats
    the framework and the browsers of the input; a failed output has
    an error message, no file and a total of 0. *)
Theorem execute_outcome (llm_client : LLM.LLMClient)
    (input_data : Input.ManualToUITestsInput) :
  let out := execute llm_client input_data in
  (Output.success out = true
   <-> _filter_by_priority (Input.testcases input_data)
         (Input.priority_filter input_data) <> []
       /\ is_Some (Input.viewport input_data !! lit "width")
       /\ is_Some (Input.viewport input_data !! lit "height"))
  /\ (Output.success out = true ->
      Output.error out = None
      /\ Output.generated_tests out <> []
      /\ Output.total_tests out
         = sum_test_count (Output.generated_tests out)
      /\ Output.framework out = Input.framework input_data
      /\ Output.browsers out = Input.browsers input_data)
  /\ (Output.success out = false ->
      is_Some (Output.error out)
      /\ Output.generated_tests out = []
      /\ Output.total_tests out = 0).
Proof.
  cbv zeta. unfold execute.
  destruct (_filter_by_priority (Input.testcases input_data)
              (Input.priority_filter input_data)) as [|tc rest] eqn:Hf.
  { unfold failure. cbn [Output.success Output.error Output.generated_tests
                        Output.total_tests].
    split; [split; [discriminate|intros [H _]; congruence]|].
    split; [discriminate|]. intros _. split; [eauto|]. split; reflexivity. }
  unfold _build_prompt.
  destruct (Input.viewport input_data !! lit "width") as [w|] eqn:Hw.
  2:{ unfold failure. cbn [Output.success Output.error
                            Output.generated_tests Output.total_tests].
      split; [split; [discriminate|intros (_ & [x Hx] & _); discriminate]|].
      split; [discriminate|]. intros _. split; [eauto|].
      split; reflexivity. }
  destruct (Input.viewport input_data !! lit "height") as [h|] eqn:Hh.
  2:{ unfold failure. cbn [Output.success Output.error
                            Output.generated_tests Output.total_tests].
      split; [split; [discriminate|intros (_ & _ & [x Hx]); discriminate]|].
      split; [discriminate|]. intros _. split; [eauto|].
      split; reflexivity. }
  cbv beta iota.
  cbn [Output.success Output.error Output.generated_tests
       Output.total_tests Output.framework Output.browsers].
  split; [split; [intros _; split; [discriminate|split; eauto]
                 |reflexivity]|].
  split; [|discriminate]. intros _. split; [reflexivity|].
  split; [|split; [reflexivity|split; reflexivity]].
  match goal with
  | |- match ?g with [] => _ | _ :: _ => _ end <> [] =>
      destruct g; cbn [map]; discriminate
  end.
Qed.

End WithRuntime.

Lemma parse_response_files_witness :
  exists files,
    @_parse_response ascii_runtime two_items_response
      (ui_input default_viewport) = Return files
    /\ (length files <= 2)%nat.
Proof.
  eexists. split; [vm_compute; reflexivity|].
  match goal with
  | |- (length ?files <= _)%nat =>
      destruct (@parse_response_files ascii_runtime two_items_response
                  (ui_input default_viewport) files)
        as (_ & Hlen & _)
  end.
  - vm_compute. reflexivity.
  - exact (Hlen _ _ eq_refl eq_refl).
Defined.

Lemma parse_item_missing_code_witness :
  exists file,
    @parse_item ascii_runtime (ui_input default_viewport) []
      (PDict [(lit "filename", PStr (lit "a.py"))]) = [file]
    /\ File.test_file file = lit "None"
    /\ File.test_count file = 1.
Proof.
  apply (@parse_item_missing_code ascii_runtime (ui_input default_viewport)
           [] [(lit "filename", PStr (lit "a.py"))]).
  - reflexivity.
  - reflexivity.
  - vm_compute. reflexivity.
  - vm_compute. reflexivity.
Defined.

Lemma filter_by_priority_sublist_witness :
  @_filter_by_priority ascii_runtime [tc_critical; tc_normal] (Some [])
  = [tc_critical; tc_normal].
Proof.
  destruct (@filter_by_priority_sublist ascii_runtime
              [tc_critical; tc_normal] (Some [])) as (_ & H & _).
  apply H. right. reflexivity.
Defined.

Lemma execute_outcome_witness :
  Output.generated_tests
    (@execute ascii_runtime (json_client two_items_response)
       (ui_input default_viewport)) <> [].
Proof.
  destruct (@execute_outcome ascii_runtime (json_client two_items_response)
              (ui_input default_viewport)) as (Hiff & Hok & _).
  apply Hok. apply Hiff. split; [discriminate|].
  split; eexists; vm_compute; reflexivity.
Defined.

End UIAgent.

(** ** The analysis and the parsing of the test-plan agent
    ([agents/testplan_agent.py]) *)

Section TestPlanAnalysis.
Import TestPlanAgent Inputs.

Lemma increment_lookup (m : gmap pystr Z) (key k : pystr) :
  increment m key !! k
  = if bool_decide (k = key) then Some (default 0 (m !! key) + 1)
    else m !! k.
Proof.
  unfold increment. destruct (decide (k = key)) as [->|Hne].
  - rewrite bool_decide_eq_true_2 by reflexivity. apply lookup_insert_eq.
  - rewrite bool_decide_eq_false_2 by exact Hne.
    apply lookup_insert_ne. congruence.
Qed.

Lemma count_loop {A : Type} (key : A -> pystr) (l : list A)
    (m : gmap pystr Z) (k : pystr) :
  fold_left (fun m x => increment m (key x)) l m !! k
  = match List.filter (fun x => bool_decide (key x = k)) l with
    | [] => m !! k
    | hits => Some (default 0 (m !! k) + Z.of_nat (length hits))
    end.
Proof.
  revert m. induction l as [|x l IH]; intros m; cbn [fold_left List.filter];
    [reflexivity|].
  rewrite IH, increment_lookup.
  destruct (decide (key x = k)) as [Hk|Hk].
  - rewrite (bool_decide_eq_true_2 (key x = k)) by exact Hk.
    rewrite (bool_decide_eq_true_2 (k = key x)) by congruence.
    subst k. destruct (m !! key x) as [v|];
      destruct (List.filter _ l) as [|h hits]; unfold default;
      cbn [length]; f_equal; unfold id; lia.
  - rewrite (bool_decide_eq_false_2 (key x = k)) by exact Hk.
    rewrite (bool_decide_eq_false_2 (k = key x)) by congruence.
    reflexivity.
Qed.

Lemma analyze_loop (testcases : list Dto.TestCaseDTO) (a : analysis) :
  let a' := fold_left analyze_step testcases a in
  by_priority a'
  = fold_left
      (fun m tc => increment m (TestPriority_value (Dto.priority tc)))
      testcases (by_priority a)
  /\ by_feature a'
     = fold_left (fun m tc => increment m (Dto.feature tc)) testcases
         (by_feature a)
  /\ by_story a'
     = fold_left (fun m tc => increment m (Dto.story tc)) testcases
         (by_story a)
  /\ total_hours a'
     = fold_left
         (fun h tc =>
            Qplus h (duration_estimate
                       (TestPriority_value (Dto.priority tc))))
         testcases (total_hours a).
Proof.
  revert a. induction testcases as [|tc rest IH]; intros a;
    cbn [fold_left]; [repeat split|].
  apply (IH (analyze_step a tc)).
Qed.

Lemma priority_value_inj (p q : TestPriority) :
  TestPriority_value p = TestPriority_value q -> p = q.
Proof.
  destruct p, q; try reflexivity; intros H; vm_compute in H; discriminate.
Qed.

Lemma priority_eqb_eq (p q : TestPriority) :
  priority_eqb p q = bool_decide (TestPriority_value p = TestPriority_value q).
Proof.
  destruct (decide (TestPriority_value p = TestPriority_value q)) as [H|H].
  - rewrite bool_decide_eq_true_2 by exact H.
    apply priority_value_inj in H as ->. destruct q; reflexivity.
  - rewrite bool_decide_eq_false_2 by exact H.
    destruct p, q; try reflexivity; destruct H; reflexivity.
Qed.

Lemma hours_loop (testcases : list Dto.TestCaseDTO) (h : Q) :
  (fold_left
     (fun h tc =>
        Qplus h (duration_estimate (TestPriority_value (Dto.priority tc))))
     testcases h
   == h
      + (25 # 100)
        * inject_Z (Z.of_nat (length (List.filter
             (fun tc => priority_eqb (Dto.priority tc) CRITICAL) testcases)))
      + (166 # 1000)
        * inject_Z (Z.of_nat (length (List.filter
             (fun tc => priority_eqb (Dto.priority tc) NORMAL) testcases)))
      + (83 # 1000)
        * inject_Z (Z.of_nat (length (List.filter
             (fun tc => priority_eqb (Dto.priority tc) LOW) testcases))))%Q.
Proof.
  revert h. induction testcases as [|tc rest IH]; intros h;
    cbn [fold_left List.filter].
  - cbn [length]. change (Z.of_nat 0) with 0%Z.
    change (inject_Z 0) with 0%Q. lra.
  - rewrite IH.
    destruct (Dto.priority tc); cbn [priority_eqb length];
      rewrite Nat2Z.inj_succ; unfold Z.succ; rewrite inject_Z_plus;
      [change (duration_estimate (TestPriority_value CRITICAL))
         with (25 # 100)
      |change (duration_estimate (TestPriority_value NORMAL))
         with (166 # 1000)
      |change (duration_estimate (TestPriority_value LOW))
         with (83 # 1000)];
      change (inject_Z 1) with 1%Q; lra.
Qed.

Lemma priority_partition (testcases : list Dto.TestCaseDTO) :
  (length (List.filter
             (fun tc => priority_eqb (Dto.priority tc) CRITICAL) testcases)
   + length (List.filter
               (fun tc => priority_eqb (Dto.priority tc) NORMAL) testcases)
   + length (List.filter
               (fun tc => priority_eqb (Dto.priority tc) LOW) testcases)
   = length testcases)%nat.
Proof.
  induction testcases as [|tc rest IH]; cbn [List.filter length];
    [reflexivity|].
  destruct (Dto.priority tc); cbn [priority_eqb length]; lia.
Qed.

(** X19: the analysis counts every test case once under each
    heading.  [by_priority] holds, for each of the three priorities,
    the number of cases of that priority (0 if there is none), and the
    three numbers add up to the number of cases; [by_feature] and
    [by_story] have a key exactly for the features and stories that
    occur, with the number of their cases; and the total of hours is
    0.25 for each CRITICAL case, 0.166 for each NORMAL and 0.083 for
    each LOW one. *)
Theorem analyze_testcases_counts (testcases : list Dto.TestCaseDTO) :
  let a := _analyze_testcases testcases in
  let count := fun keep : Dto.TestCaseDTO -> bool =>
    Z.of_nat (length (List.filter keep testcases)) in
  let with_priority := fun p (tc : Dto.TestCaseDTO) =>
    priority_eqb (Dto.priority tc) p in
  (forall p,
      by_priority a !! TestPriority_value p = Some (count (with_priority p)))
  /\ count (with_priority CRITICAL) + count (with_priority NORMAL)
     + count (with_priority LOW) = len_list testcases
  /\ (forall feature,
        by_feature a !! feature
        = if count (fun tc => bool_decide (Dto.feature tc = feature)) =? 0
          then None
          else Some (count (fun tc => bool_decide (Dto.feature tc = feature))))
  /\ (forall story,
        by_story a !! story
        = if count (fun tc => bool_decide (Dto.story tc = story)) =? 0
          then None
          else Some (count (fun tc => bool_decide (Dto.story tc = story))))
  /\ (total_hours a
      == (25 # 100) * inject_Z (count (with_priority CRITICAL))
         + (166 # 1000) * inject_Z (count (with_priority NORMAL))
         + (83 # 1000) * inject_Z (count (with_priority LOW)))%Q.
Proof.
  cbv zeta. unfold _analyze_testcases.
  match goal with
  | |- context [fold_left analyze_step testcases ?a0] =>
      destruct (analyze_loop testcases a0) as (Hp & Hf & Hs & Hh);
      cbv zeta in Hp, Hf, Hs, Hh; rewrite Hp, Hf, Hs, Hh; clear Hp Hf Hs Hh
  end.
  cbn [by_priority by_feature by_story total_hours].
  split; [|split; [|split; [|split]]].
  - intros p.
    rewrite (count_loop
               (fun tc => TestPriority_value (Dto.priority tc))).
    rewrite (filter_ext
               (fun tc => bool_decide
                            (TestPriority_value (Dto.priority tc)
                             = TestPriority_value p))
               (fun tc => priority_eqb (Dto.priority tc) p))
      by (intros tc; symmetry; apply priority_eqb_eq).
    assert (Hzero :
              (<[lit "CRITICAL" := 0]>
                 (<[lit "NORMAL" := 0]> (<[lit "LOW" := 0]> ∅))
               : gmap pystr Z) !! TestPriority_value p = Some 0).
    { destruct p; vm_compute; reflexivity. }
    rewrite Hzero.
    destruct (List.filter _ testcases) as [|h hits]; [reflexivity|].
    cbn [default]. f_equal.
  - pose proof (priority_partition testcases) as H. unfold len_list. lia.
  - intros feature. rewrite (count_loop Dto.feature), lookup_empty.
    destruct (List.filter _ testcases) as [|h hits]; [reflexivity|].
    cbn [length default]. rewrite Nat2Z.inj_succ.
    destruct (Z.eqb_spec (Z.succ (Z.of_nat (length hits))) 0); [lia|].
    f_equal.
  - intros story. rewrite (count_loop Dto.story), lookup_empty.
    destruct (List.filter _ testcases) as [|h hits]; [reflexivity|].
    cbn [length default]. rewrite Nat2Z.inj_succ.
    destruct (Z.eqb_spec (Z.succ (Z.of_nat (length hits))) 0); [lia|].
    f_equal.
  - rewrite hours_loop. unfold inject_Z at 1. lra.
Qed.

Lemma lstrip_prefix (p : N -> bool) (s : pystr) :
  exists before,
    s = before ++ lstrip_with p s /\ Forall (fun c => p c = true) before.
Proof.
  induction s as [|c r (before & IH & Hall)]; [exists []; split; constructor|].
  cbn [lstrip_with]. destruct (p c) eqn:Hc.
  - exists (c :: before). split; [cbn; congruence|].
    constructor; assumption.
  - exists []. split; [reflexivity|constructor].
Qed.

Lemma rstrip_suffix (p : N -> bool) (s : pystr) :
  exists after,
    s = rstrip_with p s ++ after /\ Forall (fun c => p c = true) after.
Proof.
  induction s as [|c r (after & IH & Hall)]; [exists []; split; constructor|].
  cbn [rstrip_with]. destruct (rstrip_with p r) as [|d t] eqn:E.
  - destruct (p c) eqn:Hc.
    + exists (c :: after). split; [cbn in *; congruence|].
      constructor; assumption.
    + exists after. split; [cbn in *; congruence|exact Hall].
  - exists after. split; [cbn in *; congruence|exact Hall].
Qed.

(** X20: the region that the search for braces finds is the text from
    the first opening brace to the last closing brace: it begins with
    an opening brace and ends with a closing one, no opening brace
    comes before it in the answer and no closing brace after it. *)
Theorem search_braces_region (text region : pystr) :
  search_braces text = Some region ->
  exists before inside after,
    text = before ++ region ++ after
    /\ region = [123%N] ++ inside ++ [125%N]
    /\ (123%N ∉ before)
    /\ (125%N ∉ after).
Proof.
  unfold search_braces. intros Hsearch.
  set (p := fun c : N => negb (c =? 123)%N) in *.
  set (q := fun c : N => negb (c =? 125)%N) in *.
  destruct (lstrip_prefix p text) as (before & Htext & Hbefore).
  destruct (rstrip_suffix q (lstrip_with p text)) as (after & Hmid & Hafter).
  assert (Hregion : rstrip_with q (lstrip_with p text) = region).
  { destruct (rstrip_with q (lstrip_with p text)); congruence. }
  assert (Hne : region <> []).
  { intros ->. rewrite Hregion in Hsearch. discriminate. }
  assert (Hhead : forall c, head region = Some c -> c = 123%N).
  { intros c Hc. rewrite <- Hregion in Hc. apply rstrip_head in Hc.
    apply lstrip_head in Hc. unfold p in Hc.
    apply negb_false_iff, N.eqb_eq in Hc. exact Hc. }
  assert (Hlast : forall c, last region = Some c -> c = 125%N).
  { intros c Hc. rewrite <- Hregion in Hc. apply rstrip_last in Hc.
    unfold q in Hc. apply negb_false_iff, N.eqb_eq in Hc. exact Hc. }
  destruct region as [|c rest]; [congruence|].
  specialize (Hhead c eq_refl). subst c.
  destruct rest as [|e t].
  - specialize (Hlast 123%N eq_refl). discriminate.
  - destruct (@exists_last _ (e :: t)) as (inside & d & Hsnoc);
      [discriminate|]. rewrite Hsnoc in *. clear Hsnoc e t.
    assert (Hd : d = 125%N).
    { apply Hlast. change (123%N :: inside ++ [d])
        with ((123%N :: inside) ++ [d]). apply last_snoc. }
    subst d. exists before, inside, after.
    split; [rewrite Hregion in Hmid; congruence|].
    split; [reflexivity|]. split.
    + intros Hin. rewrite Forall_forall in Hbefore.
      specialize (Hbefore _ Hin). discriminate.
    + intros Hin. rewrite Forall_forall in Hafter.
      specialize (Hafter _ Hin). discriminate.
Qed.

Lemma search_braces_region_witness :
  exists before inside after,
    lit "plan: {a} and {b}." = before ++ lit "{a} and {b}" ++ after
    /\ lit "{a} and {b}" = [123%N] ++ inside ++ [125%N]
    /\ (123%N ∉ before)
    /\ (125%N ∉ after).
Proof.
  apply (search_braces_region (lit "plan: {a} and {b}.") (lit "{a} and {b}")).
  vm_compute. reflexivity.
Defined.

Section Agent.
Variable json_loads : pystr -> result pyval.
Variable _call_llm : pystr -> result pystr.
Variable prompt_text :
  list Dto.TestCaseDTO -> analysis -> Input.TestPlanInput -> pystr.
Variable build_output :
  Input.TestPlanInput -> list Dto.TestCaseDTO -> analysis -> pyval ->
  result Output.TestPlanOutput.

(** X21: what [_parse_llm_response] returns is what [json.loads]
    makes of the region between the braces, and it holds both
    required sections, [test_plan] and [phases].  When the parsing
    fails it never leaves with a [JSONDecodeError]: that one is
    turned into a [ValueError]. *)
Theorem parse_llm_response_result (llm_response : pystr) :
  match _parse_llm_response json_loads llm_response with
  | Return data =>
      exists region,
        search_braces llm_response = Some region
        /\ json_loads region = Return data
        /\ value_contains data (lit "test_plan") = Return true
        /\ value_contains data (lit "phases") = Return true
  | Raise e => forall msg, e <> JSONDecodeError msg
  end.
Proof.
  unfold _parse_llm_response.
  destruct (search_braces llm_response) as [region|]; [|discriminate].
  destruct (json_loads region) as [data|e] eqn:Hloads.
  - cbn [check_sections bind].
    destruct (value_contains data (lit "test_plan")) as [[|]|e1] eqn:H1;
      cbn [bind]; try discriminate.
    + destruct (value_contains data (lit "phases")) as [[|]|e2] eqn:H2;
        cbn [bind]; try discriminate.
      * exists region. repeat split; (reflexivity || assumption).
      * destruct data; cbn [value_contains] in H2; try discriminate;
          injection H2 as <-; discriminate.
    + destruct data; cbn [value_contains] in H1; try discriminate;
        injection H1 as <-; discriminate.
  - destruct e; discriminate.
Qed.



End Agent.


End TestPlanAnalysis.

(** ** Chunks of a list ([utils/helpers.py]) *)

Section Chunks.
Import Helpers Inputs.

Lemma chunks_from {A : Type} (lst : list A) (size : nat) :
  (0 < size)%nat ->
  forall fuel start,
    (length lst - start <= fuel)%nat ->
    let chunks :=
      map (fun i => firstn size (skipn i lst))
        (range_from fuel start (length lst) size) in
    concat chunks = skipn start lst
    /\ forall k chunk,
         chunks !! k = Some chunk ->
         chunk = firstn size (skipn (start + k * size) lst)
         /\ (start + k * size < length lst)%nat.
Proof.
  intros Hsize. induction fuel as [|fuel IH]; intros start Hfuel;
    cbn [range_from map concat].
  - split.
    + rewrite skipn_all2 by lia. reflexivity.
    + intros k chunk H. discriminate.
  - destruct (Nat.ltb_spec start (length lst)) as [Hlt|Hge];
      cbn [map concat].
    + destruct (IH (start + size)%nat) as [Hcat Hnth]; [lia|].
      cbv zeta in Hcat, Hnth. split.
      * rewrite Hcat.
        transitivity (firstn size (skipn start lst)
                      ++ skipn size (skipn start lst));
          [|apply firstn_skipn].
        f_equal. rewrite skipn_skipn. f_equal. lia.
      * intros [|k] chunk Hk.
        -- injection Hk as <-. rewrite Nat.add_0_r. split; [reflexivity|lia].
        -- cbn [lookup list_lookup] in Hk. apply Hnth in Hk as [-> Hlt'].
           split; [f_equal; f_equal; lia|lia].
    + split.
      * rewrite skipn_all2 by lia. reflexivity.
      * intros k chunk H. discriminate.
Qed.

(** X23: with a positive chunk size, [chunk_list] cuts the list into
    consecutive pieces: put together again they give the list, no
    piece is empty or longer than the chunk size, and every piece but
    the last has exactly that size.  A chunk size of 0 raises
    [ValueError]; a negative one gives no chunk at all, whatever the
    list holds. *)
Theorem chunk_list_partition {A : Type} (lst : list A) (chunk_size : Z) :
  (chunk_size = 0 -> exists msg, chunk_list lst chunk_size
                                 = Raise (ValueError msg))
  /\ (chunk_size < 0 -> chunk_list lst chunk_size = Return [])
  /\ (0 < chunk_size ->
      exists chunks,
        chunk_list lst chunk_size = Return chunks
        /\ concat chunks = lst
        /\ Forall (fun chunk => chunk <> []
                                /\ len_list chunk <= chunk_size) chunks
        /\ forall k chunk,
             chunks !! k = Some chunk ->
             (S k < length chunks)%nat ->
             len_list chunk = chunk_size).
Proof.
  unfold chunk_list. split; [|split].
  - intros ->. cbn [Z.eqb]. eauto.
  - intros Hneg. destruct (Z.eqb_spec chunk_size 0); [lia|].
    destruct (Z.ltb_spec chunk_size 0); [reflexivity|lia].
  - intros Hpos. destruct (Z.eqb_spec chunk_size 0); [lia|].
    destruct (Z.ltb_spec chunk_size 0); [lia|].
    set (size := Z.to_nat chunk_size).
    assert (Hsize : (0 < size)%nat) by (subst size; lia).
    destruct (chunks_from lst size Hsize (length lst) 0%nat) as [Hcat Hnth];
      [lia|].
    cbv zeta in Hcat, Hnth. cbn [skipn] in Hcat.
    eexists. split; [reflexivity|]. split; [exact Hcat|]. split.
    + apply Forall_forall. intros chunk Hin.
      apply list_elem_of_lookup in Hin as [k Hk].
      apply Hnth in Hk as [-> Hlt]. cbn [Nat.add] in *. split.
      * intros Hnil. apply (f_equal length) in Hnil.
        rewrite length_firstn, length_skipn in Hnil. cbn [length] in Hnil.
        lia.
      * unfold len_list. rewrite length_firstn. lia.
    + intros k chunk Hk Hnext.
      destruct (lookup_lt_is_Some_2 _ _ Hnext) as [next Hn].
      apply Hnth in Hk as [-> _]. apply Hnth in Hn as [_ Hlt].
      cbn [Nat.add] in *. unfold len_list.
      rewrite length_firstn, length_skipn. lia.
Qed.

Lemma chunk_list_partition_witness :
  exists chunks,
    chunk_list [1; 2; 3; 4; 5] 2 = Return chunks
    /\ concat chunks = [1; 2; 3; 4; 5].
Proof.
  destruct (chunk_list_partition [1; 2; 3; 4; 5] 2) as (_ & _ & H).
  destruct H as (chunks & Hrun & Hcat & _); [lia|].
  exists chunks. split; assumption.
Defined.

End Chunks.

(** ** The code formatter ([utils/helpers.py]) *)

Section Formatter.
Import Helpers Inputs.

Lemma strip_nil (s : pystr) :
  strip s = [] <-> Forall (fun c => isspace c = true) s.
Proof.
  unfold strip, strip_with. rewrite rstrip_nil. split.
  - intros Hrest.
    destruct (lstrip_prefix isspace s) as (before & Hs & Hbefore).
    rewrite Hs. apply Forall_app. split; assumption.
  - apply lstrip_Forall.
Qed.

Lemma rstrip_idempotent (s : pystr) :
  rstrip_with isspace (rstrip_with isspace s) = rstrip_with isspace s.
Proof. apply rstrip_id. intros c Hc. eapply rstrip_last. exact Hc. Qed.

Lemma rstripped_has_text (line : pystr) :
  rstrip_with isspace line = line -> line <> [] -> strip line <> [].
Proof.
  intros Hstrip Hne Hnil. apply strip_nil in Hnil.
  apply rstrip_nil in Hnil. congruence.
Qed.

Lemma split_on_nonempty (sep : N) (s : pystr) : split_on sep s <> [].
Proof.
  induction s as [|c r IH]; cbn [split_on]; [discriminate|].
  destruct (c =? sep)%N; [discriminate|].
  destruct (split_on sep r); discriminate.
Qed.

Lemma split_on_pieces (sep : N) (s : pystr) :
  Forall (fun piece => sep ∉ piece) (split_on sep s).
Proof.
  induction s as [|c r IH]; cbn [split_on].
  - constructor; [apply not_elem_of_nil|constructor].
  - destruct (N.eqb_spec c sep) as [->|Hne].
    + constructor; [apply not_elem_of_nil|exact IH].
    + destruct (split_on sep r) as [|piece pieces].
      * constructor; [|constructor].
        intros Hin. apply elem_of_cons in Hin as [->|Hin]; [congruence|].
        apply elem_of_nil in Hin. exact Hin.
      * apply Forall_cons in IH as [Hp Hps]. constructor; [|exact Hps].
        intros Hin. apply elem_of_cons in Hin as [->|Hin]; [congruence|].
        contradiction.
Qed.

Lemma split_on_app (sep : N) (piece rest : pystr) :
  sep ∉ piece ->
  split_on sep (piece ++ sep :: rest) = piece :: split_on sep rest.
Proof.
  induction piece as [|c piece IH]; intros Hno; cbn [app split_on].
  - rewrite N.eqb_refl. reflexivity.
  - apply not_elem_of_cons in Hno as [Hne Hno].
    destruct (N.eqb_spec c sep) as [->|_]; [congruence|].
    rewrite IH by exact Hno. reflexivity.
Qed.

Lemma split_on_whole (sep : N) (piece : pystr) :
  sep ∉ piece -> split_on sep piece = [piece].
Proof.
  induction piece as [|c piece IH]; intros Hno; cbn [split_on];
    [reflexivity|].
  apply not_elem_of_cons in Hno as [Hne Hno].
  destruct (N.eqb_spec c sep) as [->|_]; [congruence|].
  rewrite IH by exact Hno. reflexivity.
Qed.

Lemma split_on_join (sep : N) (lines : list pystr) :
  lines <> [] ->
  Forall (fun line => sep ∉ line) lines ->
  split_on sep (join [sep] lines) = lines.
Proof.
  induction lines as [|line rest IH]; intros Hne Hall; [congruence|].
  apply Forall_cons in Hall as [Hline Hrest].
  destruct rest as [|next rest'].
  - cbn [join]. apply split_on_whole. exact Hline.
  - change (join [sep] (line :: next :: rest'))
      with (line ++ sep :: join [sep] (next :: rest')).
    rewrite split_on_app by exact Hline.
    rewrite IH; [reflexivity|discriminate|exact Hrest].
Qed.

Lemma join_snoc (sep : pystr) (lines : list pystr) (line : pystr) :
  lines <> [] -> join sep (lines ++ [line]) = join sep lines ++ sep ++ line.
Proof.
  induction lines as [|first rest IH]; intros Hne; [congruence|].
  destruct rest as [|next rest'].
  - reflexivity.
  - change (join sep ((first :: next :: rest') ++ [line]))
      with (first ++ sep ++ join sep ((next :: rest') ++ [line])).
    rewrite IH by discriminate.
    change (join sep (first :: next :: rest'))
      with (first ++ sep ++ join sep (next :: rest')).
    rewrite <- !app_assoc. reflexivity.
Qed.

(** Whether a list of lines that follows a line with or without text
    ends with a line that has text. *)
Lemma tidy_lines_app (previous : bool) (lines more : list pystr) :
  tidy_lines previous (lines ++ more)
  <-> tidy_lines previous lines
      /\ tidy_lines
           (match last lines with
            | Some [] => false
            | Some (_ :: _) => true
            | None => previous
            end) more.
Proof.
  revert previous. induction lines as [|line rest IH]; intros previous;
    cbn [app tidy_lines].
  - tauto.
  - rewrite IH. destruct rest as [|next rest'].
    + cbn [tidy_lines last app]. destruct line; tauto.
    + assert (Hlast : last (line :: next :: rest') = last (next :: rest'))
        by reflexivity.
      rewrite Hlast.
      destruct (last (next :: rest')) as [[|c l]|] eqn:E; try tauto.
      exfalso. clear -E. revert next E.
      induction rest' as [|x r IHr]; intros next E; [discriminate|].
      apply (IHr x). exact E.
Qed.

Lemma tidy_lines_Forall (previous : bool) (lines : list pystr) :
  tidy_lines previous lines ->
  Forall (fun line => (10%N ∉ line) /\ rstrip_with isspace line = line)
    lines.
Proof.
  revert previous. induction lines as [|line rest IH]; intros previous;
    cbn [tidy_lines]; [constructor|].
  intros (Hnl & Hstrip & _ & Hrest). constructor; [split; assumption|].
  eapply IH. exact Hrest.
Qed.

Lemma tidy_last_text (lines : list pystr) :
  tidy_lines false lines ->
  last_line_has_text lines
  = match last lines with
    | Some (_ :: _) => true
    | _ => false
    end.
Proof.
  intros Htidy. unfold last_line_has_text.
  destruct (last lines) as [line|] eqn:Hlast; [|reflexivity].
  apply tidy_lines_Forall in Htidy. rewrite Forall_forall in Htidy.
  destruct (Htidy line) as [_ Hstrip].
  { apply last_Some_elem_of. exact Hlast. }
  destruct line as [|c l]; [reflexivity|].
  destruct (strip (c :: l)) eqn:E; [|reflexivity].
  exfalso. eapply rstripped_has_text; [exact Hstrip|discriminate|exact E].
Qed.

Lemma format_step_tidy (lines : list pystr) (line : pystr) :
  tidy_lines false lines -> 10%N ∉ line ->
  tidy_lines false (format_step lines line).
Proof.
  intros Htidy Hnl. unfold format_step.
  assert (Hstripped : 10%N ∉ rstrip_with isspace line).
  { intros Hin. apply Hnl.
    assert (H : Forall (fun c => c <> 10%N) (rstrip_with isspace line)).
    { apply rstrip_Forall. apply Forall_forall. intros c Hc ->.
      contradiction. }
    rewrite Forall_forall in H. exfalso. eapply H; [exact Hin|reflexivity]. }
  pose proof (rstrip_idempotent line) as Hidem.
  destruct (rstrip_with isspace line) as [|c l] eqn:E.
  - rewrite (tidy_last_text lines Htidy).
    destruct (last lines) as [[|d t]|] eqn:Hlast; try exact Htidy.
    apply tidy_lines_app. split; [exact Htidy|]. rewrite Hlast.
    cbn [tidy_lines]. repeat split; auto.
  - apply tidy_lines_app. split; [exact Htidy|].
    cbn [tidy_lines]. repeat split; auto. discriminate.
Qed.

Lemma format_loop_tidy (pieces lines : list pystr) :
  tidy_lines false lines ->
  Forall (fun piece => 10%N ∉ piece) pieces ->
  tidy_lines false (fold_left format_step pieces lines).
Proof.
  revert lines. induction pieces as [|piece rest IH]; intros lines Htidy Hall;
    cbn [fold_left]; [exact Htidy|].
  apply Forall_cons in Hall as [Hpiece Hrest].
  apply IH; [|exact Hrest]. apply format_step_tidy; assumption.
Qed.

Lemma formatted_lines_tidy (code : pystr) :
  tidy_lines false (formatted_lines code)
  /\ (formatted_lines code = []
      \/ exists lines, lines <> [] /\ formatted_lines code = lines ++ [[]]).
Proof.
  unfold formatted_lines.
  pose proof (format_loop_tidy (split_on 10 code) [] I
                (split_on_pieces 10 code)) as Htidy.
  destruct (fold_left format_step (split_on 10 code) []) as [|l0 ls] eqn:E
    using rev_ind.
  - split; [exact I|]. left. reflexivity.
  - clear IHls. rewrite last_snoc. destruct l0 as [|c l].
    + split; [exact Htidy|]. right. exists ls. split; [|reflexivity].
      intros ->. cbn [app tidy_lines] in Htidy.
      destruct Htidy as (_ & _ & H & _). specialize (H eq_refl).
      discriminate.
    + split.
      * apply tidy_lines_app. split; [exact Htidy|].
        rewrite last_snoc. cbn [tidy_lines]. repeat split; auto.
        apply not_elem_of_nil.
      * right. exists (ls ++ [c :: l]). split; [|reflexivity].
        destruct ls; discriminate.
Qed.

Lemma format_loop_again (lines done : list pystr) :
  tidy_lines false (done ++ lines) ->
  fold_left format_step lines done = done ++ lines.
Proof.
  revert done. induction lines as [|line rest IH]; intros done Htidy;
    cbn [fold_left]; [rewrite app_nil_r; reflexivity|].
  assert (Hstep : format_step done line = done ++ [line]).
  { apply tidy_lines_app in Htidy as [Hdone Hrest].
    cbn [tidy_lines] in Hrest. destruct Hrest as (_ & Hstrip & Hblank & _).
    unfold format_step. rewrite Hstrip. destruct line as [|c l];
      [|reflexivity].
    rewrite (tidy_last_text done Hdone).
    destruct (last done) as [[|d t]|]; try reflexivity;
      specialize (Hblank eq_refl); discriminate. }
  rewrite Hstep, IH; rewrite <- app_assoc; [reflexivity|exact Htidy].
Qed.

(** X24: formatting is idempotent: formatting formatted code changes
    nothing.  The formatted code is empty or ends with a line feed,
    and none of its lines ends with white space. *)
Theorem format_python_code_idempotent (code : pystr) :
  format_python_code (format_python_code code) = format_python_code code
  /\ (format_python_code code = []
      \/ exists body, format_python_code code = body ++ nl)
  /\ Forall (fun line => rstrip_with isspace line = line)
       (split_on 10 (format_python_code code)).
Proof.
  unfold format_python_code.
  destruct (formatted_lines_tidy code) as [Htidy [Hnil|(lines & Hne & Hl)]].
  - rewrite Hnil. split; [reflexivity|]. split; [left; reflexivity|].
    cbn [join split_on]. constructor; [reflexivity|constructor].
  - assert (Hall := tidy_lines_Forall _ _ Htidy).
    assert (Hsplit : split_on 10 (join nl (formatted_lines code))
                     = formatted_lines code).
    { apply split_on_join.
      - rewrite Hl. destruct lines; discriminate.
      - eapply Forall_impl; [exact Hall|]. intros line [H _]. exact H. }
    split; [|split].
    + f_equal. unfold formatted_lines at 1. rewrite Hsplit.
      rewrite (format_loop_again (formatted_lines code) []) by exact Htidy.
      cbn [app]. rewrite Hl at 1. rewrite last_snoc. reflexivity.
    + right. exists (join nl lines). rewrite Hl, join_snoc by exact Hne.
      rewrite app_nil_r. reflexivity.
    + rewrite Hsplit. eapply Forall_impl; [exact Hall|].
      intros line [_ H]. exact H.
Qed.

End Formatter.

(** ** Validators ([utils/validators.py]) *)

Section ValidatorChecks.
Import Validators Inputs.

Lemma count_char_Permutation (c : N) (s s' : pystr) :
  Permutation s s' -> count_char c s = count_char c s'.
Proof.
  induction 1 as [|x l l' _ IH|x y l|l l' l'' _ IH1 _ IH2];
    cbn [count_char]; lia.
Qed.

Lemma validate_python_code_verdict (code : pystr) :
  fst (validate_python_code code) = true
  <-> ~ Forall (fun c => isspace c = true) code
      /\ count_char 40 code = count_char 41 code
      /\ count_char 91 code = count_char 93 code
      /\ count_char 123 code = count_char 125 code.
Proof.
  unfold validate_python_code.
  destruct code as [|c code'] eqn:Hcode.
  { cbn [fst]. split; [discriminate|]. intros [H _]. destruct H. constructor. }
  rewrite <- Hcode. clear Hcode.
  pose proof (strip_nil code) as Hstrip.
  destruct (strip code) as [|d t].
  { cbn [fst]. split; [discriminate|]. intros [H _]. destruct H.
    apply Hstrip. reflexivity. }
  assert (Htext : ~ Forall (fun c => isspace c = true) code).
  { intros H. apply Hstrip in H. discriminate. }
  destruct (Z.eqb_spec (count_char 40 code) (count_char 41 code));
    cbn [negb fst]; [|split; [discriminate|tauto]].
  destruct (Z.eqb_spec (count_char 91 code) (count_char 93 code));
    cbn [negb fst]; [|split; [discriminate|tauto]].
  destruct (Z.eqb_spec (count_char 123 code) (count_char 125 code));
    cbn [negb fst]; [|split; [discriminate|tauto]].
  tauto.
Qed.

(** X25: [validate_python_code] accepts a text exactly when it has a
    character that is not white space and as many opening as closing
    brackets of each of the three kinds.  Only the numbers count, not
    the order: a text and any rearrangement of its characters get the
    same verdict.  An error message comes exactly with a rejection. *)
Theorem validate_python_code_counts (code : pystr) :
  (fst (validate_python_code code) = true
   <-> ~ Forall (fun c => isspace c = true) code
       /\ count_char 40 code = count_char 41 code
       /\ count_char 91 code = count_char 93 code
       /\ count_char 123 code = count_char 125 code)
  /\ (forall code',
        Permutation code code' ->
        fst (validate_python_code code')
        = fst (validate_python_code code))
  /\ (fst (validate_python_code code) = true
      <-> snd (validate_python_code code) = None).
Proof.
  split; [apply validate_python_code_verdict|]. split.
  - intros code' Hperm.
    assert (Hiff : fst (validate_python_code code') = true
                   <-> fst (validate_python_code code) = true).
    { rewrite !validate_python_code_verdict.
      rewrite !(count_char_Permutation _ _ _ Hperm).
      assert (Hall : Forall (fun c => isspace c = true) code
                     <-> Forall (fun c => isspace c = true) code').
      { split; apply Permutation_Forall;
          [exact Hperm|symmetry; exact Hperm]. }
      tauto. }
    destruct (fst (validate_python_code code')),
      (fst (validate_python_code code)); try reflexivity.
    + symmetry. apply Hiff. reflexivity.
    + apply Hiff. reflexivity.
  - unfold validate_python_code.
    destruct code as [|c code'] eqn:Hcode;
      [cbn [fst snd]; split; discriminate|].
    rewrite <- Hcode.
    destruct (strip code); [cbn [fst snd]; split; discriminate|].
    repeat (match goal with
            | |- context [if negb ?b then _ else _] => destruct b
            end; cbn [negb fst snd]; [|split; discriminate]).
    split; reflexivity.
Qed.

Lemma validate_python_code_counts_witness :
  fst (validate_python_code (lit ")("))
  = fst (validate_python_code (lit "()")).
Proof.
  destruct (validate_python_code_counts (lit "()")) as (_ & H & _).
  apply H. vm_compute. apply perm_swap.
Defined.

Lemma match_classes_app (pattern more : list (N -> bool))
    (s rest : pystr) :
  Forall2 (fun class c => class c = true) pattern s ->
  match_classes (pattern ++ more) (s ++ rest) = match_classes more rest.
Proof.
  induction 1 as [|class c pattern s Hc _ IH]; cbn [app match_classes];
    [reflexivity|].
  rewrite Hc. exact IH.
Qed.

Lemma repeat_class (class : N -> bool) (s : pystr) :
  Forall (fun c => class c = true) s ->
  Forall2 (fun class c => class c = true) (repeat class (length s)) s.
Proof.
  induction 1 as [|c s Hc _ IH]; cbn [length repeat]; constructor;
    assumption.
Qed.

Lemma hex_digit_is_hex (d : N) : (d < 16)%N -> is_hex (hex_digit d) = true.
Proof.
  intros Hd. unfold hex_digit, is_hex.
  destruct (N.ltb_spec d 10).
  - replace ((48 <=? 48 + d)%N) with true by (symmetry; apply N.leb_le; lia).
    replace ((48 + d <=? 57)%N) with true by (symmetry; apply N.leb_le; lia).
    reflexivity.
  - replace ((97 <=? 87 + d)%N) with true by (symmetry; apply N.leb_le; lia).
    replace ((87 + d <=? 102)%N) with true by (symmetry; apply N.leb_le; lia).
    cbn [andb]. rewrite orb_true_r. reflexivity.
Qed.

Lemma hex_digits_shape (count : nat) (n : N) :
  length (hex_digits count n) = count
  /\ Forall (fun c => is_hex c = true) (hex_digits count n).
Proof.
  unfold hex_digits. split.
  - rewrite length_map, length_seq. reflexivity.
  - apply Forall_map, Forall_forall. intros i _. cbn beta.
    apply hex_digit_is_hex. apply N.mod_lt. discriminate.
Qed.

Lemma match_group (size : nat) (more : list (N -> bool))
    (group rest : pystr) :
  length group = size ->
  Forall (fun c => is_hex c = true) group ->
  match_classes (repeat is_hex size ++ more) (group ++ rest)
  = match_classes more rest.
Proof.
  intros <- Hall. apply match_classes_app. apply repeat_class. exact Hall.
Qed.

Lemma match_classes_length (pattern : list (N -> bool))
    (s rest : pystr) :
  match_classes pattern s = Some rest ->
  length s = (length pattern + length rest)%nat.
Proof.
  revert s. induction pattern as [|class pattern IH]; intros s;
    cbn [match_classes length].
  - intros [= ->]. reflexivity.
  - destruct s as [|c r]; [discriminate|]. destruct (class c); [|discriminate].
    intros H. apply IH in H. cbn [length]. lia.
Qed.

(** X26: the text form of every UUID passes [validate_uuid], and so
    does that text followed by one line feed, since [$] also matches
    before a final line feed.  Whatever passes is 36 characters long,
    or 37 with the line feed. *)
Theorem validate_uuid_str (u : UUID) :
  validate_uuid (str_of_uuid u) = true
  /\ validate_uuid (str_of_uuid u ++ nl) = true
  /\ (forall s, validate_uuid s = true ->
        length s = 36%nat \/ (length s = 37%nat /\ last s = Some 10%N)).
Proof.
  assert (Hmatch : forall rest,
             match_classes uuid_pattern (str_of_uuid u ++ rest) = Some rest).
  { intros rest. unfold str_of_uuid, uuid_pattern.
    destruct (hex_digits_shape 32 u) as [Hlen Hall].
    set (h := hex_digits 32 u) in *.
    assert (Hpart : forall a b,
               (a + b <= 32)%nat ->
               length (firstn b (skipn a h)) = b
               /\ Forall (fun c => is_hex c = true) (firstn b (skipn a h))).
    { intros a b Hab. split.
      - rewrite length_firstn, length_skipn. lia.
      - apply Forall_take, Forall_drop. exact Hall. }
    assert (Htail : length (skipn 20 h) = 12%nat
                    /\ Forall (fun c => is_hex c = true) (skipn 20 h)).
    { split; [rewrite length_skipn; lia|apply Forall_drop; exact Hall]. }
    destruct (Hpart 0 8)%nat as [L1 F1]; [lia|].
    destruct (Hpart 8 4)%nat as [L2 F2]; [lia|].
    destruct (Hpart 12 4)%nat as [L3 F3]; [lia|].
    destruct (Hpart 16 4)%nat as [L4 F4]; [lia|].
    destruct Htail as [L5 F5]. cbn [skipn] in L1, F1.
    rewrite <- !app_assoc.
    rewrite (match_group 8) by assumption.
    cbn [app match_classes is_hyphen N.eqb Pos.eqb].
    rewrite (match_group 4) by assumption.
    cbn [app match_classes is_hyphen N.eqb Pos.eqb].
    rewrite (match_group 4) by assumption.
    cbn [app match_classes is_hyphen N.eqb Pos.eqb].
    rewrite (match_group 4) by assumption.
    cbn [app match_classes is_hyphen N.eqb Pos.eqb].
    rewrite <- (app_nil_r (repeat is_hex 12)).
    rewrite (match_group 12) by assumption.
    reflexivity. }
  split; [|split].
  - unfold validate_uuid.
    rewrite <- (app_nil_r (str_of_uuid u)), Hmatch. reflexivity.
  - unfold validate_uuid. rewrite Hmatch. reflexivity.
  - intros s Hs. unfold validate_uuid in Hs.
    destruct (match_classes uuid_pattern s) as [rest|] eqn:E; [|discriminate].
    pose proof (match_classes_length _ _ _ E) as Hlen.
    change (length uuid_pattern) with 36%nat in Hlen.
    destruct rest as [|c [|d rest']]; [| |discriminate].
    + left. cbn [length] in Hlen. lia.
    + right. apply N.eqb_eq in Hs. subst c. cbn [length] in Hlen.
      split; [lia|].
      clear -E. revert s E. generalize uuid_pattern.
      induction l as [|class pattern IH]; intros s E; cbn [match_classes] in E.
      * injection E as ->. reflexivity.
      * destruct s as [|c r]; [discriminate|].
        destruct (class c); [|discriminate].
        specialize (IH r E). destruct r; [discriminate|exact IH].
Qed.

Lemma dict_lookup_cases (entries : list (pystr * pyval)) (key : pystr)
    (body : pystr -> result (option pystr)) :
  (if dict_has entries key
   then strip_of (dict_get entries key PNone)
   else Return []) = Return [] \/
  (exists e, (if dict_has entries key
              then strip_of (dict_get entries key PNone)
              else Return []) = Raise e) \/
  (exists text c t,
      dict_has entries key = true
      /\ dict_get entries key PNone = PStr text
      /\ strip text = c :: t
      /\ (if dict_has entries key
          then strip_of (dict_get entries key PNone)
          else Return []) = Return (c :: t)).
Proof.
  destruct (dict_has entries key); [|left; reflexivity].
  destruct (dict_get entries key PNone) as [| | | |text| |];
    cbn [strip_of]; try (right; left; eexists; reflexivity).
  destruct (strip text) as [|c t] eqn:E; [left; reflexivity|].
  right. right. exists text, c, t. auto.
Qed.

Lemma check_testcase_ok (i : nat) (testcase : pyval) :
  check_testcase i testcase = Return None <-> well_formed testcase.
Proof.
  unfold check_testcase, well_formed. split.
  - destruct testcase as [| | | | | |entries]; try discriminate.
    destruct (dict_lookup_cases entries (lit "title") (fun _ => Return None))
      as [Ht|[[e Ht]|(title & c & t & Hhas & Hget & Hstrip & Ht)]];
      rewrite Ht; cbn [bind]; try discriminate.
    destruct (dict_has entries (lit "steps")) eqn:Hsteps;
      cbn [negb orb]; [|discriminate].
    destruct (truthy (dict_get entries (lit "steps") PNone)) eqn:Htruthy;
      cbn [negb]; [|discriminate].
    destruct (dict_get entries (lit "steps") PNone) as [| | | | |steps|]
      eqn:Hlist; try discriminate.
    destruct (dict_lookup_cases entries (lit "expected_result")
                (fun _ => Return None))
      as [He|[[e He]|(expected & c' & t' & Hhas' & Hget' & Hstrip' & He)]];
      rewrite He; cbn [bind]; try discriminate.
    intros _. exists entries, title, steps, expected.
    repeat split; try assumption; try congruence.
    intros ->. discriminate.
  - intros (entries & title & steps & expected & -> & Ht & Hgt & Hst
            & Hs & Hgs & Hne & He & Hge & Hse).
    rewrite Ht, Hgt. cbn [strip_of bind].
    destruct (strip title) as [|c t]; [congruence|].
    rewrite Hs, Hgs. destruct steps as [|step steps']; [congruence|].
    cbn [truthy negb orb]. rewrite He, Hge. cbn [strip_of bind].
    destruct (strip expected); [congruence|reflexivity].
Qed.

Lemma batch_loop_ok (i : nat) (testcases : list pyval) :
  batch_loop i testcases = Return (true, None)
  <-> Forall well_formed testcases.
Proof.
  revert i. induction testcases as [|testcase rest IH]; intros i;
    cbn [batch_loop].
  - split; [constructor|reflexivity].
  - rewrite Forall_cons. rewrite <- (check_testcase_ok i), <- (IH (S i)).
    destruct (check_testcase i testcase) as [[error|]|e]; cbn [bind].
    + split; [discriminate|]. intros [H _]. discriminate.
    + tauto.
    + split; [discriminate|]. intros [H _]. discriminate.
Qed.

Lemma batch_loop_verdict (i : nat) (testcases : list pyval)
    (valid : bool) (error : option pystr) :
  batch_loop i testcases = Return (valid, error) ->
  (valid = true /\ error = None) \/ (valid = false /\ is_Some error).
Proof.
  revert i. induction testcases as [|testcase rest IH]; intros i;
    cbn [batch_loop].
  - intros [= <- <-]. left. split; reflexivity.
  - destruct (check_testcase i testcase) as [[msg|]|e]; cbn [bind].
    + intros [= <- <-]. right. split; [reflexivity|eauto].
    + apply IH.
    + discriminate.
Qed.

(** X27: [validate_test_case_batch] answers that the batch is valid
    exactly when the list is not empty and every element is a
    dictionary with a title and an expected result that are strings
    holding more than white space, and with steps that are a list
    with at least one element.  When it answers, valid comes without
    an error message and invalid with one. *)
Theorem validate_test_case_batch_ok (testcases : list pyval) :
  (validate_test_case_batch testcases = Return (true, None)
   <-> testcases <> [] /\ Forall well_formed testcases)
  /\ (forall valid error,
        validate_test_case_batch testcases = Return (valid, error) ->
        (valid = true /\ error = None)
        \/ (valid = false /\ is_Some error)).
Proof.
  unfold validate_test_case_batch. destruct testcases as [|testcase rest].
  - split.
    + split; [discriminate|]. intros [H _]. congruence.
    + intros valid error [= <- <-]. right. split; [reflexivity|eauto].
  - split.
    + rewrite batch_loop_ok. split; [intros H; split; [discriminate|exact H]|].
      intros [_ H]. exact H.
    + intros valid error. apply batch_loop_verdict.
Qed.

Section WithRuntime.
Context {R : Runtime}.

(** X28: the validator of test types and the estimator of durations
    agree on the tokens: [validate_test_type] accepts a token exactly
    when its lower-cased form has an entry of its own in the table
    [base_times] of [calculate_estimated_time]. *)
Theorem validate_test_type_keys (test_type : pystr) :
  validate_test_type test_type
  = bool_decide (is_Some (Helpers.base_times !! str_lower test_type)).
Proof.
  unfold validate_test_type.
  generalize (str_lower test_type). intros token.
  apply bool_decide_ext. rewrite !elem_of_cons, elem_of_nil.
  unfold Helpers.base_times. split.
  - intros [->|[->|[->|[->|[]]]]]; vm_compute; eexists; reflexivity.
  - intros [x Hx].
    destruct (decide (token = lit "manual_ui")) as [|H1]; [tauto|].
    rewrite lookup_insert_ne in Hx by congruence.
    destruct (decide (token = lit "manual_api")) as [|H2]; [tauto|].
    rewrite lookup_insert_ne in Hx by congruence.
    destruct (decide (token = lit "auto_ui")) as [|H3]; [tauto|].
    rewrite lookup_insert_ne in Hx by congruence.
    destruct (decide (token = lit "auto_api")) as [|H4]; [tauto|].
    rewrite lookup_insert_ne in Hx by congruence.
    rewrite lookup_empty in Hx. discriminate.
Qed.

End WithRuntime.

Lemma validate_uuid_str_witness :
  length (str_of_uuid 7%N) = 36%nat
  \/ (length (str_of_uuid 7%N) = 37%nat
      /\ last (str_of_uuid 7%N) = Some 10%N).
Proof.
  destruct (validate_uuid_str 7%N) as (Hok & _ & Hlen).
  apply Hlen. exact Hok.
Defined.

Lemma validate_test_case_batch_ok_witness :
  validate_test_case_batch
    [PDict [ (lit "title", PStr (lit "Login"));
             (lit "steps", PList [PStr (lit "open the page")]);
             (lit "expected_result", PStr (lit "signed in")) ]]
  = Return (true, None).
Proof.
  destruct (validate_test_case_batch_ok
              [PDict [ (lit "title", PStr (lit "Login"));
                       (lit "steps", PList [PStr (lit "open the page")]);
                       (lit "expected_result", PStr (lit "signed in")) ]])
    as [[_ H] _].
  apply H. split; [discriminate|].
  constructor; [|constructor].
  exists [ (lit "title", PStr (lit "Login"));
           (lit "steps", PList [PStr (lit "open the page")]);
           (lit "expected_result", PStr (lit "signed in")) ],
    (lit "Login"), [PStr (lit "open the page")], (lit "signed in").
  split; [reflexivity|].
  split; [vm_compute; reflexivity|].
  split; [vm_compute; reflexivity|].
  split; [vm_compute; discriminate|].
  split; [vm_compute; reflexivity|].
  split; [vm_compute; reflexivity|].
  split; [discriminate|].
  split; [vm_compute; reflexivity|].
  split; [vm_compute; reflexivity|].
  vm_compute. discriminate.
Defined.

End ValidatorChecks.
